(** * GitLab async exporter: export orchestration engine

    A shallow embedding of [gitlab_async_tui_exporter.py]: the retry
    decorator, the statistics record, the paginated project fetcher, the
    per-project export workflow with its resumable download, the batch under
    the download semaphore and the driver [TUIInterface.run_export].

    Python floats (delays, success rate) are idealised as rationals.  The
    remote host is a record of functions from the request history to a
    response; everything the exporter mutates lives in one [World]. *)

From Stdlib Require Import ZArith QArith List String Ascii Bool Lia.
From stdpp Require Import base gmap strings list.
Import ListNotations.

#[local] Open Scope string_scope.
#[local] Open Scope Z_scope.

(** ** Data model *)

(** A project record as the remote returns it; only the fields the export
    workflow reads. *)
Record Project := mkProject {
  id : Z;
  path_with_namespace : string
}.

(** [ExportStats]: the counters of the dataclass ([start_time] and the
    clock-reading [elapsed_time] are left out). *)
Record ExportStats := mkStats {
  projects_exported : Z;
  projects_failed : Z;
  groups_exported : Z;
  groups_failed : Z;
  wikis_exported : Z;
  snippets_exported : Z;
  total_size : Z;
  retries : Z
}.

Definition ExportStats_init : ExportStats := mkStats 0 0 0 0 0 0 0 0.

(** [ExportStats.success_rate]:
    [(projects_exported / total * 100) if total > 0 else 0]. *)
Definition success_rate (s : ExportStats) : Q :=
  let total := projects_exported s + projects_failed s in
  if 0 <? total
  then (inject_Z (projects_exported s) / inject_Z total * 100)%Q
  else 0%Q.

(** Exceptions the workflow can meet; all are subclasses of [Exception]. *)
Inductive exn :=
| ClientResponseError (status : Z)
| ClientConnectionError
| ValueError
| UnboundLocalError (name : string).

Inductive outcome (A : Type) :=
| Return (a : A)
| Raise (e : exn).
Arguments Return {A} a.
Arguments Raise {A} e.

Inductive level := INFO | WARN | ERROR | SUCCESS.

(** The messages handed to [self.log], with the data they interpolate. *)
Inductive message :=
| MsgRateLimitedRetry (sleep : Q)
| MsgRateLimitedMax
| MsgAlreadyExported (path : string)
| MsgForbiddenTrigger (path : string)
| MsgFailedStart (path : string) (status : Z)
| MsgExportFailed (path : string)
| MsgExportTimeout (path : string)
| MsgExceptionExporting (path : string) (e : exn)
| MsgForbiddenDownload (path : string)
| MsgFailedDownload (path : string) (status : Z)
| MsgResumed (path : string) (bytes : Z)
| MsgDownloaded (path : string) (bytes : Z)
| MsgExceptionDownloading (path : string) (e : exn)
| MsgFailedFetchPage (page : Z) (status : Z)
| MsgErrorFetchPage (page : Z) (e : exn).

(** The requests the engine issues. [GetDownload] carries the offset of its
    [Range: bytes=<offset>-] header, when it has one. *)
Inductive request :=
| PostExport (project_id : Z)
| GetExport (project_id : Z)
| GetDownload (project_id : Z) (range : option Z)
| GetProjects (page : Z).

(** What the code reads of each response. *)
Record poll_response := mkPoll {
  poll_status : Z;
  (* [export_data.get('export_status', '')]; [None] when reading the JSON
     body raises *)
  poll_export_status : option string
}.

Record download_response := mkDownload {
  dl_status : Z;
  (* [int(headers.get('Content-Length', 0))]; [None] when [int] raises *)
  dl_content_length : option Z;
  (* chunks delivered by [iter_chunked(8192)], in order *)
  dl_chunks : list (list Byte.byte);
  (* the exception that ends the stream early, if any *)
  dl_stream_error : option exn
}.

Inductive next_page_header :=
| HeaderAbsent
| HeaderEmpty
| HeaderInt (n : Z)
| HeaderMalformed.

Record page_response := mkPage {
  page_status : Z;
  (* [await response.json()]; [None] when it raises *)
  page_items : option (list Project);
  page_next : next_page_header
}.

(** The remote host: each answer may depend on the requests seen so far. *)
Record Remote := mkRemote {
  post_export : list request -> Z -> outcome Z;
  get_export : list request -> Z -> outcome poll_response;
  get_download : list request -> Z -> option Z -> outcome download_response;
  get_projects : list request -> Z -> outcome page_response
}.

(** Everything the exporter reads and mutates. *)
Record World := mkWorld {
  stats : ExportStats;
  failed_projects : list Project;
  fs : gmap string (list Byte.byte);
  log_entries : list (level * message);
  requests : list request;
  sleeps : list Q;
  rng : nat -> Q;
  rng_pos : nat
}.

Definition World_init (files : gmap string (list Byte.byte)) (r : nat -> Q) : World :=
  mkWorld ExportStats_init [] files [] [] [] r 0.

Definition set_stats (s : ExportStats) (w : World) : World :=
  mkWorld s (failed_projects w) (fs w) (log_entries w) (requests w)
          (sleeps w) (rng w) (rng_pos w).

Definition set_failed_projects (l : list Project) (w : World) : World :=
  mkWorld (stats w) l (fs w) (log_entries w) (requests w)
          (sleeps w) (rng w) (rng_pos w).

Definition set_fs (m : gmap string (list Byte.byte)) (w : World) : World :=
  mkWorld (stats w) (failed_projects w) m (log_entries w) (requests w)
          (sleeps w) (rng w) (rng_pos w).

Definition set_log_entries (l : list (level * message)) (w : World) : World :=
  mkWorld (stats w) (failed_projects w) (fs w) l (requests w)
          (sleeps w) (rng w) (rng_pos w).

Definition set_requests (l : list request) (w : World) : World :=
  mkWorld (stats w) (failed_projects w) (fs w) (log_entries w) l
          (sleeps w) (rng w) (rng_pos w).

Definition set_sleeps (l : list Q) (w : World) : World :=
  mkWorld (stats w) (failed_projects w) (fs w) (log_entries w) (requests w)
          l (rng w) (rng_pos w).

Definition set_rng_pos (n : nat) (w : World) : World :=
  mkWorld (stats w) (failed_projects w) (fs w) (log_entries w) (requests w)
          (sleeps w) (rng w) n.

(** ** A state monad in which a raised exception keeps the state *)

Definition M (A : Type) : Type := World -> outcome A * World.

Definition ret {A} (a : A) : M A := fun w => (Return a, w).

Definition raise {A} (e : exn) : M A := fun w => (Raise e, w).

Definition bind {A B} (m : M A) (k : A -> M B) : M B :=
  fun w => match m w with
           | (Return a, w') => k a w'
           | (Raise e, w') => (Raise e, w')
           end.

(** [try: body except Exception as e: handler e] *)
Definition try_except {A} (body : M A) (handler : exn -> M A) : M A :=
  fun w => match body w with
           | (Return a, w') => (Return a, w')
           | (Raise e, w') => handler e w'
           end.

Definition modify (f : World -> World) : M unit := fun w => (Return tt, f w).

Declare Scope py_scope.
Delimit Scope py_scope with py.
Notation "'let!' x ':=' m 'in' k" := (bind m (fun x => k))
  (at level 10, x name, m at level 100, k at level 200) : py_scope.
Notation "'do!' m 'in' k" := (bind m (fun _ => k))
  (at level 10, m at level 100, k at level 200) : py_scope.
#[local] Open Scope py_scope.

(** [self.log]: the line is recorded.  The printing of the line on the
    console and the appending to the log file are taken to go through; a run
    in which they raise is no run of this model. *)
Definition log (lv : level) (msg : message) : M unit :=
  modify (fun w => set_log_entries (log_entries w ++ [(lv, msg)]) w).

Definition asyncio_sleep (seconds : Q) : M unit :=
  modify (fun w => set_sleeps (sleeps w ++ [seconds]) w).

Definition random_random : M Q :=
  fun w => (Return (rng w (rng_pos w)), set_rng_pos (S (rng_pos w)) w).

Definition bump_retries : M unit :=
  modify (fun w =>
    let s := stats w in
    set_stats (mkStats (projects_exported s) (projects_failed s)
                 (groups_exported s) (groups_failed s) (wikis_exported s)
                 (snippets_exported s) (total_size s) (retries s + 1)) w).

Definition bump_projects_exported : M unit :=
  modify (fun w =>
    let s := stats w in
    set_stats (mkStats (projects_exported s + 1) (projects_failed s)
                 (groups_exported s) (groups_failed s) (wikis_exported s)
                 (snippets_exported s) (total_size s) (retries s)) w).

Definition bump_projects_failed : M unit :=
  modify (fun w =>
    let s := stats w in
    set_stats (mkStats (projects_exported s) (projects_failed s + 1)
                 (groups_exported s) (groups_failed s) (wikis_exported s)
                 (snippets_exported s) (total_size s) (retries s)) w).

Definition add_total_size (n : Z) : M unit :=
  modify (fun w =>
    let s := stats w in
    set_stats (mkStats (projects_exported s) (projects_failed s)
                 (groups_exported s) (groups_failed s) (wikis_exported s)
                 (snippets_exported s) (total_size s + n) (retries s)) w).

Definition append_failed_project (p : Project) : M unit :=
  modify (fun w => set_failed_projects (failed_projects w ++ [p]) w).

(** ** [async_retry_with_backoff] *)

(** The branch [if x < retries] of [wrapper]: compute the delay, log, count
    the retry, sleep. *)
Definition backoff (backoff_in_seconds : Q) (x : nat) : M unit :=
  let! jitter := random_random in
  let sleep := (backoff_in_seconds * inject_Z (2 ^ Z.of_nat x) + jitter)%Q in
  do! log WARN (MsgRateLimitedRetry sleep) in
  do! bump_retries in
  asyncio_sleep sleep.

(** The [while True] loop of [wrapper]; [x] only grows and the loop leaves
    once [x] reaches [retries], so [S retries] rounds of fuel are enough
    ([wrapper_loop_total] below). *)
Fixpoint wrapper_loop {A} (retries : nat) (backoff_in_seconds : Q) (f : M A)
    (fuel x : nat) : World -> option (outcome A * World) :=
  fun w =>
  match fuel with
  | O => None
  | S fuel' =>
    match f w with
    | (Return a, w1) => Some (Return a, w1)
    | (Raise (ClientResponseError status), w1) =>
      if status =? 429 then
        if (x <? retries)%nat then
          let '(_, w2) := backoff backoff_in_seconds x w1 in
          wrapper_loop retries backoff_in_seconds f fuel' (S x) w2
        else
          let '(_, w2) := log ERROR MsgRateLimitedMax w1 in
          Some (Raise (ClientResponseError status), w2)
      else Some (Raise (ClientResponseError status), w1)
    | (Raise e, w1) => Some (Raise e, w1)
    end
  end.

(** The decorated function.  The loop always ends within its fuel
    ([async_retry_total] below), so the last branch is never taken. *)
Definition async_retry_with_backoff {A} (retries : nat) (backoff_in_seconds : Q)
    (f : M A) : M A :=
  fun w =>
    match wrapper_loop retries backoff_in_seconds f (S retries) 0 w with
    | Some r => r
    | None => (Raise ValueError, w)
    end.

(** The decorator's defaults: [retries=5, backoff_in_seconds=1]. *)
Definition default_retries : nat := 5.
Definition default_backoff : Q := 1%Q.

(** ** Files and requests *)

Inductive file_mode := WB | AB.

Definition path_exists (path : string) : M bool :=
  fun w => (Return (bool_decide (is_Some (fs w !! path))), w).

(** [open(path, mode)]: ['wb'] creates or truncates, ['ab'] creates when the
    file is missing and keeps its content otherwise.  The directory of the
    file is taken to be there and the disk to accept what is written. *)
Definition open_file (path : string) (mode : file_mode) : M unit :=
  modify (fun w =>
    match mode, fs w !! path with
    | AB, Some _ => w
    | _, _ => set_fs (<[path := []]> (fs w)) w
    end).

Definition file_write (path : string) (chunk : list Byte.byte) : M unit :=
  modify (fun w =>
    set_fs (<[path := (default [] (fs w !! path) ++ chunk)%list]> (fs w)) w).

Fixpoint write_chunks (path : string) (chunks : list (list Byte.byte)) : M unit :=
  match chunks with
  | [] => ret tt
  | chunk :: rest => do! file_write path chunk in write_chunks path rest
  end.

Definition record_request (r : request) : World -> World :=
  fun w => set_requests (requests w ++ [r]) w.

Definition session_post_export (remote : Remote) (project_id : Z) : M Z :=
  fun w => (post_export remote (requests w) project_id,
            record_request (PostExport project_id) w).

Definition session_get_export (remote : Remote) (project_id : Z) : M poll_response :=
  fun w => (get_export remote (requests w) project_id,
            record_request (GetExport project_id) w).

Definition session_get_download (remote : Remote) (project_id : Z)
    (range : option Z) : M download_response :=
  fun w => (get_download remote (requests w) project_id range,
            record_request (GetDownload project_id range) w).

Definition session_get_projects (remote : Remote) (page : Z) : M page_response :=
  fun w => (get_projects remote (requests w) page,
            record_request (GetProjects page) w).

(** [response.raise_for_status()]: raises for every status of 400 and above. *)
Definition raise_for_status (status : Z) : M unit :=
  if 400 <=? status then raise (ClientResponseError status) else ret tt.

(** A value whose computation may raise: [None] stands for the raise. *)
Definition or_raise {A} (e : exn) (v : option A) : M A :=
  match v with
  | Some a => ret a
  | None => raise e
  end.

(** [str.replace(old, new)] for single characters. *)
Fixpoint replace_char (old new : ascii) (s : string) : string :=
  match s with
  | EmptyString => EmptyString
  | String c rest =>
      String (if Ascii.eqb c old then new else c) (replace_char old new rest)
  end.

(** [self.export_dir / "projects" / f"{project_path.replace('/', '_')}.tar.gz"] *)
Definition export_file_of (export_dir project_path : string) : string :=
  export_dir +:+ "/projects/" +:+ replace_char "/" "_" project_path +:+ ".tar.gz".

(** ** [GitLabAsyncExporter.download_export] *)

(** The first lines of [download_export]: the [Range] offset of the request
    (if any), the mode the file is opened in and [downloaded_size], from what
    is on disk at [export_file]. *)
Definition resume_plan (existing : option (list Byte.byte))
    : option Z * file_mode * Z :=
  match existing with
  | Some content =>
      let st_size := Z.of_nat (length content) in (Some st_size, AB, st_size)
  | None => (None, WB, 0)
  end.

(** The body of [async with self.session.get(...) as response]. *)
Definition download_receive (project_path export_file : string)
    (mode : file_mode) (downloaded_size : Z) (response : download_response)
    : M bool :=
  do! raise_for_status (dl_status response) in
  if dl_status response =? 403 then
    do! log ERROR (MsgForbiddenDownload project_path) in
    ret false
  else if negb ((dl_status response =? 200) || (dl_status response =? 206)) then
    do! log ERROR (MsgFailedDownload project_path (dl_status response)) in
    ret false
  else
    let! total := or_raise ValueError (dl_content_length response) in
    do! open_file export_file mode in
    do! write_chunks export_file (dl_chunks response) in
    do! match dl_stream_error response with
        | Some e => raise e
        | None => ret tt
        end in
    do! add_total_size total in
    do! log SUCCESS
          (match mode with
           | AB => MsgResumed project_path (downloaded_size + total)
           | WB => MsgDownloaded project_path (downloaded_size + total)
           end) in
    ret true.

(** The [try] of [download_export] from the resume plan on; the
    [export_file.parent.mkdir] before it (line 319) is taken to go through. *)
Definition download_export_try (remote : Remote) (project_id : Z)
    (project_path export_file : string) : M bool :=
  fun w0 =>
  let '(headers, mode, downloaded_size) := resume_plan (fs w0 !! export_file) in
  (let! response := session_get_download remote project_id headers in
   download_receive project_path export_file mode downloaded_size response) w0.

Definition download_export_body (remote : Remote) (project_id : Z)
    (project_path export_file : string) : M bool :=
  try_except (download_export_try remote project_id project_path export_file)
    (fun e =>
       do! log ERROR (MsgExceptionDownloading project_path e) in
       ret false).

(** [@async_retry_with_backoff()] applied to the body. *)
Definition download_export (remote : Remote) (project_id : Z)
    (project_path export_file : string) : M bool :=
  async_retry_with_backoff default_retries default_backoff
    (download_export_body remote project_id project_path export_file).

(** ** [GitLabAsyncExporter.export_project] *)

Definition max_attempts : nat := 120.

(** The lines the failing branches share: log the error, count the project
    as failed, put it on the failed list, [return False]. *)
Definition record_failure (project : Project) (msg : message) : M bool :=
  do! log ERROR msg in
  do! bump_projects_failed in
  do! append_failed_project project in
  ret false.

(** The [for attempt in range(max_attempts)] loop, [remaining] iterations
    still to run.  [Some b] is a [return b] from inside the loop, [None] is
    the loop running out. *)
Fixpoint poll_loop (remote : Remote) (project : Project) (export_file : string)
    (remaining : nat) : M (option bool) :=
  match remaining with
  | O => ret None
  | S remaining' =>
    do! asyncio_sleep 5%Q in
    let! response := session_get_export remote (id project) in
    if negb (poll_status response =? 200) then
      poll_loop remote project export_file remaining'
    else
      let! export_status := or_raise ValueError (poll_export_status response) in
      if String.eqb export_status "finished" then
        let! success := download_export remote (id project)
                          (path_with_namespace project) export_file in
        do! (if success : bool then bump_projects_exported
             else bump_projects_failed) in
        ret (Some success)
      else if String.eqb export_status "failed" then
        let! r := record_failure project
                    (MsgExportFailed (path_with_namespace project)) in
        ret (Some r)
      else
        poll_loop remote project export_file remaining'
  end.

Definition export_project_try (remote : Remote) (export_dir : string)
    (project : Project) : M bool :=
  let project_id := id project in
  let project_path := path_with_namespace project in
  let export_file := export_file_of export_dir project_path in
  let! present := path_exists export_file in
  if present : bool then
    do! log INFO (MsgAlreadyExported project_path) in
    do! bump_projects_exported in
    ret true
  else
    let! status := session_post_export remote project_id in
    do! raise_for_status status in
    if status =? 403 then
      record_failure project (MsgForbiddenTrigger project_path)
    else if negb ((status =? 200) || (status =? 202)) then
      record_failure project (MsgFailedStart project_path status)
    else
      let! polled := poll_loop remote project export_file max_attempts in
      match polled with
      | Some result => ret result
      | None => record_failure project (MsgExportTimeout project_path)
      end.

Definition export_project_body (remote : Remote) (export_dir : string)
    (project : Project) : M bool :=
  try_except (export_project_try remote export_dir project)
    (fun e =>
       record_failure project
         (MsgExceptionExporting (path_with_namespace project) e)).

(** [@async_retry_with_backoff()] applied to the body. *)
Definition export_project (remote : Remote) (export_dir : string)
    (project : Project) : M bool :=
  async_retry_with_backoff default_retries default_backoff
    (export_project_body remote export_dir project).

(** [await asyncio.gather] over [export_tasks], the jobs taken in list
    order, one after the other; the results come in the order of the jobs, as
    [gather] gives them. *)
Fixpoint export_batch (remote : Remote) (export_dir : string)
    (projects : list Project) : M (list bool) :=
  match projects with
  | [] => ret []
  | project :: rest =>
      let! r := export_project remote export_dir project in
      let! rs := export_batch remote export_dir rest in
      ret (r :: rs)
  end.

(** ** [GitLabAsyncExporter.get_all_projects] *)

Inductive loop_ctl :=
| Break (projects : list Project)
| Continue (page : Z) (projects : list Project).

(** The [except Exception] of the page loop: log and [break]. *)
Definition page_exception (page : Z) (projects : list Project) (e : exn)
    : M loop_ctl :=
  do! log ERROR (MsgErrorFetchPage page e) in
  ret (Break projects).

(** One round of the [while True] loop.  [projects.extend] has already run
    when [int(...)] meets a malformed header, so that [break] keeps the
    page's items. *)
Definition fetch_page (remote : Remote) (page : Z) (projects : list Project)
    : M loop_ctl :=
  try_except
    (let! response := session_get_projects remote page in
     if negb (page_status response =? 200) then
       do! log ERROR (MsgFailedFetchPage page (page_status response)) in
       ret (Break projects)
     else
       let! page_projects := or_raise ValueError (page_items response) in
       match page_projects with
       | [] => ret (Break projects)
       | _ :: _ =>
         let projects := (projects ++ page_projects)%list in
         match page_next response with
         | HeaderAbsent | HeaderEmpty => ret (Break projects)
         | HeaderInt n => ret (Continue n projects)
         | HeaderMalformed => page_exception page projects ValueError
         end
       end)
    (page_exception page projects).

(** The loop has no bound of its own: [None] is the loop still running when
    the fuel is spent. *)
Fixpoint get_all_projects_loop (remote : Remote) (fuel : nat) (page : Z)
    (projects : list Project) : M (option (list Project)) :=
  match fuel with
  | O => ret None
  | S fuel' =>
    let! ctl := fetch_page remote page projects in
    match ctl with
    | Break result => ret (Some result)
    | Continue page' projects' =>
        get_all_projects_loop remote fuel' page' projects'
    end
  end.

Definition get_all_projects (remote : Remote) (fuel : nat)
    : M (option (list Project)) :=
  get_all_projects_loop remote fuel 1 [].

(** ** The batch under the download semaphore *)

(** Where a job of the batch stands: before [async with semaphore], inside
    it (trigger, poll [attempt], download), or past it. *)
Inductive job_pc :=
| Waiting
| Entered
| Polling (attempt : nat)
| Downloading
| Finished (success : bool).

Record job := mkJob {
  pc : job_pc;
  acquires : nat;
  releases : nat
}.

(** [asyncio.Semaphore(max_concurrent_downloads)] and the jobs sharing it. *)
Record Pool := mkPool {
  sem_value : nat;
  jobs : list job
}.

Definition in_workflow (p : job_pc) : bool :=
  match p with
  | Entered | Polling _ | Downloading => true
  | Waiting | Finished _ => false
  end.

(** The slots a job holds: one while it is inside the block. *)
Definition slot_of (j : job) : nat :=
  if in_workflow (pc j) then 1%nat else 0%nat.

(** The number of jobs inside [async with semaphore]. *)
Definition holding (p : Pool) : nat := list_sum (map slot_of (jobs p)).

Definition Pool_init (limit n_projects : nat) : Pool :=
  mkPool limit (replicate n_projects (mkJob Waiting 0 0)).

(** What one job does next inside [export_project]; [true] marks the moves
    that leave the [async with] block and release the slot. *)
Inductive job_move : job_pc -> job_pc -> bool -> Prop :=
| move_already_exported : job_move Entered (Finished true) true
| move_trigger_failed : job_move Entered (Finished false) true
| move_trigger_ok : job_move Entered (Polling 0) false
| move_poll_again attempt :
    (attempt < max_attempts)%nat ->
    job_move (Polling attempt) (Polling (S attempt)) false
| move_poll_finished attempt :
    (attempt < max_attempts)%nat ->
    job_move (Polling attempt) Downloading false
| move_poll_failed attempt :
    (attempt < max_attempts)%nat ->
    job_move (Polling attempt) (Finished false) true
| move_timeout : job_move (Polling max_attempts) (Finished false) true
| move_downloaded success : job_move Downloading (Finished success) true.

Inductive pool_step : Pool -> Pool -> Prop :=
| step_acquire v js i j :
    js !! i = Some j ->
    pc j = Waiting ->
    pool_step (mkPool (S v) js)
              (mkPool v (<[i := mkJob Entered (S (acquires j)) (releases j)]> js))
| step_inside v js i j next :
    js !! i = Some j ->
    job_move (pc j) next false ->
    pool_step (mkPool v js)
              (mkPool v (<[i := mkJob next (acquires j) (releases j)]> js))
| step_release v js i j next :
    js !! i = Some j ->
    job_move (pc j) next true ->
    pool_step (mkPool v js)
              (mkPool (S v) (<[i := mkJob next (acquires j) (S (releases j))]> js)).

Inductive pool_reachable (limit n_projects : nat) : Pool -> Prop :=
| reach_init : pool_reachable limit n_projects (Pool_init limit n_projects)
| reach_step p p' :
    pool_reachable limit n_projects p ->
    pool_step p p' ->
    pool_reachable limit n_projects p'.

(** ** [TUIInterface.run_export] *)

(** The two locals of [run_export] that are assigned inside the loop;
    [None] is a local that has no value yet. *)
Record Locals := mkLocals {
  download_semaphore : option nat;
  api_semaphore : option nat
}.

(** One selected instance with what its run meets. *)
Record InstanceEnv := mkEnv {
  env_name : string;
  env_connects : bool;            (* [validate_connection()] *)
  env_remote : Remote;
  env_export_dir : string;
  env_files : gmap string (list Byte.byte);
  env_rng : nat -> Q
}.

Record RunState := mkRun {
  locals : Locals;
  connected : list string;
  page_fetches : nat;
  jobs_created : nat;
  reports : list (string * ExportStats * list string)
}.

Definition RunState_init : RunState :=
  mkRun (mkLocals None None) [] 0 0 [].

(** The body of [for instance in selected_instances].  [Return tt] is the
    end of one round (or a [continue]); the wiki, snippet and metadata passes
    between the batch and the report are left out. *)
Definition run_instance (fuel : nat) (max_concurrent_downloads
    max_concurrent_api_calls : nat) (env : InstanceEnv) (st : RunState)
    : option (outcome unit * RunState) :=
  if negb (env_connects env) then Some (Return tt, st)
  else
    let st := mkRun (locals st) (connected st ++ [env_name env])%list
                (page_fetches st) (jobs_created st) (reports st) in
    match api_semaphore (locals st) with
    | None => Some (Raise (UnboundLocalError "api_semaphore"), st)
    | Some _ =>
      let w0 := World_init (env_files env) (env_rng env) in
      match get_all_projects (env_remote env) fuel w0 with
      | (Raise e, _) => Some (Raise e, st)
      | (Return None, _) => None
      | (Return (Some projects), w1) =>
        let st := mkRun (locals st) (connected st)
                    (page_fetches st + length (requests w1))%nat
                    (jobs_created st) (reports st) in
        match projects with
        | [] => Some (Return tt, st)
        | _ :: _ =>
          let locals' := mkLocals (Some max_concurrent_downloads)
                                  (Some max_concurrent_api_calls) in
          let st := mkRun locals' (connected st) (page_fetches st)
                      (jobs_created st + length projects)%nat (reports st) in
          match export_batch (env_remote env) (env_export_dir env) projects w1 with
          | (Raise e, _) => Some (Raise e, st)
          | (Return _, w2) =>
            let report := (env_name env, stats w2,
                           map path_with_namespace (failed_projects w2)) in
            Some (Return tt,
                  mkRun (locals st) (connected st) (page_fetches st)
                    (jobs_created st) (reports st ++ [report])%list)
          end
        end
      end
    end.

Fixpoint run_instances (fuel : nat) (max_concurrent_downloads
    max_concurrent_api_calls : nat) (selected : list InstanceEnv)
    (st : RunState) : option (outcome unit * RunState) :=
  match selected with
  | [] => Some (Return tt, st)
  | env :: rest =>
    match run_instance fuel max_concurrent_downloads max_concurrent_api_calls
            env st with
    | Some (Return _, st') =>
        run_instances fuel max_concurrent_downloads max_concurrent_api_calls
          rest st'
    | other => other
    end
  end.

(** [run_export] from its loop on (line 668): every local starts without a
    value.  The lines before the loop are [run_export_settings]. *)
Definition run_export (fuel : nat) (max_concurrent_downloads
    max_concurrent_api_calls : nat) (selected : list InstanceEnv)
    : option (outcome unit * RunState) :=
  run_instances fuel max_concurrent_downloads max_concurrent_api_calls
    selected RunState_init.

(** * Vocabulary of the properties *)

(** [m] leaves the observation [obs] of the state as it found it. *)
Definition preserves {A B} (obs : World -> B) (m : M A) : Prop :=
  forall w, obs (snd (m w)) = obs w.

(** The counters and the list that failure accounting is about. *)
Definition counts (w : World) : Z * Z * list Project :=
  (projects_exported (stats w), projects_failed (stats w), failed_projects w).

(** The retry counter and the delays slept so far. *)
Definition backoff_trace (w : World) : Z * list Q :=
  (retries (stats w), sleeps w).

(** [self.stats.retries] *)
Definition retry_count (w : World) : Z := retries (stats w).

(** The delay the wrapper computes before retry [k]. *)
Definition backoff_delay (base : Q) (jitter : nat -> Q) (k : nat) : Q :=
  (base * inject_Z (2 ^ Z.of_nat k) + jitter k)%Q.

(** An operation that issues request [r] and is answered 429 every time. *)
Definition always_rate_limited (r : request) : M bool :=
  fun w => (Raise (ClientResponseError 429), record_request r w).

(** The remote answers a download request for the archive [full]: the whole
    archive with status 200 when no range is asked for, the bytes from
    [offset] on with status 206 when one is. *)
Definition serves (full : list Byte.byte) (range : option Z)
    (response : download_response) : Prop :=
  dl_stream_error response = None
  /\ is_Some (dl_content_length response)
  /\ match range with
     | None =>
         dl_status response = 200 /\ concat (dl_chunks response) = full
     | Some offset =>
         dl_status response = 206
         /\ concat (dl_chunks response) = drop (Z.to_nat offset) full
     end.

(** The state after the 5 second sleep and the status request of one poll. *)
Definition polled (project : Project) (w : World) : World :=
  record_request (GetExport (id project)) (set_sleeps (sleeps w ++ [5%Q]) w).

(** The state after the export trigger has been sent. *)
Definition posted (project : Project) (w : World) : World :=
  record_request (PostExport (id project)) w.

(** What the loop does on a poll answered 200 with [export_status = "finished"]. *)
Definition on_finished (remote : Remote) (project : Project)
    (export_file : string) : M (option bool) :=
  let! success := download_export remote (id project)
                    (path_with_namespace project) export_file in
  do! (if success : bool then bump_projects_exported
       else bump_projects_failed) in
  ret (Some success).

(** What the loop does on a poll answered 200 with [export_status = "failed"]. *)
Definition on_failed (project : Project) : M (option bool) :=
  let! r := record_failure project
              (MsgExportFailed (path_with_namespace project)) in
  ret (Some r).

(** The three ways a job changes [counts]: counted as exported; counted as
    failed and listed; counted as failed and not listed. *)
Inductive job_effect (project : Project)
    : Z * Z * list Project -> Z * Z * list Project -> bool -> Prop :=
| effect_exported e f l :
    job_effect project (e, f, l) (e + 1, f, l) true
| effect_failed_listed e f l :
    job_effect project (e, f, l) (e, f + 1, (l ++ [project])%list) false
| effect_failed_unlisted e f l :
    job_effect project (e, f, l) (e, f + 1, l) false.

(** What a finished run is allowed to look like. *)
Definition job_post (project : Project) (export_file : string)
    (w : World) (r : outcome bool) (w' : World) : Prop :=
  match r with
  | Return b =>
      job_effect project (counts w) (counts w') b
      /\ (b = true -> is_Some (fs w' !! export_file))
  | Raise _ => counts w' = counts w
  end.

(** The same for the poll loop, which may also run out ([None]). *)
Definition poll_post (project : Project) (export_file : string)
    (w : World) (r : outcome (option bool)) (w' : World) : Prop :=
  match r with
  | Return (Some b) => job_post project export_file w (Return b) w'
  | Return None | Raise _ => counts w' = counts w
  end.

(** The jobs of a batch that returned [True], and those that returned
    [False]. *)
Definition count_true (results : list bool) : Z :=
  Z.of_nat (length (List.filter (fun b : bool => b) results)).

Definition count_false (results : list bool) : Z :=
  Z.of_nat (length (List.filter negb results)).

(** What a page adds to the accumulator: its items when it is answered 200
    and its body can be read, nothing otherwise. *)
Definition page_yield (r : page_response) : list Project :=
  if page_status r =? 200 then default [] (page_items r) else [].

(** [page_chain remote history page pages]: asked for [page] after the
    requests [history], the remote answers with the pages [pages] in turn,
    each page but the last naming the next one, and the last one empty,
    without a next-page header, or refused with a status other than 200. *)
Inductive page_chain (remote : Remote)
    : list request -> Z -> list page_response -> Prop :=
| chain_last history page r items :
    get_projects remote history page = Return r ->
    page_status r = 200 ->
    page_items r = Some items ->
    items = [] \/ page_next r = HeaderAbsent \/ page_next r = HeaderEmpty ->
    page_chain remote history page [r]
| chain_refused history page r :
    get_projects remote history page = Return r ->
    page_status r <> 200 ->
    page_chain remote history page [r]
| chain_next history page r item items next rest :
    get_projects remote history page = Return r ->
    page_status r = 200 ->
    page_items r = Some (item :: items) ->
    page_next r = HeaderInt next ->
    page_chain remote (history ++ [GetProjects page])%list next rest ->
    page_chain remote history page (r :: rest).

(** Acquires and releases of a job against where it stands. *)
Definition job_ledger (j : job) : Prop :=
  match pc j with
  | Waiting => acquires j = 0%nat /\ releases j = 0%nat
  | Entered | Polling _ | Downloading =>
      acquires j = 1%nat /\ releases j = 0%nat
  | Finished _ => acquires j = 1%nat /\ releases j = 1%nat
  end.

(** What every reachable state of the batch satisfies. *)
Definition pool_inv (limit n_projects : nat) (p : Pool) : Prop :=
  length (jobs p) = n_projects
  /\ (sem_value p + holding p = limit)%nat
  /\ Forall job_ledger (jobs p).

(** ** Sample remotes and instances *)

Module Sample.
Definition archive : list Byte.byte :=
  [Byte.x1f; Byte.x8b; Byte.x08; Byte.x00; Byte.x2a].

Definition project : Project := mkProject 7 "grp/app".

Definition export_dir : string := "exports/main/20250101_000000".

Definition export_file : string :=
  "exports/main/20250101_000000/projects/grp_app.tar.gz".

Definition no_jitter : nat -> Q := fun _ => 0%Q.

(** A remote that starts the export, reports it finished at the first poll
    and serves the archive, honouring a range. *)
Definition healthy : Remote := mkRemote
  (fun _ _ => Return 202)
  (fun _ _ => Return (mkPoll 200 (Some "finished")))
  (fun _ _ range =>
     match range with
     | None => Return (mkDownload 200 (Some 5) [archive] None)
     | Some offset =>
         Return (mkDownload 206 (Some (5 - offset))
                   [drop (Z.to_nat offset) archive] None)
     end)
  (fun _ _ => Return (mkPage 200 (Some []) HeaderAbsent)).

(** As [healthy], but the download is refused with status 500. *)
Definition download_refused : Remote := mkRemote
  (post_export healthy)
  (get_export healthy)
  (fun _ _ _ => Return (mkDownload 500 (Some 0) [] None))
  (get_projects healthy).

(** The export trigger is answered 429. *)
Definition rate_limited : Remote := mkRemote
  (fun _ _ => Return 429)
  (get_export healthy)
  (get_download healthy)
  (get_projects healthy).

(** Every status poll is answered 503. *)
Definition unavailable : Remote := mkRemote
  (post_export healthy)
  (fun _ _ => Return (mkPoll 503 None))
  (get_download healthy)
  (get_projects healthy).

Definition library : Project := mkProject 8 "grp/lib".

Definition docs : Project := mkProject 9 "grp/docs".

Definition first_page : page_response :=
  mkPage 200 (Some [project; library]) (HeaderInt 2).

(** The last page: one item and no next-page header. *)
Definition second_page : page_response :=
  mkPage 200 (Some [docs]) HeaderAbsent.

Definition two_pages : Remote := mkRemote
  (post_export healthy)
  (get_export healthy)
  (get_download healthy)
  (fun _ page =>
     if page =? 1 then Return first_page
     else if page =? 2 then Return second_page
     else Return (mkPage 200 (Some []) HeaderAbsent)).

(** Listing and status poll are answered 429. *)
Definition throttled : Remote := mkRemote
  (post_export healthy)
  (fun _ _ => Return (mkPoll 429 None))
  (get_download healthy)
  (fun _ _ => Return (mkPage 429 None HeaderAbsent)).

(** An instance that connects and one that does not. *)
Definition online : InstanceEnv :=
  mkEnv "main" true two_pages export_dir ∅ no_jitter.

Definition offline : InstanceEnv :=
  mkEnv "mirror" false two_pages "exports/mirror/20250101_000000" ∅ no_jitter.

(** Two bytes of the archive are already on disk. *)
Definition partial_world : World :=
  World_init {[ export_file := take 2 archive ]} no_jitter.
End Sample.

(** * Further vocabulary *)

From Stdlib Require Import Lqa.

(** An operation that issues request [r] and is answered 429 as long as
    fewer than [until] requests have been sent, and returns [v] after that. *)
Definition limited_until {A} (until : nat) (r : request) (v : A) : M A :=
  fun w =>
    if (length (requests w) <? until)%nat
    then (Raise (ClientResponseError 429), record_request r w)
    else (Return v, record_request r w).

(** The seconds slept in all over a list of delays. *)
Definition total_delay (delays : list Q) : Q := fold_right Qplus 0%Q delays.

(** The jitter draws an operation started in [w] will see. *)
Definition jitter_of (w : World) : nat -> Q :=
  fun k => rng w (rng_pos w + k)%nat.

(** The statuses [download_export] takes as a success: 200 and 206. *)
Definition status_accepted (response : download_response) : bool :=
  (dl_status response =? 200) || (dl_status response =? 206).


(** The [Range] offset [download_export] will ask for in state [w]. *)
Definition range_of (file : string) (w : World) : option Z :=
  fst (fst (resume_plan (fs w !! file))).




(** The projects of a batch whose job returned [False], in batch order. *)
Fixpoint failed_of (projects : list Project) (results : list bool)
    : list Project :=
  match projects, results with
  | project :: projects', result :: results' =>
      if result then failed_of projects' results'
      else project :: failed_of projects' results'
  | _, _ => []
  end.


Module Cases.
(** A remote whose first download breaks off after two bytes and which
    serves the rest of the archive when asked for a range. *)
Definition breaks_once : Remote := mkRemote
  (post_export Sample.healthy)
  (get_export Sample.healthy)
  (fun _ _ range =>
     match range with
     | None =>
         Return (mkDownload 200 (Some 5) [take 2 Sample.archive]
                   (Some ClientConnectionError))
     | Some offset =>
         Return (mkDownload 206 (Some (5 - offset))
                   [drop (Z.to_nat offset) Sample.archive] None)
     end)
  (get_projects Sample.healthy).


End Cases.


(** The answers to a page request that end in the [except] branch of the
    page loop, each with the exception logged and the items of that page that
    are already in the accumulator: a request that raises, a body that cannot
    be read, and a next-page header that is no integer (met after
    [projects.extend]). *)
Definition page_breaks (answer : outcome page_response)
    : option (exn * list Project) :=
  match answer with
  | Raise e => Some (e, [])
  | Return r =>
      if page_status r =? 200 then
        match page_items r, page_next r with
        | None, _ => Some (ValueError, [])
        | Some (item :: items), HeaderMalformed =>
            Some (ValueError, item :: items)
        | _, _ => None
        end
      else None
  end.

Module Listing.
(** A remote whose every page has one project and names page 1 as the next
    one. *)
Definition circular : Remote := mkRemote
  (post_export Sample.healthy)
  (get_export Sample.healthy)
  (get_download Sample.healthy)
  (fun _ _ => Return (mkPage 200 (Some [Sample.project]) (HeaderInt 1))).

(** A remote whose first page has two projects and a next-page header that
    is no number. *)
Definition garbled : Remote := mkRemote
  (post_export Sample.healthy)
  (get_export Sample.healthy)
  (get_download Sample.healthy)
  (fun _ _ =>
     Return (mkPage 200 (Some [Sample.project; Sample.library])
               HeaderMalformed)).
End Listing.

(** * [GitLabAsyncExporter.validate_connection] *)

(** The [GitLabInstance] dataclass. *)
Record GitLabInstance := mkInstance {
  name : string;
  url : string;
  token : string;
  version : string;
  role : string;
  username : string;
  email : string;
  projects_count : Z;
  groups_count : Z;
  users_count : Z
}.

(** The answer to [GET /api/v4/user]: its status and, of its JSON body,
    [(get('username', ''), get('email', ''))]; [None] when reading the body
    raises. *)
Record user_answer := mkUser {
  user_status : Z;
  user_data : option (string * string)
}.

(** The answer to [GET /api/v4/version]: its status and [get('version', '')]
    of its JSON body; [None] when reading the body raises. *)
Record version_answer := mkVersion {
  version_status : Z;
  version_data : option string
}.

Record ApiRemote := mkApi {
  get_user : outcome user_answer;
  get_version : outcome version_answer
}.

Inductive api_request := GetUser | GetVersion.

Inductive connect_message :=
| MsgConnected (instance_name user : string)
| MsgAuthFailed (status : Z)
| MsgConnectionFailed (e : exn).

(** What a connection check leaves behind: its result, the instance as
    mutated, the one line it logs and the requests it sent. *)
Record Validation := mkValidation {
  valid : bool;
  instance_after : GitLabInstance;
  logged : level * connect_message;
  sent : list api_request
}.

Definition set_user (user mail : string) (i : GitLabInstance) : GitLabInstance :=
  mkInstance (name i) (url i) (token i) (version i) (role i) user mail
    (projects_count i) (groups_count i) (users_count i).

Definition set_version (v : string) (i : GitLabInstance) : GitLabInstance :=
  mkInstance (name i) (url i) (token i) v (role i) (username i) (email i)
    (projects_count i) (groups_count i) (users_count i).

(** [validate_connection], with the line it logs taken to be printed and
    appended to the log file without an exception. *)
Definition validate_connection (remote : ApiRemote) (instance : GitLabInstance)
    : Validation :=
  match get_user remote with
  | Raise e =>
      mkValidation false instance (ERROR, MsgConnectionFailed e) [GetUser]
  | Return response =>
    if user_status response =? 200 then
      match user_data response with
      | None =>
          mkValidation false instance (ERROR, MsgConnectionFailed ValueError)
            [GetUser]
      | Some (user, mail) =>
        let instance := set_user user mail instance in
        match get_version remote with
        | Raise e =>
            mkValidation false instance (ERROR, MsgConnectionFailed e)
              [GetUser; GetVersion]
        | Return ver_response =>
          if version_status ver_response =? 200 then
            match version_data ver_response with
            | None =>
                mkValidation false instance
                  (ERROR, MsgConnectionFailed ValueError) [GetUser; GetVersion]
            | Some v =>
                mkValidation true (set_version v instance)
                  (SUCCESS, MsgConnected (name instance) user)
                  [GetUser; GetVersion]
            end
          else
            mkValidation true instance
              (SUCCESS, MsgConnected (name instance) user)
              [GetUser; GetVersion]
        end
      end
    else
      mkValidation false instance
        (ERROR, MsgAuthFailed (user_status response)) [GetUser]
  end.

(** The user answer lets the check go on: status 200 and a readable body. *)
Definition user_accepted (remote : ApiRemote) : Prop :=
  exists response data,
    get_user remote = Return response
    /\ user_status response = 200
    /\ user_data response = Some data.

(** The version answer does not fail the check: the request returns, and its
    body can be read when its status is 200. *)
Definition version_harmless (remote : ApiRemote) : Prop :=
  exists response,
    get_version remote = Return response
    /\ (version_status response = 200 -> is_Some (version_data response)).

(** * [TUIInterface.select_instances] and [main] *)

(** [select_instances]: one [Confirm.ask] per loaded instance, in order;
    [picks i] is the answer for the [i]-th instance, counted from 1. *)
Fixpoint select_from (i : nat) (instances : list InstanceEnv)
    (picks : nat -> bool) : list InstanceEnv :=
  match instances with
  | [] => []
  | instance :: rest =>
      if picks i then instance :: select_from (S i) rest picks
      else select_from (S i) rest picks
  end.

Definition select_instances (instances : list InstanceEnv)
    (picks : nat -> bool) : list InstanceEnv :=
  select_from 1 instances picks.

(** What [run_export] can raise: before its loop, the reading of
    [config.json], the [int()] of a prompt answer and the writing of
    [config.json]; in the loop, what the export raises. *)
Inductive run_exn :=
| ConfigUnreadable
| NotAnInteger
| ConfigUnwritable
| ExportError (e : exn).

(** What the lines of [run_export] before the loop meet (lines 638-657):
    whether [config.json] is absent or can be read, the two prompt answers
    as [int()] takes them ([None]: not a number, [int()] raises), and
    whether [config.json] can be written. *)
Record Settings := mkSettings {
  config_readable : bool;
  downloads_answer : option Z;
  api_calls_answer : option Z;
  config_writable : bool
}.

(** The lines of [run_export] before the loop, in their order: read the
    configuration, ask and convert the first number, ask and convert the
    second, write the configuration. *)
Definition run_export_settings (s : Settings) : run_exn + (Z * Z) :=
  if negb (config_readable s) then inl ConfigUnreadable
  else
    match downloads_answer s with
    | None => inl NotAnInteger
    | Some downloads =>
        match api_calls_answer s with
        | None => inl NotAnInteger
        | Some api_calls =>
            if config_writable s then inr (downloads, api_calls)
            else inl ConfigUnwritable
        end
    end.

(** What [main] prints. *)
Inductive console_line :=
| PrintBanner
| PrintEditConfig
| PrintFound (n : nat)
| PrintNoneSelected
| PrintReady (n : nat)
| PrintCancelled
| PrintCompleted
| PrintFailed (e : run_exn).

(** What the user and the configuration give [main]: the instances
    [load_instances] finds, and the answers to its questions.  A session
    starts where [load_instances] has returned: [main] calls it outside its
    [try], so an exception of the loading is the end of [main]. *)
Record Session := mkSession {
  instances : list InstanceEnv;
  create_config : bool;
  picks : nat -> bool;
  proceed : bool;
  settings : Settings
}.

(** A run of [main]: the lines it hands to [console.print], in order,
    whether it called the converter, and the state [run_export] has left. *)
Record MainRun := mkMainRun {
  console : list console_line;
  converter_called : bool;
  export_state : option RunState
}.

(** [main].  [load_instances] returns [len(self.instances) > 0]; the call of
    [run_export] is its lines before the loop and then the loop, inside the
    [try] of [main]; the two numbers reach a semaphore only where the loop
    makes one.  [None] is [run_export] still running when its fuel is
    spent. *)
Definition main (fuel : nat) (s : Session) : option MainRun :=
  match instances s with
  | [] =>
      if create_config s
      then Some (mkMainRun [PrintBanner; PrintEditConfig] true None)
      else Some (mkMainRun [PrintBanner] false None)
  | _ :: _ =>
    let found := PrintFound (length (instances s)) in
    match select_instances (instances s) (picks s) with
    | [] => Some (mkMainRun [PrintBanner; found; PrintNoneSelected] false None)
    | (_ :: _) as selected =>
      let ready := PrintReady (length selected) in
      if negb (proceed s) then
        Some (mkMainRun [PrintBanner; found; ready; PrintCancelled] false None)
      else
        match run_export_settings (settings s) with
        | inl e =>
            Some (mkMainRun [PrintBanner; found; ready; PrintFailed e] false
                    None)
        | inr (downloads, api_calls) =>
          match run_export fuel (Z.to_nat downloads) (Z.to_nat api_calls)
                  selected with
          | None => None
          | Some (Return _, st) =>
              Some (mkMainRun [PrintBanner; found; ready; PrintCompleted]
                      false (Some st))
          | Some (Raise e, st) =>
              Some (mkMainRun
                      [PrintBanner; found; ready; PrintFailed (ExportError e)]
                      false (Some st))
          end
        end
    end
  end.

(** The lines before the loop go through. *)
Definition settings_accepted (s : Settings) : Prop :=
  exists downloads api_calls,
    run_export_settings s = inr (downloads, api_calls).

(** * The passes after the batch: wikis, snippets, metadata *)

(** [export_wikis], [export_snippets] and [export_metadata] run one after the
    other once the batch is over.  They read more of a project than the batch
    does, write text files instead of archives and use the API semaphore, so
    they get a state of their own. *)

(** A project with the switches the passes read; [project.get(key, False)]
    makes a missing switch [false]. *)
Record ProjectInfo := mkProjectInfo {
  project_record : Project;
  wiki_enabled : bool;
  issues_enabled : bool;
  merge_requests_enabled : bool
}.

(** A wiki page and a snippet as the remote lists them: the fields the passes
    read, and the rest of the JSON object as it came. *)
Record WikiPage := mkWikiPage {
  slug : string;
  wiki_rest : string
}.

Record Snippet := mkSnippet {
  snippet_id : Z;
  file_name : string;
  snippet_rest : string
}.

(** The name of a file inside its directory.  [Numbered n rest] is
    [f"{n}_{rest}"]: the decimal digits of [n] hold no underscore, so two such
    names are the same string exactly when number and rest agree. *)
Inductive entry_name :=
| Plain (s : string)
| Numbered (n : Z) (rest : string).

#[global] Instance entry_name_eq_dec : EqDecision entry_name.
Proof. solve_decision. Defined.

(** What a pass writes into a file: [json.dump] of a value, or text.  Issues
    and merge requests are JSON objects the code never looks into. *)
Inductive document :=
| JsonWikiPages (pages : list WikiPage)
| JsonSnippet (s : Snippet)
| JsonItems (items : list string)
| Text (s : string).

Inductive pass_request :=
| GetWikis (project_id : Z)
| GetWikiPage (project_id : Z) (page_slug : string)
| GetSnippets (project_id : Z)
| GetSnippetRaw (project_id : Z) (snippet : Z)
| GetIssues (project_id : Z) (page : Z)
| GetMergeRequests (project_id : Z) (page : Z).

(** What a pass does that others can see, in order: entering and leaving
    [async with semaphore], and the requests it sends. *)
Inductive pass_event :=
| Acquire
| Release
| Sent (r : pass_request).

(** What can end up in an [except Exception] of a pass: an exception of the
    session or of reading a body, or [open] or [mkdir] failing. *)
Inductive pass_exn :=
| SessionError (e : exn)
| OSError (dir : string).

Inductive pass_message :=
| MsgWikiError (project_path : string) (e : pass_exn)
| MsgWikisExported (n : Z)
| MsgSnippetError (project_path : string) (e : pass_exn)
| MsgSnippetsExported (n : Z)
| MsgMetadataError (project_path : string) (e : pass_exn).

(** An answer of the remote: its status, and its body if it can be read
    ([None]: [response.json()] or [response.text()] raises). *)
Record Answer (A : Type) := mkAnswer {
  answer_status : Z;
  answer_body : option A
}.
Arguments mkAnswer {A} answer_status answer_body.
Arguments answer_status {A} a.
Arguments answer_body {A} a.

(** The surroundings of the passes: the remote, whose answers may depend on
    what happened so far, and the file system, which takes a file or a
    directory or does not. *)
Record PassEnv := mkPassEnv {
  wikis_of : list pass_event -> Z -> outcome (Answer (list WikiPage));
  wiki_page_of : list pass_event -> Z -> string -> outcome (Answer string);
  snippets_of : list pass_event -> Z -> outcome (Answer (list Snippet));
  snippet_raw_of : list pass_event -> Z -> Z -> outcome (Answer string);
  issues_of : list pass_event -> Z -> Z -> outcome (Answer (list string));
  merge_requests_of :
    list pass_event -> Z -> Z -> outcome (Answer (list string));
  writable : string -> entry_name -> bool;
  mkdir_ok : string -> bool
}.

(** The state the passes work on.  [local_count] is the local counter of the
    running pass ([wiki_count], [snippet_count]); [written] lists the writes,
    oldest first, each one replacing the file it names. *)
Record PassWorld := mkPassWorld {
  pass_stats : ExportStats;
  local_count : Z;
  written : list (string * entry_name * document);
  pass_log : list (level * pass_message);
  events : list pass_event
}.

Definition PassWorld_init : PassWorld := mkPassWorld ExportStats_init 0 [] [] [].

Inductive pass_result (A : Type) :=
| Done (a : A)
| Threw (e : pass_exn).
Arguments Done {A} a.
Arguments Threw {A} e.

Definition P (A : Type) : Type := PassWorld -> pass_result A * PassWorld.

Definition pret {A} (a : A) : P A := fun w => (Done a, w).

Definition pthrow {A} (e : pass_exn) : P A := fun w => (Threw e, w).

Definition pbind {A B} (m : P A) (k : A -> P B) : P B :=
  fun w =>
    match m w with
    | (Done a, w') => k a w'
    | (Threw e, w') => (Threw e, w')
    end.

Definition pcatch {A} (body : P A) (handler : pass_exn -> P A) : P A :=
  fun w =>
    match body w with
    | (Done a, w') => (Done a, w')
    | (Threw e, w') => handler e w'
    end.

Declare Scope pass_scope.
Delimit Scope pass_scope with pass.
Notation "'let?' x ':=' m 'in' k" := (pbind m (fun x => k))
  (at level 10, x name, m at level 100, k at level 200) : pass_scope.
Notation "'do?' m 'in' k" := (pbind m (fun _ => k))
  (at level 10, m at level 100, k at level 200) : pass_scope.
#[local] Open Scope pass_scope.

Definition emit (ev : pass_event) (w : PassWorld) : PassWorld :=
  mkPassWorld (pass_stats w) (local_count w) (written w) (pass_log w)
    (events w ++ [ev]).

(** [self.log] in a pass: the line is recorded; its printing and the
    appending to the log file are taken to go through. *)
Definition pass_log_line (lv : level) (msg : pass_message) : P unit :=
  fun w =>
    (Done tt,
     mkPassWorld (pass_stats w) (local_count w) (written w)
       (pass_log w ++ [(lv, msg)]) (events w)).

Definition set_local_count (n : Z) : P unit :=
  fun w =>
    (Done tt,
     mkPassWorld (pass_stats w) n (written w) (pass_log w) (events w)).

(** [wiki_count += 1; self.stats.wikis_exported += 1] *)
Definition count_wiki : P unit :=
  fun w =>
    let s := pass_stats w in
    (Done tt,
     mkPassWorld
       (mkStats (projects_exported s) (projects_failed s) (groups_exported s)
          (groups_failed s) (wikis_exported s + 1) (snippets_exported s)
          (total_size s) (retries s))
       (local_count w + 1) (written w) (pass_log w) (events w)).

(** [snippet_count += 1; self.stats.snippets_exported += 1] *)
Definition count_snippet : P unit :=
  fun w =>
    let s := pass_stats w in
    (Done tt,
     mkPassWorld
       (mkStats (projects_exported s) (projects_failed s) (groups_exported s)
          (groups_failed s) (wikis_exported s) (snippets_exported s + 1)
          (total_size s) (retries s))
       (local_count w + 1) (written w) (pass_log w) (events w)).

(** [async with self.session.get(...) as response]: the request is sent and
    the remote answers or the call raises. *)
Definition send {A} (r : pass_request)
    (answer_of : list pass_event -> outcome A) : P A :=
  fun w =>
    match answer_of (events w) with
    | Return a => (Done a, emit (Sent r) w)
    | Raise e => (Threw (SessionError e), emit (Sent r) w)
    end.

(** [await response.json()], [await response.text()] *)
Definition read_body {A} (a : Answer A) : P A :=
  match answer_body a with
  | Some body => pret body
  | None => pthrow (SessionError ValueError)
  end.

(** [async with semaphore: body].  The passes run one after the other and
    after the batch, so a semaphore of at least one slot is free when a pass
    asks for it; the slot is given back however the body ends. *)
Definition with_semaphore {A} (body : P A) : P A :=
  fun w =>
    let '(r, w') := body (emit Acquire w) in
    (r, emit Release w').

(** [path.mkdir(parents=True, exist_ok=True)] *)
Definition mkdir (env : PassEnv) (dir : string) : P unit :=
  if mkdir_ok env dir then pret tt else pthrow (OSError dir).

(** [with open(dir / name, 'w') as f: f.write(...)] or [json.dump(..., f)] *)
Definition write_file (env : PassEnv) (dir : string) (name : entry_name)
    (doc : document) : P unit :=
  fun w =>
    if writable env dir name
    then (Done tt,
          mkPassWorld (pass_stats w) (local_count w)
            (written w ++ [(dir, name, doc)]) (pass_log w) (events w))
    else (Threw (OSError dir), w).

(** [self.export_dir / kind / project['path_with_namespace'].replace('/', '_')] *)
Definition pass_dir (export_dir kind project_path : string) : string :=
  export_dir +:+ "/" +:+ kind +:+ "/" +:+ replace_char "/" "_" project_path.

(** ** [GitLabAsyncExporter.export_wikis] *)

(** [for page in wiki_pages]: a page answered with another status than 200 is
    passed over. *)
Fixpoint wiki_pages_loop (env : PassEnv) (project_id : Z) (wiki_path : string)
    (wiki_pages : list WikiPage) : P unit :=
  match wiki_pages with
  | [] => pret tt
  | page :: rest =>
      let? page_response :=
        send (GetWikiPage project_id (slug page))
          (fun history => wiki_page_of env history project_id (slug page)) in
      do? (if answer_status page_response =? 200 then
             let? content := read_body page_response in
             write_file env wiki_path (Plain (slug page +:+ ".md"))
               (Text content)
           else pret tt) in
      wiki_pages_loop env project_id wiki_path rest
  end.

(** What [export_wikis] does for one project inside [async with semaphore]:
    the listing, the index file, the pages and, at the very end, the two
    counters.  [continue] ends it. *)
Definition wiki_listing (env : PassEnv) (project_id : Z) (wiki_path : string)
    : P unit :=
  let? response :=
    send (GetWikis project_id)
      (fun history => wikis_of env history project_id) in
  if negb (answer_status response =? 200) then pret tt
  else
    let? wiki_pages := read_body response in
    match wiki_pages with
    | [] => pret tt
    | _ :: _ =>
        do? write_file env wiki_path (Plain "wiki_index.json")
              (JsonWikiPages wiki_pages) in
        do? wiki_pages_loop env project_id wiki_path wiki_pages in
        count_wiki
    end.

(** The body of the loop of [export_wikis] for a project whose wiki is
    enabled: the [try] with its handler. *)
Definition export_wiki (env : PassEnv) (export_dir : string)
    (project : ProjectInfo) : P unit :=
  let project_id := id (project_record project) in
  let project_path := path_with_namespace (project_record project) in
  let wiki_path := pass_dir export_dir "wikis" project_path in
  pcatch
    (do? mkdir env wiki_path in
     with_semaphore (wiki_listing env project_id wiki_path))
    (fun e => pass_log_line ERROR (MsgWikiError project_path e)).

Fixpoint export_wikis_loop (env : PassEnv) (export_dir : string)
    (projects : list ProjectInfo) : P unit :=
  match projects with
  | [] => pret tt
  | project :: rest =>
      do? (if wiki_enabled project then export_wiki env export_dir project
           else pret tt) in
      export_wikis_loop env export_dir rest
  end.

Definition export_wikis (env : PassEnv) (export_dir : string)
    (projects : list ProjectInfo) : P unit :=
  do? set_local_count 0 in
  do? export_wikis_loop env export_dir projects in
  fun w => pass_log_line SUCCESS (MsgWikisExported (local_count w)) w.

(** ** [GitLabAsyncExporter.export_snippets] *)

(** [for snippet in snippets]: content file, metadata file, then the two
    counters, for every snippet whose content is answered 200. *)
Fixpoint snippets_loop (env : PassEnv) (project_id : Z) (snippet_path : string)
    (snippets : list Snippet) : P unit :=
  match snippets with
  | [] => pret tt
  | snippet :: rest =>
      let? content_response :=
        send (GetSnippetRaw project_id (snippet_id snippet))
          (fun history =>
             snippet_raw_of env history project_id (snippet_id snippet)) in
      do? (if answer_status content_response =? 200 then
             let? content := read_body content_response in
             do? write_file env snippet_path
                   (Numbered (snippet_id snippet) (file_name snippet))
                   (Text content) in
             do? write_file env snippet_path
                   (Numbered (snippet_id snippet) "metadata.json")
                   (JsonSnippet snippet) in
             count_snippet
           else pret tt) in
      snippets_loop env project_id snippet_path rest
  end.

(** What [export_snippets] does for one project inside
    [async with semaphore]: the listing, the directory once snippets are
    known, and the snippets. *)
Definition snippets_listing (env : PassEnv) (project_id : Z)
    (snippet_path : string) : P unit :=
  let? response :=
    send (GetSnippets project_id)
      (fun history => snippets_of env history project_id) in
  if negb (answer_status response =? 200) then pret tt
  else
    let? snippets := read_body response in
    match snippets with
    | [] => pret tt
    | _ :: _ =>
        do? mkdir env snippet_path in
        snippets_loop env project_id snippet_path snippets
    end.

(** The body of the loop of [export_snippets]: the [try] with its handler. *)
Definition export_project_snippets (env : PassEnv) (export_dir : string)
    (project : ProjectInfo) : P unit :=
  let project_id := id (project_record project) in
  let project_path := path_with_namespace (project_record project) in
  let snippet_path := pass_dir export_dir "snippets" project_path in
  pcatch
    (with_semaphore (snippets_listing env project_id snippet_path))
    (fun e => pass_log_line ERROR (MsgSnippetError project_path e)).

Fixpoint export_snippets_loop (env : PassEnv) (export_dir : string)
    (projects : list ProjectInfo) : P unit :=
  match projects with
  | [] => pret tt
  | project :: rest =>
      do? export_project_snippets env export_dir project in
      export_snippets_loop env export_dir rest
  end.

Definition export_snippets (env : PassEnv) (export_dir : string)
    (projects : list ProjectInfo) : P unit :=
  do? set_local_count 0 in
  do? export_snippets_loop env export_dir projects in
  fun w => pass_log_line SUCCESS (MsgSnippetsExported (local_count w)) w.

(** ** [GitLabAsyncExporter.export_metadata] *)

(** One round of a [while True] over pages: [break], or the items to add
    before [page += 1]. *)
Inductive paging :=
| StopPaging
| NextPage (items : list string).

Definition read_page (response : Answer (list string)) : P paging :=
  if negb (answer_status response =? 200) then pret StopPaging
  else
    let? items := read_body response in
    match items with
    | [] => pret StopPaging
    | _ :: _ => pret (NextPage items)
    end.

(** A round of the issues loop: request and reading inside the semaphore. *)
Definition issues_page (env : PassEnv) (project_id page : Z) : P paging :=
  with_semaphore
    (let? response :=
       send (GetIssues project_id page)
         (fun history => issues_of env history project_id page) in
     read_page response).

(** A round of the merge request loop: the same without the semaphore. *)
Definition merge_requests_page (env : PassEnv) (project_id page : Z)
    : P paging :=
  let? response :=
    send (GetMergeRequests project_id page)
      (fun history => merge_requests_of env history project_id page) in
  read_page response.

(** [while True] over the pages of one kind, from [page] on with [items]
    gathered; [None] is a loop still running when [fuel] rounds are spent. *)
Fixpoint paging_loop (round : Z -> P paging) (fuel : nat) (page : Z)
    (items : list string) : P (option (list string)) :=
  match fuel with
  | O => pret None
  | S fuel' =>
      let? step := round page in
      match step with
      | StopPaging => pret (Some items)
      | NextPage page_items =>
          paging_loop round fuel' (page + 1) (items ++ page_items)%list
      end
  end.

(** [if items: with open(dir / name, 'w') as f: json.dump(items, f)] *)
Definition dump_items (env : PassEnv) (dir name : string)
    (items : list string) : P unit :=
  match items with
  | [] => pret tt
  | _ :: _ => write_file env dir (Plain name) (JsonItems items)
  end.

(** The issues or the merge requests of one project: all pages, then the
    file.  [false] is a paging loop that is still running. *)
Definition export_items (env : PassEnv) (round : Z -> P paging) (fuel : nat)
    (dir name : string) : P bool :=
  let? gathered := paging_loop round fuel 1 [] in
  match gathered with
  | None => pret false
  | Some items => do? dump_items env dir name items in pret true
  end.

(** The body of the loop of [export_metadata] for one project. *)
Definition export_project_metadata (env : PassEnv) (fuel : nat)
    (metadata_dir : string) (project : ProjectInfo) : P bool :=
  let project_id := id (project_record project) in
  let project_path := path_with_namespace (project_record project) in
  let project_meta_dir :=
    metadata_dir +:+ "/" +:+ replace_char "/" "_" project_path in
  pcatch
    (do? mkdir env project_meta_dir in
     let? issues_done :=
       (if issues_enabled project then
          export_items env (issues_page env project_id) fuel
            project_meta_dir "issues.json"
        else pret true) in
     if issues_done then
       if merge_requests_enabled project then
         export_items env (merge_requests_page env project_id) fuel
           project_meta_dir "merge_requests.json"
       else pret true
     else pret false)
    (fun e =>
       do? pass_log_line ERROR (MsgMetadataError project_path e) in
       pret true).

Fixpoint export_metadata_loop (env : PassEnv) (fuel : nat)
    (metadata_dir : string) (projects : list ProjectInfo) : P bool :=
  match projects with
  | [] => pret true
  | project :: rest =>
      let? finished := export_project_metadata env fuel metadata_dir project in
      if finished then export_metadata_loop env fuel metadata_dir rest
      else pret false
  end.

(** [export_metadata]: [metadata_dir.mkdir(exist_ok=True)] stands before the
    loop and outside every [try].  [Done false] is a pass still running when
    a paging loop has spent its fuel. *)
Definition export_metadata (env : PassEnv) (fuel : nat) (export_dir : string)
    (projects : list ProjectInfo) : P bool :=
  let metadata_dir := export_dir +:+ "/metadata" in
  do? mkdir env metadata_dir in
  export_metadata_loop env fuel metadata_dir projects.

(** ** Vocabulary of the passes *)

(** The content of a file after the writes of a log: the last write that
    names it. *)
Fixpoint file_content (log : list (string * entry_name * document))
    (dir : string) (name : entry_name) : option document :=
  match log with
  | [] => None
  | (d, n, doc) :: rest =>
      match file_content rest dir name with
      | Some later => Some later
      | None => if decide ((d, n) = (dir, name)) then Some doc else None
      end
  end.

(** How many [async with semaphore] blocks are open after a run of events. *)
Fixpoint open_slots (depth : Z) (evs : list pass_event) : Z :=
  match evs with
  | [] => depth
  | Acquire :: rest => open_slots (depth + 1) rest
  | Release :: rest => open_slots (depth - 1) rest
  | Sent _ :: rest => open_slots depth rest
  end.

(** The requests of a run of events, each with the number of semaphore
    blocks open when it is sent, starting from [depth]. *)
Fixpoint guarded (depth : Z) (evs : list pass_event)
    : list (pass_request * Z) :=
  match evs with
  | [] => []
  | Acquire :: rest => guarded (depth + 1) rest
  | Release :: rest => guarded (depth - 1) rest
  | Sent r :: rest => (r, depth) :: guarded depth rest
  end.

Definition is_issue_request (r : pass_request) : bool :=
  match r with GetIssues _ _ => true | _ => false end.

Definition is_merge_request (r : pass_request) : bool :=
  match r with GetMergeRequests _ _ => true | _ => false end.

(** The counters a pass has nothing to do with. *)
Definition batch_counters (s : ExportStats) : Z * Z * Z * Z * Z * Z :=
  (projects_exported s, projects_failed s, groups_exported s,
   groups_failed s, total_size s, retries s).

(** The projects whose wiki is asked for. *)
Definition with_wiki (projects : list ProjectInfo) : list ProjectInfo :=
  filter (fun p => wiki_enabled p = true) projects.

(** One [async with semaphore] block with the requests sent inside it. *)
Definition semaphore_block (rs : list pass_request) : list pass_event :=
  (Acquire :: map Sent rs ++ [Release])%list.

(** What a stretch of a pass from [w] to [w'] has done: so many wikis and
    snippets counted, in the statistics and in the local counter alike, these
    lines logged, these events added and these files written, the other
    counters untouched. *)
Definition pass_effect (w w' : PassWorld) (wikis snippets : Z)
    (lines : list (level * pass_message)) (evs : list pass_event)
    (files : list (string * entry_name * document)) : Prop :=
  wikis_exported (pass_stats w') = wikis_exported (pass_stats w) + wikis
  /\ snippets_exported (pass_stats w')
     = snippets_exported (pass_stats w) + snippets
  /\ batch_counters (pass_stats w') = batch_counters (pass_stats w)
  /\ local_count w' = local_count w + wikis + snippets
  /\ pass_log w' = (pass_log w ++ lines)%list
  /\ events w' = (events w ++ evs)%list
  /\ written w' = (written w ++ files)%list.

(** The request of a wiki page, and the file the page goes to. *)
Definition page_request (project_id : Z) (page : WikiPage) : pass_request :=
  GetWikiPage project_id (slug page).

Definition page_file (page : WikiPage) : entry_name :=
  Plain (slug page +:+ ".md").

(** A page that cannot stop the page loop: its request is answered, and an
    answer with status 200 can be read and written. *)
Definition page_harmless (env : PassEnv) (project_id : Z) (dir : string)
    (page : WikiPage) : Prop :=
  forall history,
    exists a,
      wiki_page_of env history project_id (slug page) = Return a
      /\ (answer_status a = 200 ->
          is_Some (answer_body a) /\ writable env dir (page_file page) = true).

(** A page that is refused: answered with another status than 200. *)
Definition page_refused (env : PassEnv) (project_id : Z) (page : WikiPage)
    : Prop :=
  forall history,
    exists a,
      wiki_page_of env history project_id (slug page) = Return a
      /\ answer_status a <> 200.

(** A page that stops the page loop with exception [e]: the request raises,
    or its answer has status 200 and cannot be read or cannot be written. *)
Definition page_fails (env : PassEnv) (project_id : Z) (dir : string)
    (page : WikiPage) (e : pass_exn) : Prop :=
  forall history,
    match wiki_page_of env history project_id (slug page) with
    | Raise x => e = SessionError x
    | Return a =>
        answer_status a = 200
        /\ match answer_body a with
           | None => e = SessionError ValueError
           | Some _ => writable env dir (page_file page) = false
                       /\ e = OSError dir
           end
    end.

(** ** Sample surroundings of the passes *)

Module Passes.
(** A project with every switch on. *)
Definition handbook : ProjectInfo :=
  mkProjectInfo Sample.project true true true.

Definition home : WikiPage := mkWikiPage "home" "{}".

(** A page in a directory of the wiki; its slug holds a slash. *)
Definition setup : WikiPage := mkWikiPage "docs/setup" "{}".

Definition faq : WikiPage := mkWikiPage "faq" "{}".

Definition has_slash (s : string) : bool :=
  existsb (Ascii.eqb "/") (list_ascii_of_string s).

(** A file system that opens a file only in a directory that exists: the
    passes make the directory of the project and none below it. *)
Definition flat_only (dir : string) (name : entry_name) : bool :=
  match name with
  | Plain s => negb (has_slash s)
  | Numbered _ rest => negb (has_slash rest)
  end.

Definition not_found {A} : outcome (Answer A) := Return (mkAnswer 404 None).

(** The wiki is listed with three pages and every page is answered 404. *)
Definition pages_refused : PassEnv := mkPassEnv
  (fun _ _ => Return (mkAnswer 200 (Some [home; setup; faq])))
  (fun _ _ _ => not_found)
  (fun _ _ => not_found)
  (fun _ _ _ => not_found)
  (fun _ _ _ => not_found)
  (fun _ _ _ => not_found)
  flat_only
  (fun _ => true).

(** The wiki is listed with three pages and every page is served. *)
Definition wiki_served : PassEnv := mkPassEnv
  (fun _ _ => Return (mkAnswer 200 (Some [home; setup; faq])))
  (fun _ _ page_slug => Return (mkAnswer 200 (Some ("# " +:+ page_slug))))
  (fun _ _ => not_found)
  (fun _ _ _ => not_found)
  (fun _ _ _ => not_found)
  (fun _ _ _ => not_found)
  flat_only
  (fun _ => true).

Definition notes : Snippet := mkSnippet 1 "notes.txt" "{}".

(** A snippet whose file has the name the pass gives to its metadata. *)
Definition shadowed : Snippet := mkSnippet 2 "metadata.json" "{}".

Definition lost : Snippet := mkSnippet 3 "late.txt" "{}".

Definition last : Snippet := mkSnippet 4 "last.txt" "{}".

(** Four snippets are listed; the content of the third cannot be fetched. *)
Definition snippets_break : PassEnv := mkPassEnv
  (fun _ _ => not_found)
  (fun _ _ _ => not_found)
  (fun _ _ => Return (mkAnswer 200 (Some [notes; shadowed; lost; last])))
  (fun _ _ snippet =>
     if snippet =? 3 then Raise ClientConnectionError
     else Return (mkAnswer 200 (Some "print(1)")))
  (fun _ _ _ => not_found)
  (fun _ _ _ => not_found)
  flat_only
  (fun _ => true).

(** A project with issues only. *)
Definition tracker : ProjectInfo :=
  mkProjectInfo Sample.library false true false.

Definition metadata_dir : string := Sample.export_dir +:+ "/metadata".

(** Two pages of issues are served; the third request is answered 429. *)
Definition issues_throttled : PassEnv := mkPassEnv
  (fun _ _ => not_found)
  (fun _ _ _ => not_found)
  (fun _ _ => not_found)
  (fun _ _ _ => not_found)
  (fun _ _ page =>
     if page =? 1 then Return (mkAnswer 200 (Some ["#1"; "#2"]))
     else if page =? 2 then Return (mkAnswer 200 (Some ["#3"]))
     else Return (mkAnswer 429 None))
  (fun _ _ _ => not_found)
  flat_only
  (fun _ => true).

(** One page of issues is served; the connection breaks on the second.
    Merge requests would be served. *)
Definition issues_broken : PassEnv := mkPassEnv
  (fun _ _ => not_found)
  (fun _ _ _ => not_found)
  (fun _ _ => not_found)
  (fun _ _ _ => not_found)
  (fun _ _ page =>
     if page =? 1 then Return (mkAnswer 200 (Some ["#1"]))
     else Raise ClientConnectionError)
  (fun _ _ page =>
     if page =? 1 then Return (mkAnswer 200 (Some ["!1"]))
     else Return (mkAnswer 200 (Some [])))
  flat_only
  (fun _ => true).
End Passes.

(** The request of a snippet's content, and the two files of a snippet. *)
Definition snippet_request (project_id : Z) (snippet : Snippet)
    : pass_request :=
  GetSnippetRaw project_id (snippet_id snippet).

Definition snippet_file (snippet : Snippet) : entry_name :=
  Numbered (snippet_id snippet) (file_name snippet).

Definition snippet_metadata_file (snippet : Snippet) : entry_name :=
  Numbered (snippet_id snippet) "metadata.json".

(** A list of writes after which no file named [<n>_metadata.json] holds the
    text of a snippet. *)
Definition metadata_kept (files : list (string * entry_name * document))
    : Prop :=
  forall dir n text,
    file_content files dir (Numbered n "metadata.json") <> Some (Text text).

(** A snippet that is exported: its content is answered 200 and can be read,
    and its two files can be written. *)
Definition snippet_served (env : PassEnv) (project_id : Z) (dir : string)
    (snippet : Snippet) : Prop :=
  writable env dir (snippet_file snippet) = true
  /\ writable env dir (snippet_metadata_file snippet) = true
  /\ forall history,
       exists content,
         snippet_raw_of env history project_id (snippet_id snippet)
         = Return (mkAnswer 200 (Some content)).

(** A snippet whose content request raises [e]. *)
Definition snippet_raises (env : PassEnv) (project_id : Z) (snippet : Snippet)
    (e : exn) : Prop :=
  forall history,
    snippet_raw_of env history project_id (snippet_id snippet) = Raise e.

(** The events of one round of the two paging loops of [export_metadata]. *)
Definition issues_round (project_id page : Z) : list pass_event :=
  semaphore_block [GetIssues project_id page].

Definition merge_requests_round (project_id page : Z) : list pass_event :=
  [Sent (GetMergeRequests project_id page)].

(** A stretch of events of the metadata pass: a request for issues alone in
    a semaphore block, or a request for merge requests outside any. *)
Definition metadata_segment (evs : list pass_event) : Prop :=
  exists project_id page,
    evs = issues_round project_id page
    \/ evs = merge_requests_round project_id page.

(** The page numbers of [n] rounds from [start] on. *)
Definition page_numbers (start : Z) (n : nat) : list Z :=
  map (fun i => start + Z.of_nat i) (seq 0 n).

(** What a paging loop returns after the round that ended it. *)
Definition paging_end (items : list string) (final : pass_result paging)
    : pass_result (option (list string)) :=
  match final with
  | Done _ => Done (Some items)
  | Threw e => Threw e
  end.

(** What the round of the issues loop makes of an answer. *)
Definition round_of (answer : outcome (Answer (list string)))
    : pass_result paging :=
  match answer with
  | Raise e => Threw (SessionError e)
  | Return response =>
      if answer_status response =? 200 then
        match answer_body response with
        | None => Threw (SessionError ValueError)
        | Some [] => Done StopPaging
        | Some (item :: items) => Done (NextPage (item :: items))
        end
      else Done StopPaging
  end.

(** The remote serves the issues of a project as these pages, each with
    items, and answers the request for the page after them with [final],
    whatever went before. *)
Definition issues_served (env : PassEnv) (project_id : Z)
    (pages : list (list string)) (final : outcome (Answer (list string)))
    : Prop :=
  (forall history i items,
      pages !! i = Some items ->
      items <> []
      /\ issues_of env history project_id (1 + Z.of_nat i)
         = Return (mkAnswer 200 (Some items)))
  /\ (forall history,
        issues_of env history project_id (1 + Z.of_nat (length pages)) = final).

(** * [TUIInterface.load_instances] *)

(** A line of [gitlab_instances.txt] after [line.strip()], as the loop looks
    at it: the tests it applies to the text of the line and what they give.
    [host_label] is [urlparse(parts[0]).netloc.split('.')[0]], [None] when
    [urlparse] raises [ValueError] on the first field;
    [has_xi_marker] is the test for the marker spelt with a Greek Xi,
    [has_marker] the one for the marker [TOKEN:]; [token_match] is group 1 of
    the regular expression search, which accepts both spellings. *)
Record ConfigLine := mkConfigLine {
  blank : bool;
  starts_with_http : bool;
  parts : list string;
  host_label : option string;
  has_xi_marker : bool;
  has_marker : bool;
  token_match : option string
}.

(** What [load_instances] can raise: [json.load] or a missing key of
    [config.json], [urlparse] on the first field of an URL line, and the
    attribute access on [None]. *)
Inductive load_exn :=
| ConfigError
| UrlParseError
| AttributeError.

(** [GitLabInstance(name=..., url=..., token=...)]: the other fields take
    their defaults. *)
Definition new_instance (instance_name instance_url instance_token : string)
    : GitLabInstance :=
  mkInstance instance_name instance_url instance_token "" "" "" "" 0 0 0.

Definition set_token (t : string) (i : GitLabInstance) : GitLabInstance :=
  mkInstance (name i) (url i) t (version i) (role i) (username i) (email i)
    (projects_count i) (groups_count i) (users_count i).

(** The state of the loop over the lines: [self.instances], and
    [current_instance] as the place in that list of the object it names (the
    object is appended when it is made, and changed in place afterwards). *)
Record Loader := mkLoader {
  loaded : list GitLabInstance;
  current_instance : option nat
}.

(** The body of [for line in lines].  The test of the [elif] is
    [current_instance and (Xi marker in line) or ('TOKEN:' in line)], which
    Python reads as [(... and ...) or ...]. *)
Definition read_line (line : ConfigLine) (st : Loader) : load_exn + Loader :=
  if blank line then inr st
  else if starts_with_http line then
    match parts line with
    | instance_url :: _ :: _ =>
        match host_label line with
        | Some instance_name =>
            inr (mkLoader
                   (loaded st ++ [new_instance instance_name instance_url ""])
                   (Some (length (loaded st))))
        | None => inl UrlParseError
        end
    | _ => inr st
    end
  else if (bool_decide (is_Some (current_instance st)) && has_xi_marker line)
          || has_marker line then
    match token_match line with
    | Some t =>
        match current_instance st with
        | Some i => inr (mkLoader (alter (set_token t) i (loaded st)) (Some i))
        | None => inl AttributeError
        end
    | None => inr st
    end
  else inr st.

Fixpoint read_lines (lines : list ConfigLine) (st : Loader)
    : load_exn + Loader :=
  match lines with
  | [] => inr st
  | line :: rest =>
      match read_line line st with
      | inl e => inl e
      | inr st' => read_lines rest st'
      end
  end.

(** What [load_instances] finds on disk: [config.json], if it is there, with
    the [(name, url, token)] of its instances ([None] when reading it
    raises), and the lines of [gitlab_instances.txt], if it is there, as
    [read_text] and the [split] give them. *)
Record ConfigFiles := mkConfigFiles {
  config_json : option (option (list (string * string * string)));
  instances_txt : option (list ConfigLine)
}.

(** [load_instances] on a fresh [TUIInterface]: the exception, or
    [self.instances] and the result [len(self.instances) > 0]. *)
Definition load_instances (files : ConfigFiles)
    : load_exn + (list GitLabInstance * bool) :=
  match config_json files with
  | Some None => inl ConfigError
  | Some (Some entries) =>
      let found :=
        map (fun '(n, u, t) => new_instance n u t) entries in
      inr (found, (0 <? length found)%nat)
  | None =>
      match instances_txt files with
      | Some lines =>
          match read_lines lines (mkLoader [] None) with
          | inl e => inl e
          | inr st => inr (loaded st, (0 <? length (loaded st))%nat)
          end
      | None => inr ([], false)
      end
  end.

(** A line that makes an instance: an URL line of two fields or more. *)
Definition makes_instance (line : ConfigLine) : bool :=
  negb (blank line) && starts_with_http line
  && bool_decide (2 <= length (parts line))%nat.

(** A line that stores a token when an instance is current: neither blank
    nor an URL line, with one of the markers and a token after it. *)
Definition token_line (line : ConfigLine) (t : string) : Prop :=
  blank line = false
  /\ starts_with_http line = false
  /\ (has_xi_marker line = true \/ has_marker line = true)
  /\ token_match line = Some t.

(** A line that does nothing as long as no instance is current: blank, an
    URL line of fewer than two fields, or a line without the marker
    [TOKEN:], the marker with the Xi included. *)
Definition idle_line (line : ConfigLine) : Prop :=
  blank line = true
  \/ (starts_with_http line = true /\ (length (parts line) < 2)%nat)
  \/ (starts_with_http line = false /\ has_marker line = false).

(** The URL and the name the lines give rise to, in order; the name is
    there for every line [urlparse] accepts. *)
Definition listed (lines : list ConfigLine) : list (string * string) :=
  flat_map
    (fun line =>
       if makes_instance line
       then [(default "" (host_label line), default "" (head (parts line)))]
       else [])
    lines.

(** A line the loop passes over whatever went before: blank, an URL line of
    fewer than two fields, or a line that is no URL line and has no marker or
    no token after it. *)
Definition passed_over (line : ConfigLine) : Prop :=
  blank line = true
  \/ (starts_with_http line = true /\ (length (parts line) < 2)%nat)
  \/ (starts_with_http line = false
      /\ (token_match line = None
          \/ (has_xi_marker line = false /\ has_marker line = false))).

(** Sample lines of [gitlab_instances.txt]. *)
Module Config.
(** [https://alpha.example.com admin] *)
Definition alpha : ConfigLine :=
  mkConfigLine false true ["https://alpha.example.com"; "admin"]
    (Some "alpha")
    false false None.

(** [https://beta.example.com], the user name left out. *)
Definition beta : ConfigLine :=
  mkConfigLine false true ["https://beta.example.com"] (Some "beta")
    false false None.

(** [TOKEN: glpat-beta] *)
Definition beta_token : ConfigLine :=
  mkConfigLine false false ["TOKEN:"; "glpat-beta"] (Some "")
    false true (Some "glpat-beta").

(** A comment line. *)
Definition remark : ConfigLine :=
  mkConfigLine false false ["#"; "instances"] (Some "") false false None.

(** [http://[ admin], an address [urlparse] refuses. *)
Definition bracket : ConfigLine :=
  mkConfigLine false true ["http://["; "admin"] None false false None.
End Config.

(** The name and the URL of an instance. *)
Definition address (i : GitLabInstance) : string * string := (name i, url i).

(** An instance as [load_instances] makes it: nothing known but name, URL
    and token. *)
Definition unvisited (i : GitLabInstance) : Prop :=
  i = new_instance (name i) (url i) (token i).

(** * Properties *)

(** ** The retry decorator *)

Section Retry.
Context {A : Type} (n_retries : nat) (base : Q) (f : M A).

Lemma wrapper_loop_total fuel x w :
  (x <= n_retries < fuel + x)%nat ->
  is_Some (wrapper_loop n_retries base f fuel x w).
Proof.
  revert x w. induction fuel as [|fuel IH]; intros x w Hlt; [lia|].
  cbn [wrapper_loop]. destruct (f w) as [[a|e] w1]; [eauto|].
  destruct e as [status| | |name]; eauto.
  destruct (status =? 429); [|eauto].
  destruct (Nat.ltb_spec x n_retries); [|eauto].
  cbn. apply IH. lia.
Qed.

(** The fuel handed to the loop by [async_retry_with_backoff] is never spent:
    the wrapper's result is the loop's. *)
Lemma async_retry_total w :
  exists r,
    wrapper_loop n_retries base f (S n_retries) 0 w = Some r
    /\ async_retry_with_backoff n_retries base f w = r.
Proof.
  destruct (wrapper_loop_total (S n_retries) 0 w ltac:(lia)) as [r Hr].
  exists r. split; [exact Hr|]. unfold async_retry_with_backoff. now rewrite Hr.
Qed.

(** The wrapper hands through what the operation returns. *)
Lemma retry_return w a w' :
  f w = (Return a, w') ->
  async_retry_with_backoff n_retries base f w = (Return a, w').
Proof.
  intros Hf. unfold async_retry_with_backoff. cbn [wrapper_loop].
  now rewrite Hf.
Qed.

(** An operation that never raises is run once, unchanged. *)
Lemma retry_never_raises :
  (forall w, exists a w', f w = (Return a, w')) ->
  forall w, async_retry_with_backoff n_retries base f w = f w.
Proof.
  intros Hf w. destruct (Hf w) as (a & w' & Hw).
  rewrite Hw. now apply retry_return.
Qed.

(** Errors other than a 429 response go straight to the caller. *)
Lemma retry_other_status w status w' :
  f w = (Raise (ClientResponseError status), w') ->
  status <> 429 ->
  async_retry_with_backoff n_retries base f w
  = (Raise (ClientResponseError status), w').
Proof.
  intros Hf Hs. unfold async_retry_with_backoff. cbn [wrapper_loop].
  rewrite Hf. destruct (Z.eqb_spec status 429); [contradiction|reflexivity].
Qed.
End Retry.

Lemma wrapper_loop_retry {A} n_retries base (f : M A) fuel x w w1 :
  f w = (Raise (ClientResponseError 429), w1) ->
  (x < n_retries)%nat ->
  wrapper_loop n_retries base f (S fuel) x w
  = wrapper_loop n_retries base f fuel (S x) (snd (backoff base x w1)).
Proof.
  intros Hf Hx. cbn [wrapper_loop]. rewrite Hf.
  change (429 =? 429) with true. cbv iota.
  destruct (Nat.ltb_spec x n_retries); [|lia].
  now destruct (backoff base x w1).
Qed.

Lemma wrapper_loop_give_up {A} n_retries base (f : M A) fuel x w w1 :
  f w = (Raise (ClientResponseError 429), w1) ->
  (n_retries <= x)%nat ->
  wrapper_loop n_retries base f (S fuel) x w
  = Some (Raise (ClientResponseError 429), snd (log ERROR MsgRateLimitedMax w1)).
Proof.
  intros Hf Hx. cbn [wrapper_loop]. rewrite Hf.
  change (429 =? 429) with true. cbv iota.
  destruct (Nat.ltb_spec x n_retries); [lia|reflexivity].
Qed.

Lemma wrapper_loop_rate_limited n_retries base r d :
  forall x w, (x + d = n_retries)%nat ->
  exists w',
    wrapper_loop n_retries base (always_rate_limited r) (S d) x w
    = Some (Raise (ClientResponseError 429), w')
    /\ requests w' = (requests w ++ repeat r (S d))%list
    /\ retries (stats w') = retries (stats w) + Z.of_nat d
    /\ sleeps w'
       = (sleeps w
          ++ map (fun k => backoff_delay base
                             (fun i => rng w (rng_pos w + (i - x))%nat) (x + k)%nat)
                 (seq 0 d))%list
    /\ rng w' = rng w /\ rng_pos w' = (rng_pos w + d)%nat.
Proof.
  induction d as [|d IH]; intros x w Hx.
  - erewrite wrapper_loop_give_up by (reflexivity || lia).
    eexists; split; [reflexivity|]. cbn.
    repeat split; try lia. now rewrite app_nil_r.
  - erewrite wrapper_loop_retry by (reflexivity || lia).
    match goal with |- context [wrapper_loop _ _ _ _ _ ?w1] => set (w1' := w1) end.
    destruct (IH (S x) w1' ltac:(lia)) as (w' & Hrun & Hreq & Hret & Hsl & Hrng & Hpos).
    exists w'. split; [exact Hrun|]. subst w1'. cbn in Hreq, Hret, Hsl, Hrng, Hpos |- *.
    repeat split.
    + rewrite Hreq, <- app_assoc. reflexivity.
    + lia.
    + rewrite Hsl, <- app_assoc. f_equal. cbn. f_equal.
      * unfold backoff_delay. rewrite Nat.add_0_r, Nat.sub_diag, Nat.add_0_r.
        reflexivity.
      * rewrite <- seq_shift, map_map. apply map_ext. intros k.
        unfold backoff_delay.
        replace (S (x + k))%nat with (x + S k)%nat by lia.
        f_equal. f_equal. lia.
    + exact Hrng.
    + lia.
Qed.

(** The decorator on its own carries out the retry policy: an operation
    answered 429 every time is tried [retries + 1] times, the delay before
    retry [k] is [base * 2^k] plus the [k]-th jitter draw, the retry counter
    grows by one per retry, and the 429 error reaches the caller. *)
Lemma retry_rate_limited n_retries base r w :
  exists w',
    async_retry_with_backoff n_retries base (always_rate_limited r) w
    = (Raise (ClientResponseError 429), w')
    /\ requests w' = (requests w ++ repeat r (S n_retries))%list
    /\ retries (stats w') = retries (stats w) + Z.of_nat n_retries
    /\ sleeps w'
       = (sleeps w
          ++ map (backoff_delay base (fun k => rng w (rng_pos w + k)%nat))
                 (seq 0 n_retries))%list.
Proof.
  destruct (wrapper_loop_rate_limited n_retries base r n_retries 0 w eq_refl)
    as (w' & Hrun & Hreq & Hret & Hsl & _).
  exists w'. unfold async_retry_with_backoff. rewrite Hrun.
  repeat split; try assumption.
  rewrite Hsl. f_equal. apply map_ext. intros k. unfold backoff_delay.
  cbn. now rewrite Nat.sub_0_r.
Qed.

(** ** What an operation leaves alone *)

Section Preserves.
Context {B : Type} (obs : World -> B).

Lemma preserves_ret {A} (a : A) : preserves obs (ret a).
Proof. intros w. reflexivity. Qed.

Lemma preserves_raise {A} e : preserves obs (@raise A e).
Proof. intros w. reflexivity. Qed.

Lemma preserves_bind {A C} (m : M A) (k : A -> M C) :
  preserves obs m -> (forall a, preserves obs (k a)) ->
  preserves obs (bind m k).
Proof.
  intros Hm Hk w. unfold bind. specialize (Hm w).
  destruct (m w) as [[a|e] w1]; cbn in *; [|exact Hm].
  now rewrite Hk.
Qed.

Lemma preserves_try_except {A} (body : M A) handler :
  preserves obs body -> (forall e, preserves obs (handler e)) ->
  preserves obs (try_except body handler).
Proof.
  intros Hm Hk w. unfold try_except. specialize (Hm w).
  destruct (body w) as [[a|e] w1]; cbn in *; [exact Hm|].
  now rewrite Hk.
Qed.

Lemma preserves_modify f :
  (forall w, obs (f w) = obs w) -> preserves obs (modify f).
Proof. intros Hf w. apply Hf. Qed.

Lemma preserves_or_raise {A} e (v : option A) : preserves obs (or_raise e v).
Proof. destruct v; intros w; reflexivity. Qed.

Lemma preserves_raise_for_status status :
  preserves obs (raise_for_status status).
Proof. unfold raise_for_status. destruct (400 <=? status); intros w; reflexivity. Qed.

Lemma preserves_path_exists path : preserves obs (path_exists path).
Proof. intros w. reflexivity. Qed.

Lemma preserves_retry {A} n base (f : M A) :
  (forall w, exists b w', f w = (Return b, w')) -> preserves obs f ->
  preserves obs (async_retry_with_backoff n base f).
Proof.
  intros Hret Hf w. rewrite retry_never_raises; [apply Hf|exact Hret].
Qed.
End Preserves.

Ltac preserves_step :=
  lazymatch goal with
  | |- preserves _ (ret _) => apply preserves_ret
  | |- preserves _ (raise _) => apply preserves_raise
  | |- preserves _ (or_raise _ _) => apply preserves_or_raise
  | |- preserves _ (raise_for_status _) => apply preserves_raise_for_status
  | |- preserves _ (path_exists _) => apply preserves_path_exists
  | |- preserves _ (modify _) => apply preserves_modify; intros ?; reflexivity
  | |- preserves _ (bind _ _) => apply preserves_bind; [|intros ?]
  | |- preserves _ (try_except _ _) => apply preserves_try_except; [|intros ?]
  | |- preserves _ (match ?x with _ => _ end) => destruct x
  end.

Ltac preserves_tac :=
  unfold log, asyncio_sleep, bump_retries, bump_projects_exported,
    bump_projects_failed, add_total_size, append_failed_project,
    open_file, file_write;
  repeat preserves_step.

Lemma session_get_download_keeps {B} (obs : World -> B) remote pid range :
  (forall r w, obs (record_request r w) = obs w) ->
  preserves obs (session_get_download remote pid range).
Proof. intros H w. apply H. Qed.

Lemma session_get_export_keeps {B} (obs : World -> B) remote pid :
  (forall r w, obs (record_request r w) = obs w) ->
  preserves obs (session_get_export remote pid).
Proof. intros H w. apply H. Qed.

Lemma session_post_export_keeps {B} (obs : World -> B) remote pid :
  (forall r w, obs (record_request r w) = obs w) ->
  preserves obs (session_post_export remote pid).
Proof. intros H w. apply H. Qed.

Lemma write_chunks_keeps {B} (obs : World -> B) path chunks :
  (forall m w, obs (set_fs m w) = obs w) ->
  preserves obs (write_chunks path chunks).
Proof.
  intros H. induction chunks as [|c cs IH]; cbn [write_chunks].
  - apply preserves_ret.
  - apply preserves_bind; [|intros _; exact IH].
    apply preserves_modify. intros w. apply H.
Qed.

(** ** [download_export] *)

Lemma download_export_body_returns remote pid path file w :
  exists b w', download_export_body remote pid path file w = (Return b, w').
Proof.
  unfold download_export_body, try_except.
  destruct (download_export_try remote pid path file w) as [[b|e] w1]; eauto.
Qed.

Lemma download_export_is_body remote pid path file w :
  download_export remote pid path file w
  = download_export_body remote pid path file w.
Proof.
  apply retry_never_raises. intros w0. apply download_export_body_returns.
Qed.

Lemma download_receive_keeps_counts path file mode size response :
  preserves counts (download_receive path file mode size response).
Proof.
  unfold download_receive. preserves_tac.
  all: try (apply write_chunks_keeps; reflexivity).
  all: try (apply preserves_modify; intros w; destruct mode, (fs w !! file); reflexivity).
Qed.

Lemma download_export_keeps_counts remote pid path file :
  preserves counts (download_export remote pid path file).
Proof.
  apply preserves_retry; [intros w; apply download_export_body_returns|].
  apply preserves_try_except; [|intros e; preserves_tac].
  intros w. unfold download_export_try.
  destruct (resume_plan (fs w !! file)) as [[headers mode] size].
  apply preserves_bind; [apply session_get_download_keeps; reflexivity|].
  intros response. apply download_receive_keeps_counts.
Qed.

Lemma download_receive_keeps_backoff path file mode size response :
  preserves backoff_trace (download_receive path file mode size response).
Proof.
  unfold download_receive. preserves_tac.
  all: try (apply write_chunks_keeps; reflexivity).
  all: try (apply preserves_modify; intros w; destruct mode, (fs w !! file); reflexivity).
Qed.

Lemma download_export_keeps_backoff remote pid path file :
  preserves backoff_trace (download_export remote pid path file).
Proof.
  apply preserves_retry; [intros w; apply download_export_body_returns|].
  apply preserves_try_except; [|intros e; preserves_tac].
  intros w. unfold download_export_try.
  destruct (resume_plan (fs w !! file)) as [[headers mode] size].
  apply preserves_bind; [apply session_get_download_keeps; reflexivity|].
  intros response. apply download_receive_keeps_backoff.
Qed.

Lemma set_fs_same w : set_fs (fs w) w = w.
Proof. now destruct w. Qed.

Lemma write_chunks_run path chunks : forall w content,
  fs w !! path = Some content ->
  write_chunks path chunks w
  = (Return tt, set_fs (<[path := (content ++ concat chunks)%list]> (fs w)) w).
Proof.
  induction chunks as [|c cs IH]; intros w content Hw; cbn [write_chunks concat].
  - rewrite app_nil_r, insert_id by exact Hw. now rewrite set_fs_same.
  - unfold bind, file_write, modify. rewrite Hw. cbn [default].
    erewrite IH by (cbn; apply lookup_insert_eq).
    cbn. unfold set_fs; cbn. rewrite insert_insert_eq, <- app_assoc.
    reflexivity.
Qed.

(** A successful download leaves a file at [export_file]. *)
Lemma write_chunks_file_stays path chunks : forall w,
  is_Some (fs w !! path) ->
  is_Some (fs (snd (write_chunks path chunks w)) !! path).
Proof.
  intros w [content Hw]. rewrite (write_chunks_run _ _ _ _ Hw). cbn.
  rewrite lookup_insert_eq. eauto.
Qed.

Lemma open_file_creates path mode w :
  is_Some (fs (snd (open_file path mode w)) !! path).
Proof.
  unfold open_file, modify. cbn.
  destruct mode; [|destruct (fs w !! path) eqn:E]; cbn;
    rewrite ?lookup_insert_eq, ?E; eauto.
Qed.

Lemma download_receive_success path file mode size response w w' :
  download_receive path file mode size response w = (Return true, w') ->
  is_Some (fs w' !! file).
Proof.
  unfold download_receive, raise_for_status.
  destruct (400 <=? dl_status response); [discriminate|].
  unfold bind at 1. cbn [ret].
  destruct (dl_status response =? 403); [discriminate|].
  destruct (negb _); [discriminate|].
  destruct (dl_content_length response) as [total|]; [|discriminate].
  cbn [or_raise]. unfold bind at 1. cbn [ret].
  unfold bind at 1.
  pose proof (open_file_creates file mode w) as Hopen.
  destruct (open_file file mode w) as [[[]|e] w1] eqn:Eo; [|discriminate].
  cbn in Hopen. unfold bind at 1.
  pose proof (write_chunks_file_stays file (dl_chunks response) w1 Hopen) as Hwr.
  destruct (write_chunks file (dl_chunks response) w1) as [[[]|e] w2]; [|discriminate].
  cbn in Hwr. destruct (dl_stream_error response); [discriminate|].
  cbn. intros [= <-]. exact Hwr.
Qed.

Lemma download_export_success remote pid path file w w' :
  download_export remote pid path file w = (Return true, w') ->
  is_Some (fs w' !! file).
Proof.
  rewrite download_export_is_body. unfold download_export_body, try_except.
  destruct (download_export_try remote pid path file w) as [[b|e] w1] eqn:E;
    [|discriminate].
  intros [= -> ->]. revert E. unfold download_export_try.
  destruct (resume_plan (fs w !! file)) as [[headers mode] size].
  unfold bind, session_get_download.
  destruct (get_download remote (requests w) pid headers) as [response|e];
    [|discriminate].
  apply download_receive_success.
Qed.

Lemma download_receive_run path file mode size response w content full range :
  serves full range response ->
  fs (snd (open_file file mode w)) !! file = Some content ->
  exists w',
    download_receive path file mode size response w = (Return true, w')
    /\ requests w' = requests w
    /\ fs w' !! file = Some (content ++ concat (dl_chunks response))%list.
Proof.
  intros (Herr & [total Hlen] & Hbody) Hopen.
  assert (Hst : dl_status response = 200 \/ dl_status response = 206)
    by (destruct range; tauto).
  unfold download_receive, raise_for_status.
  replace (400 <=? dl_status response) with false
    by (destruct Hst as [-> | ->]; reflexivity).
  unfold bind at 1. cbn [ret].
  replace (dl_status response =? 403) with false
    by (destruct Hst as [-> | ->]; reflexivity).
  replace (negb _) with false by (destruct Hst as [-> | ->]; reflexivity).
  rewrite Hlen, Herr. cbn [or_raise]. unfold bind at 1. cbn [ret].
  unfold bind at 1.
  destruct (open_file file mode w) as [[[]|e] w1] eqn:Eo;
    [|unfold open_file, modify in Eo; discriminate].
  assert (Hreq : requests w1 = requests w).
  { unfold open_file, modify in Eo. injection Eo as <-.
    destruct mode, (fs w !! file); reflexivity. }
  cbn in Hopen. unfold bind at 1.
  rewrite (write_chunks_run _ _ _ _ Hopen).
  eexists. split; [reflexivity|]. cbn. split; [exact Hreq|].
  apply lookup_insert_eq.
Qed.

(** A completed download, whichever of the two answers of [serves] the
    remote gives: the body goes after what the file held. *)
Lemma download_export_run remote pid path file w full answered response :
  let range := fst (fst (resume_plan (fs w !! file))) in
  get_download remote (requests w) pid range = Return response ->
  serves full answered response ->
  exists w',
    download_export remote pid path file w = (Return true, w')
    /\ requests w' = (requests w ++ [GetDownload pid range])%list
    /\ fs w' !! file
       = Some (default [] (fs w !! file) ++ concat (dl_chunks response))%list.
Proof.
  intros range Hget Hserves. rewrite download_export_is_body.
  unfold download_export_body, try_except, download_export_try.
  subst range.
  destruct (resume_plan (fs w !! file)) as [[headers mode] size] eqn:Eplan.
  cbn [fst] in *. unfold bind at 1, session_get_download. rewrite Hget.
  set (w1 := record_request _ w).
  destruct (download_receive_run path file mode size response w1
              (default [] (fs w !! file)) full answered Hserves)
    as (w' & Hrun & Hreq & Hfile).
  { unfold open_file, modify. subst w1. cbn [snd fs record_request set_requests].
    unfold resume_plan in Eplan.
    destruct (fs w !! file) as [content|] eqn:Ef; injection Eplan as <- <- <-; cbn.
    - exact Ef.
    - apply lookup_insert_eq. }
  rewrite Hrun. exists w'. repeat split; [|exact Hfile].
  now rewrite Hreq.
Qed.


(** With nothing on disk the download asks for the whole archive and the file
    is the archive. *)
Lemma download_export_fresh remote pid path file w full response :
  fs w !! file = None ->
  get_download remote (requests w) pid None = Return response ->
  serves full None response ->
  exists w',
    download_export remote pid path file w = (Return true, w')
    /\ requests w' = (requests w ++ [GetDownload pid None])%list
    /\ fs w' !! file = Some full.
Proof.
  intros Hnone Hget Hserves.
  destruct (download_export_run remote pid path file w full None response)
    as (w' & Hrun & Hreq & Hfile).
  { rewrite Hnone. exact Hget. }
  { exact Hserves. }
  rewrite Hnone in Hreq, Hfile. cbn in Hreq, Hfile.
  destruct Hserves as (_ & _ & _ & Hbody). rewrite Hbody in Hfile.
  eauto.
Qed.

(** The resumed result rests on the remote answering the range: the code
    takes status 200 as well as 206, and a remote that answers a range
    request with the whole archive has it appended after the old bytes. *)
Lemma download_export_range_ignored remote pid path file w old full response :
  fs w !! file = Some old ->
  get_download remote (requests w) pid (Some (Z.of_nat (length old)))
  = Return response ->
  serves full None response ->
  exists w',
    download_export remote pid path file w = (Return true, w')
    /\ fs w' !! file = Some (old ++ full)%list.
Proof.
  intros Hold Hget Hserves.
  destruct (download_export_run remote pid path file w full None response)
    as (w' & Hrun & _ & Hfile).
  { rewrite Hold. exact Hget. }
  { exact Hserves. }
  rewrite Hold in Hfile. cbn in Hfile.
  destruct Hserves as (_ & _ & _ & Hbody). rewrite Hbody in Hfile.
  eauto.
Qed.

(** A file that exists with no bytes is resumed from offset 0 in append mode,
    which leaves the same file as a fresh download. *)
Lemma download_export_empty_file remote pid path file w full response :
  fs w !! file = Some [] ->
  get_download remote (requests w) pid (Some 0) = Return response ->
  serves full (Some 0) response ->
  resume_plan (fs w !! file) = (Some 0, AB, 0)
  /\ exists w',
       download_export remote pid path file w = (Return true, w')
       /\ requests w' = (requests w ++ [GetDownload pid (Some 0)])%list
       /\ fs w' !! file = Some full.
Proof.
  intros Hold Hget Hserves. split; [now rewrite Hold|].
  destruct (download_export_run remote pid path file w full (Some 0) response)
    as (w' & Hrun & Hreq & Hfile).
  { rewrite Hold. exact Hget. }
  { exact Hserves. }
  rewrite Hold in Hreq, Hfile. cbn in Hreq, Hfile.
  destruct Hserves as (_ & _ & _ & Hbody). cbn in Hbody.
  rewrite Hbody in Hfile. eauto.
Qed.

Example sample_export_file :
  export_file_of Sample.export_dir (path_with_namespace Sample.project)
  = Sample.export_file.
Proof. reflexivity. Qed.


(** ** The poll loop, one attempt at a time *)

Section PollStep.
Context (remote : Remote) (project : Project) (export_file : string).

Lemma poll_step_raise n w e :
  get_export remote (requests w) (id project) = Raise e ->
  poll_loop remote project export_file (S n) w = (Raise e, polled project w).
Proof.
  intros H. cbn [poll_loop]. unfold bind at 1. cbn.
  unfold bind at 1, session_get_export. cbn. now rewrite H.
Qed.

Lemma poll_step_skip n w response :
  get_export remote (requests w) (id project) = Return response ->
  poll_status response <> 200 ->
  poll_loop remote project export_file (S n) w
  = poll_loop remote project export_file n (polled project w).
Proof.
  intros H Hs. cbn [poll_loop]. unfold bind at 1. cbn.
  unfold bind at 1, session_get_export. cbn. rewrite H.
  destruct (Z.eqb_spec (poll_status response) 200); [contradiction|].
  reflexivity.
Qed.

Lemma poll_step_unreadable n w response :
  get_export remote (requests w) (id project) = Return response ->
  poll_status response = 200 ->
  poll_export_status response = None ->
  poll_loop remote project export_file (S n) w = (Raise ValueError, polled project w).
Proof.
  intros H Hs Hj. cbn [poll_loop]. unfold bind at 1. cbn.
  unfold bind at 1, session_get_export. cbn. rewrite H, Hs, Hj.
  reflexivity.
Qed.

Lemma poll_step_finished n w response :
  get_export remote (requests w) (id project) = Return response ->
  poll_status response = 200 ->
  poll_export_status response = Some "finished" ->
  poll_loop remote project export_file (S n) w
  = on_finished remote project export_file (polled project w).
Proof.
  intros H Hs Hj. cbn [poll_loop]. unfold bind at 1. cbn.
  unfold bind at 1, session_get_export. cbn. rewrite H, Hs, Hj.
  reflexivity.
Qed.

Lemma poll_step_failed n w response :
  get_export remote (requests w) (id project) = Return response ->
  poll_status response = 200 ->
  poll_export_status response = Some "failed" ->
  poll_loop remote project export_file (S n) w = on_failed project (polled project w).
Proof.
  intros H Hs Hj. cbn [poll_loop]. unfold bind at 1. cbn.
  unfold bind at 1, session_get_export. cbn. rewrite H, Hs, Hj.
  reflexivity.
Qed.

Lemma poll_step_in_progress n w response s :
  get_export remote (requests w) (id project) = Return response ->
  poll_status response = 200 ->
  poll_export_status response = Some s ->
  s <> "finished" -> s <> "failed" ->
  poll_loop remote project export_file (S n) w
  = poll_loop remote project export_file n (polled project w).
Proof.
  intros H Hs Hj Hf1 Hf2. cbn [poll_loop]. unfold bind at 1. cbn.
  unfold bind at 1, session_get_export. cbn. rewrite H, Hs, Hj.
  cbn [Z.eqb Pos.eqb negb or_raise]. unfold bind at 1. cbn [ret].
  destruct (String.eqb_spec s "finished"); [contradiction|].
  destruct (String.eqb_spec s "failed"); [contradiction|].
  reflexivity.
Qed.

(** Every poll is one of the six cases above. *)
Lemma poll_step_cases n w :
  (exists e, poll_loop remote project export_file (S n) w = (Raise e, polled project w))
  \/ poll_loop remote project export_file (S n) w
     = poll_loop remote project export_file n (polled project w)
  \/ poll_loop remote project export_file (S n) w
     = on_finished remote project export_file (polled project w)
  \/ poll_loop remote project export_file (S n) w = on_failed project (polled project w).
Proof.
  destruct (get_export remote (requests w) (id project)) as [response|e] eqn:H.
  2: { left. exists e. now apply poll_step_raise. }
  destruct (Z.eq_dec (poll_status response) 200) as [Hs|Hs].
  2: { right; left. eapply poll_step_skip; eauto. }
  destruct (poll_export_status response) as [s|] eqn:Hj.
  2: { left. exists ValueError. eapply poll_step_unreadable; eauto. }
  destruct (string_dec s "finished") as [->|Hf1].
  { right; right; left. eapply poll_step_finished; eauto. }
  destruct (string_dec s "failed") as [->|Hf2].
  { right; right; right. eapply poll_step_failed; eauto. }
  right; left. eapply poll_step_in_progress; eauto.
Qed.
End PollStep.

(** ** What one job does to the counters *)

Lemma record_failure_returns project msg w :
  fst (record_failure project msg w) = Return false.
Proof. reflexivity. Qed.

Lemma record_failure_effect project msg w :
  job_effect project (counts w) (counts (snd (record_failure project msg w))) false.
Proof. apply effect_failed_listed. Qed.

Section JobEffect.
Context (remote : Remote) (export_dir : string) (project : Project).
Let export_file := export_file_of export_dir (path_with_namespace project).

Lemma on_finished_post w r w' :
  on_finished remote project export_file w = (r, w') ->
  poll_post project export_file w r w'.
Proof.
  unfold on_finished, bind.
  pose proof (download_export_keeps_counts remote (id project)
                (path_with_namespace project) export_file w) as Hc.
  pose proof (download_export_success remote (id project)
                (path_with_namespace project) export_file w) as Hs.
  rewrite download_export_is_body in *.
  destruct (download_export_body_returns remote (id project)
              (path_with_namespace project) export_file w) as (b & w1 & Hrun).
  rewrite Hrun in *. cbn [snd] in Hc. unfold counts in Hc.
  injection Hc as He Hf Hl.
  destruct b; cbn; intros [= <- <-]; cbn; unfold counts; cbn;
    rewrite He, Hf, Hl; (split; [constructor|]).
  - intros _. now apply Hs.
  - discriminate.
Qed.

Lemma on_failed_post w r w' :
  on_failed project w = (r, w') -> poll_post project export_file w r w'.
Proof.
  cbn. intros [= <- <-]. split; [apply effect_failed_listed|discriminate].
Qed.

Lemma poll_loop_post n : forall w r w',
  poll_loop remote project export_file n w = (r, w') ->
  poll_post project export_file w r w'.
Proof.
  induction n as [|n IH]; intros w r w'.
  { cbn. now intros [= <- <-]. }
  destruct (poll_step_cases remote project export_file n w)
    as [[e ->] | [-> | [-> | ->]]].
  - now intros [= <- <-].
  - apply (IH (polled project w)).
  - apply (on_finished_post (polled project w)).
  - apply (on_failed_post (polled project w)).
Qed.

Lemma export_project_try_post w r w' :
  export_project_try remote export_dir project w = (r, w') ->
  job_post project export_file w r w'.
Proof.
  unfold export_project_try. fold export_file.
  unfold bind at 1, path_exists.
  destruct (bool_decide (is_Some (fs w !! export_file))) eqn:Hpresent.
  { cbn. intros [= <- <-]. split; [apply effect_exported|]. intros _.
    now apply bool_decide_eq_true in Hpresent. }
  unfold bind at 1, session_post_export.
  destruct (post_export remote (requests w) (id project)) as [status|e];
    [|now intros [= <- <-]].
  unfold raise_for_status, bind at 1.
  destruct (400 <=? status); [now intros [= <- <-]|]. cbn [ret].
  destruct (status =? 403).
  { cbn. intros [= <- <-]. split; [apply effect_failed_listed|discriminate]. }
  destruct (negb _).
  { cbn. intros [= <- <-]. split; [apply effect_failed_listed|discriminate]. }
  unfold bind at 1.
  match goal with |- context [poll_loop _ _ _ _ ?w1] =>
    pose proof (poll_loop_post max_attempts w1) as Hpoll;
    destruct (poll_loop remote project export_file max_attempts w1)
      as [[[b|]|e] w2]
  end; specialize (Hpoll _ _ eq_refl); cbn [poll_post] in Hpoll.
  - now intros [= <- <-].
  - cbn. intros [= <- <-]. cbn. unfold counts in *. cbn in *.
    injection Hpoll as -> -> ->.
    split; [apply effect_failed_listed|discriminate].
  - now intros [= <- <-].
Qed.

Lemma export_project_body_post w :
  exists b w',
    export_project_body remote export_dir project w = (Return b, w')
    /\ job_post project export_file w (Return b) w'.
Proof.
  unfold export_project_body, try_except.
  pose proof (export_project_try_post w) as Htry.
  destruct (export_project_try remote export_dir project w) as [[b|e] w1];
    specialize (Htry _ _ eq_refl).
  - eauto.
  - eexists _, _. split; [reflexivity|]. cbn in *.
    unfold counts in *. cbn. injection Htry as -> -> ->.
    split; [apply effect_failed_listed|discriminate].
Qed.

Lemma export_project_is_body w :
  export_project remote export_dir project w
  = export_project_body remote export_dir project w.
Proof.
  apply retry_never_raises. intros w0.
  destruct (export_project_body_post w0) as (b & w' & H & _). eauto.
Qed.

(** A job always returns, and changes the counters in one of the three
    ways of [job_effect]; after a success the archive is on disk. *)
Lemma export_project_post w :
  exists b w',
    export_project remote export_dir project w = (Return b, w')
    /\ job_post project export_file w (Return b) w'.
Proof. rewrite export_project_is_body. apply export_project_body_post. Qed.
End JobEffect.

(** ** The decorator never gets to retry a job *)

Lemma download_export_keeps_retries remote pid path file :
  preserves retry_count (download_export remote pid path file).
Proof.
  intros w.
  pose proof (download_export_keeps_backoff remote pid path file w) as H.
  unfold backoff_trace in H. now injection H.
Qed.

Lemma poll_loop_keeps_retries remote project file n :
  preserves retry_count (poll_loop remote project file n).
Proof.
  induction n as [|n IH]; cbn [poll_loop]; [apply preserves_ret|].
  unfold record_failure. preserves_tac.
  all: first [ exact IH
             | apply session_get_export_keeps; reflexivity
             | apply download_export_keeps_retries
             | apply IH ].
Qed.

Lemma export_project_body_keeps_retries remote export_dir project :
  preserves retry_count (export_project_body remote export_dir project).
Proof.
  unfold export_project_body, export_project_try, record_failure.
  preserves_tac.
  all: first [ apply session_post_export_keeps; reflexivity
             | apply poll_loop_keeps_retries ].
Qed.

(** No run of a job counts a retry. *)
Lemma export_project_keeps_retries remote export_dir project :
  preserves retry_count (export_project remote export_dir project).
Proof.
  intros w. rewrite export_project_is_body.
  apply export_project_body_keeps_retries.
Qed.

(** A 429 answer to the export trigger ends the job at once: the request is
    not sent again, nothing is slept, no retry is counted, and the caller
    gets [False], not a rate-limit error. *)
Lemma export_project_rate_limited remote export_dir project w :
  fs w !! export_file_of export_dir (path_with_namespace project) = None ->
  post_export remote (requests w) (id project) = Return 429 ->
  exists w',
    export_project remote export_dir project w = (Return false, w')
    /\ requests w' = (requests w ++ [PostExport (id project)])%list
    /\ backoff_trace w' = backoff_trace w
    /\ counts w'
       = (projects_exported (stats w), projects_failed (stats w) + 1,
          (failed_projects w ++ [project])%list).
Proof.
  intros Hfile Hpost. rewrite export_project_is_body.
  unfold export_project_body, try_except, export_project_try.
  unfold bind at 1, path_exists.
  rewrite bool_decide_eq_false_2 by (rewrite Hfile; now intros [? ?]).
  unfold bind at 1, session_post_export. rewrite Hpost. cbn.
  eexists. split; [reflexivity|]. now cbn.
Qed.

(** ** Failure accounting *)

(** When the download fails the job is counted as failed and the project is
    not put on the failed list. *)
Lemma on_finished_download_failed remote project file w w1 :
  download_export remote (id project) (path_with_namespace project) file w
  = (Return false, w1) ->
  exists w2,
    on_finished remote project file w = (Return (Some false), w2)
    /\ counts w2
       = (projects_exported (stats w), projects_failed (stats w) + 1,
          failed_projects w).
Proof.
  intros Hd.
  pose proof (download_export_keeps_counts remote (id project)
                (path_with_namespace project) file w) as Hc.
  unfold on_finished, bind. rewrite Hd in *. cbn.
  eexists. split; [reflexivity|]. unfold counts in *. cbn in *.
  now injection Hc as -> -> ->.
Qed.

(** C1. The remote starts the export and reports it finished, then refuses
    the download with status 500: the job returns [False] and counts one
    failed project, and the failed list stays empty. *)
Theorem download_failure_not_listed :
  let run := export_project Sample.download_refused Sample.export_dir
               Sample.project (World_init ∅ Sample.no_jitter) in
  fst run = Return false
  /\ requests (snd run) = [PostExport 7; GetExport 7; GetDownload 7 None]
  /\ projects_failed (stats (snd run)) = 1
  /\ projects_exported (stats (snd run)) = 0
  /\ failed_projects (snd run) = [].
Proof. vm_compute. repeat split. Qed.

(** C2. The remote answers the export trigger with 429: the decorated job
    sends the request once, sleeps for no delay, counts no retry, and hands
    its caller [False] after logging the 429 as an exception of the job. *)
Theorem rate_limited_trigger_not_retried :
  let run := export_project Sample.rate_limited Sample.export_dir
               Sample.project (World_init ∅ Sample.no_jitter) in
  fst run = Return false
  /\ requests (snd run) = [PostExport 7]
  /\ sleeps (snd run) = []
  /\ retries (stats (snd run)) = 0
  /\ log_entries (snd run)
     = [(ERROR, MsgExceptionExporting "grp/app" (ClientResponseError 429))]
  /\ failed_projects (snd run) = [Sample.project].
Proof. vm_compute. repeat split. Qed.

(** ** Re-running a job *)

(** The [ALREADY_EXPORTED] short circuit of the body: log, count, return. *)
Lemma export_project_try_short_circuit remote export_dir project w :
  is_Some (fs w !! export_file_of export_dir (path_with_namespace project)) ->
  export_project_try remote export_dir project w
  = (Return true,
     snd (bump_projects_exported
            (snd (log INFO (MsgAlreadyExported (path_with_namespace project))
                    w)))).
Proof.
  intros Hfile. unfold export_project_try, bind at 1, path_exists.
  now rewrite bool_decide_eq_true_2 by exact Hfile.
Qed.

(** C5. With the archive already on disk the job succeeds at once: it logs
    "already exported", counts the project as exported, sends no request,
    sleeps for nothing and leaves every file as it was. *)
Theorem export_project_already_exported remote export_dir project w :
  is_Some (fs w !! export_file_of export_dir (path_with_namespace project)) ->
  exists w',
    export_project remote export_dir project w = (Return true, w')
    /\ projects_exported (stats w') = projects_exported (stats w) + 1
    /\ projects_failed (stats w') = projects_failed (stats w)
    /\ failed_projects w' = failed_projects w
    /\ requests w' = requests w
    /\ sleeps w' = sleeps w
    /\ fs w' = fs w
    /\ log_entries w'
       = (log_entries w
          ++ [(INFO, MsgAlreadyExported (path_with_namespace project))])%list.
Proof.
  intros Hfile. rewrite export_project_is_body.
  unfold export_project_body, try_except.
  rewrite export_project_try_short_circuit by exact Hfile.
  eexists. split; [reflexivity|].
  cbn [snd log bump_projects_exported modify].
  repeat split; reflexivity.
Qed.

Lemma export_project_already_exported_witness :
  exists w',
    export_project Sample.healthy Sample.export_dir Sample.project
      Sample.partial_world = (Return true, w')
    /\ requests w' = []
    /\ fs w' = fs Sample.partial_world.
Proof.
  destruct (export_project_already_exported Sample.healthy Sample.export_dir
              Sample.project Sample.partial_world)
    as (w' & Hrun & _ & _ & _ & Hreq & _ & Hfs & _).
  - vm_compute. eauto.
  - exists w'. repeat split; assumption.
Defined.

(** A second run after a successful one is such a no-op. *)
Lemma export_project_rerun remote export_dir project w w1 :
  export_project remote export_dir project w = (Return true, w1) ->
  exists w2,
    export_project remote export_dir project w1 = (Return true, w2)
    /\ requests w2 = requests w1
    /\ fs w2 = fs w1
    /\ projects_exported (stats w2) = projects_exported (stats w1) + 1.
Proof.
  intros Hrun.
  destruct (export_project_post remote export_dir project w)
    as (b & w' & Hrun' & _ & Hfile).
  rewrite Hrun in Hrun'. injection Hrun' as <- <-.
  rewrite export_project_is_body. unfold export_project_body, try_except.
  rewrite export_project_try_short_circuit by exact (Hfile eq_refl).
  eexists. split; [reflexivity|]. repeat split; reflexivity.
Qed.

(** ** Statistics of a batch *)

Lemma count_true_false results :
  count_true results + count_false results = Z.of_nat (length results).
Proof.
  unfold count_true, count_false.
  induction results as [|[] rs IH]; cbn [List.filter negb length]; lia.
Qed.

Lemma export_batch_counts remote export_dir projects : forall w,
  exists results w',
    export_batch remote export_dir projects w = (Return results, w')
    /\ length results = length projects
    /\ projects_exported (stats w')
       = projects_exported (stats w) + count_true results
    /\ projects_failed (stats w')
       = projects_failed (stats w) + count_false results.
Proof.
  induction projects as [|p ps IH]; intros w.
  - exists [], w. cbn. repeat split; unfold count_true, count_false; cbn; lia.
  - cbn [export_batch]. unfold bind at 1.
    destruct (export_project_post remote export_dir p w)
      as (b & w1 & Hrun & Heff & _).
    rewrite Hrun. unfold bind at 1.
    destruct (IH w1) as (rs & w2 & Hrest & Hlen & He & Hf).
    rewrite Hrest. cbn [ret].
    exists (b :: rs), w2. split; [reflexivity|].
    split; [cbn; now rewrite Hlen|].
    unfold counts in Heff. unfold count_true, count_false in *.
    inversion Heff; subst; cbn [List.filter negb length]; split; lia.
Qed.

Lemma success_rate_value (s : ExportStats) :
  0 < projects_exported s + projects_failed s ->
  success_rate s
  = (inject_Z (projects_exported s)
     / inject_Z (projects_exported s + projects_failed s) * 100)%Q.
Proof.
  intros H. unfold success_rate.
  now destruct (Z.ltb_spec 0 (projects_exported s + projects_failed s)); [|lia].
Qed.

Lemma success_rate_zero (s : ExportStats) :
  projects_exported s = 0 -> projects_failed s = 0 -> success_rate s = 0%Q.
Proof. intros He Hf. unfold success_rate. now rewrite He, Hf. Qed.

(** C6. A batch of N jobs that completes, started with both counters at
    zero, ends with [projects_exported + projects_failed = N] (one count per
    job: the jobs that returned [True] and those that returned [False]);
    [success_rate] is then
    [projects_exported / (projects_exported + projects_failed) * 100] when
    that sum is positive and 0 when both counters are 0.  The batch completes
    when [asyncio.gather] returns the results of its jobs; a job that raises
    ends it with that exception and is no part of the statement. *)
Theorem export_batch_statistics remote export_dir projects w results w' :
  projects_exported (stats w) = 0 ->
  projects_failed (stats w) = 0 ->
  export_batch remote export_dir projects w = (Return results, w') ->
  length results = length projects
  /\ projects_exported (stats w') = count_true results
  /\ projects_failed (stats w') = count_false results
  /\ projects_exported (stats w') + projects_failed (stats w')
     = Z.of_nat (length projects)
  /\ (0 < projects_exported (stats w') + projects_failed (stats w') ->
      success_rate (stats w')
      = (inject_Z (projects_exported (stats w'))
         / inject_Z (projects_exported (stats w') + projects_failed (stats w'))
         * 100)%Q)
  /\ (projects_exported (stats w') = 0 -> projects_failed (stats w') = 0 ->
      success_rate (stats w') = 0%Q).
Proof.
  intros He0 Hf0 Hdone.
  destruct (export_batch_counts remote export_dir projects w)
    as (rs & w0 & Hrun & Hlen & He & Hf).
  rewrite Hdone in Hrun. injection Hrun as <- <-.
  rewrite He0 in He. rewrite Hf0 in Hf. cbn in He, Hf.
  repeat split; try assumption.
  - rewrite He, Hf, <- Hlen. apply count_true_false.
  - apply success_rate_value.
  - apply success_rate_zero.
Qed.

Lemma export_batch_statistics_witness :
  let run := export_batch Sample.healthy Sample.export_dir
               [Sample.project; mkProject 8 "grp/lib"]
               (World_init ∅ Sample.no_jitter) in
  fst run = Return [true; true]
  /\ projects_exported (stats (snd run)) + projects_failed (stats (snd run)) = 2
  /\ (success_rate (stats (snd run)) == 100)%Q.
Proof.
  cbv zeta.
  assert (Hrun : export_batch Sample.healthy Sample.export_dir
                   [Sample.project; mkProject 8 "grp/lib"]
                   (World_init ∅ Sample.no_jitter)
                 = (Return [true; true],
                    snd (export_batch Sample.healthy Sample.export_dir
                           [Sample.project; mkProject 8 "grp/lib"]
                           (World_init ∅ Sample.no_jitter))))
    by (vm_compute; reflexivity).
  destruct (export_batch_statistics Sample.healthy Sample.export_dir
              [Sample.project; mkProject 8 "grp/lib"]
              (World_init ∅ Sample.no_jitter) _ _ eq_refl eq_refl Hrun)
    as (_ & _ & _ & Hsum & _).
  split; [rewrite Hrun; reflexivity|]. split; [exact Hsum|].
  vm_compute. reflexivity.
Defined.

(** ** The attempt budget of the poll loop *)

Section PollBudget.
Context (remote : Remote) (project : Project) (export_file : string).

Lemma on_finished_some w r w' :
  on_finished remote project export_file w = (r, w') ->
  exists b, r = Return (Some b).
Proof.
  unfold on_finished, bind. rewrite download_export_is_body.
  destruct (download_export_body_returns remote (id project)
              (path_with_namespace project) export_file w) as (b & w1 & ->).
  destruct b; cbn; intros [= <- _]; eauto.
Qed.

(** The loop runs out only after [n] polls, five seconds apart, none of
    which ended the job. *)
Lemma poll_loop_runs_out n : forall w w',
  poll_loop remote project export_file n w = (Return None, w') ->
  requests w' = (requests w ++ repeat (GetExport (id project)) n)%list
  /\ sleeps w' = (sleeps w ++ repeat 5%Q n)%list.
Proof.
  induction n as [|n IH]; intros w w'.
  { cbn. intros [= <-]. now rewrite !app_nil_r. }
  destruct (poll_step_cases remote project export_file n w)
    as [[e ->] | [-> | [-> | ->]]].
  - discriminate.
  - intros H. destruct (IH _ _ H) as [Hreq Hsl].
    rewrite Hreq, Hsl. cbn. now rewrite <- !app_assoc.
  - intros H. apply on_finished_some in H as [b Hb]. discriminate.
  - cbn. discriminate.
Qed.
End PollBudget.

(** After an accepted trigger, a poll loop that runs out ends the job as
    timed out. *)
Lemma export_project_timeout remote export_dir project w status w2 :
  let export_file := export_file_of export_dir (path_with_namespace project) in
  fs w !! export_file = None ->
  post_export remote (requests w) (id project) = Return status ->
  status = 200 \/ status = 202 ->
  poll_loop remote project export_file max_attempts (posted project w)
  = (Return None, w2) ->
  export_project remote export_dir project w
  = (Return false,
     snd (record_failure project
            (MsgExportTimeout (path_with_namespace project)) w2)).
Proof.
  intros export_file Hfile Hpost Hstatus Hpoll.
  rewrite export_project_is_body.
  unfold export_project_body, try_except, export_project_try.
  fold export_file. unfold bind at 1, path_exists.
  rewrite bool_decide_eq_false_2 by (rewrite Hfile; now intros [? ?]).
  unfold bind at 1, session_post_export. rewrite Hpost.
  unfold raise_for_status, bind at 1.
  replace (400 <=? status) with false by (destruct Hstatus as [-> | ->]; reflexivity).
  cbn [ret].
  replace (status =? 403) with false by (destruct Hstatus as [-> | ->]; reflexivity).
  replace (negb _) with false by (destruct Hstatus as [-> | ->]; reflexivity).
  unfold bind at 1. unfold posted in Hpoll. rewrite Hpoll. reflexivity.
Qed.

(** C3 (as the code has it). Every poll uses one of the 120 attempts.  A poll
    answered with a status other than 200 is skipped and the loop goes on
    with one attempt fewer; [export_status] "finished" starts the download,
    "failed" records the failure, any other value goes on with one attempt
    fewer.  With no attempt left the loop ends, which it reaches only after
    as many polls, five seconds apart, as it had attempts; after an accepted
    trigger that end is the timeout failure. *)
Theorem poll_loop_attempts remote export_dir project n w response :
  let export_file := export_file_of export_dir (path_with_namespace project) in
  let poll := poll_loop remote project export_file in
  get_export remote (requests w) (id project) = Return response ->
  (poll_status response <> 200 ->
   poll (S n) w = poll n (polled project w))
  /\ (poll_status response = 200 ->
      poll_export_status response = Some "finished" ->
      poll (S n) w = on_finished remote project export_file (polled project w))
  /\ (poll_status response = 200 ->
      poll_export_status response = Some "failed" ->
      poll (S n) w = on_failed project (polled project w))
  /\ (forall s, poll_status response = 200 ->
      poll_export_status response = Some s ->
      s <> "finished" -> s <> "failed" ->
      poll (S n) w = poll n (polled project w))
  /\ poll 0%nat w = (Return None, w)
  /\ (forall w', poll n w = (Return None, w') ->
      requests w' = (requests w ++ repeat (GetExport (id project)) n)%list
      /\ sleeps w' = (sleeps w ++ repeat 5%Q n)%list)
  /\ max_attempts = 120%nat
  /\ (forall w0 status w2,
      fs w0 !! export_file = None ->
      post_export remote (requests w0) (id project) = Return status ->
      status = 200 \/ status = 202 ->
      poll max_attempts (posted project w0) = (Return None, w2) ->
      export_project remote export_dir project w0
      = (Return false,
         snd (record_failure project
                (MsgExportTimeout (path_with_namespace project)) w2))).
Proof.
  intros export_file poll Hget. subst poll.
  split; [intros; eapply poll_step_skip; eauto|].
  split; [intros; eapply poll_step_finished; eauto|].
  split; [intros; eapply poll_step_failed; eauto|].
  split; [intros; eapply poll_step_in_progress; eauto|].
  split; [reflexivity|].
  split; [apply poll_loop_runs_out|].
  split; [reflexivity|].
  intros w0 status w2. apply export_project_timeout.
Qed.

Lemma poll_loop_attempts_witness :
  poll_loop Sample.unavailable Sample.project Sample.export_file 1
    (World_init ∅ Sample.no_jitter)
  = poll_loop Sample.unavailable Sample.project Sample.export_file 0
      (polled Sample.project (World_init ∅ Sample.no_jitter)).
Proof.
  destruct (poll_loop_attempts Sample.unavailable Sample.export_dir
              Sample.project 0 (World_init ∅ Sample.no_jitter)
              (mkPoll 503 None) eq_refl) as [Hskip _].
  apply Hskip. cbn. discriminate.
Defined.

(** C3 as stated fails: with one attempt left, a poll answered 503 ends the
    loop, where a loop that still had its attempt would poll again; and a
    remote that answers every poll with 503 makes the job time out after
    exactly 120 polls, ten minutes of sleep, none of them answered 200. *)
Lemma poll_non200_uses_attempt :
  let w := World_init ∅ Sample.no_jitter in
  let poll := poll_loop Sample.unavailable Sample.project Sample.export_file in
  get_export Sample.unavailable (requests w) 7 = Return (mkPoll 503 None)
  /\ poll 1%nat w = (Return None, polled Sample.project w)
  /\ poll 1%nat w <> poll 1%nat (polled Sample.project w)
  /\ let run := export_project Sample.unavailable Sample.export_dir
                  Sample.project w in
     fst run = Return false
     /\ requests (snd run) = PostExport 7 :: repeat (GetExport 7) 120
     /\ sleeps (snd run) = repeat 5%Q 120
     /\ log_entries (snd run) = [(ERROR, MsgExportTimeout "grp/app")].
Proof.
  cbv zeta. split; [reflexivity|]. split; [reflexivity|].
  split.
  - intros H. apply (f_equal (fun r => length (requests (snd r)))) in H.
    vm_compute in H. discriminate.
  - vm_compute. repeat split.
Qed.

(** ** Pagination *)

Lemma fetch_page_returns remote page projects w :
  exists ctl w', fetch_page remote page projects w = (Return ctl, w').
Proof.
  unfold fetch_page, try_except.
  match goal with |- context [match ?m w with _ => _ end] =>
    destruct (m w) as [[ctl|e] w1] end; eauto.
Qed.

(** With its log lines written, the fetcher returns: what a request raises
    is caught inside the loop. *)
Lemma get_all_projects_loop_returns remote fuel : forall page projects w,
  exists r w',
    get_all_projects_loop remote fuel page projects w = (Return r, w').
Proof.
  induction fuel as [|fuel IH]; intros page projects w; cbn [get_all_projects_loop].
  - eexists _, _. reflexivity.
  - unfold bind.
    destruct (fetch_page_returns remote page projects w) as (ctl & w1 & ->).
    destruct ctl as [result|page' projects']; [eexists _, _; reflexivity|].
    apply IH.
Qed.

Lemma fetch_page_refused remote page projects w r :
  get_projects remote (requests w) page = Return r ->
  page_status r <> 200 ->
  fetch_page remote page projects w
  = (Return (Break projects),
     snd (log ERROR (MsgFailedFetchPage page (page_status r))
            (record_request (GetProjects page) w))).
Proof.
  intros Hget Hs. unfold fetch_page, try_except, bind at 1, session_get_projects.
  rewrite Hget. destruct (Z.eqb_spec (page_status r) 200); [contradiction|].
  reflexivity.
Qed.

Lemma fetch_page_last remote page projects w r items :
  get_projects remote (requests w) page = Return r ->
  page_status r = 200 ->
  page_items r = Some items ->
  items = [] \/ page_next r = HeaderAbsent \/ page_next r = HeaderEmpty ->
  fetch_page remote page projects w
  = (Return (Break (projects ++ items)%list), record_request (GetProjects page) w).
Proof.
  intros Hget Hs Hitems Hlast.
  unfold fetch_page, try_except, bind at 1, session_get_projects.
  rewrite Hget, Hs, Hitems. cbn.
  destruct items as [|item items]; [now rewrite app_nil_r|].
  destruct Hlast as [?|[-> | ->]]; [discriminate| |]; reflexivity.
Qed.

Lemma fetch_page_next remote page projects w r item items next :
  get_projects remote (requests w) page = Return r ->
  page_status r = 200 ->
  page_items r = Some (item :: items) ->
  page_next r = HeaderInt next ->
  fetch_page remote page projects w
  = (Return (Continue next (projects ++ item :: items)%list),
     record_request (GetProjects page) w).
Proof.
  intros Hget Hs Hitems Hnext.
  unfold fetch_page, try_except, bind at 1, session_get_projects.
  rewrite Hget, Hs, Hitems. cbn. now rewrite Hnext.
Qed.

Lemma get_all_projects_loop_chain remote pages : forall page projects w fuel,
  page_chain remote (requests w) page pages ->
  (length pages <= fuel)%nat ->
  exists w',
    get_all_projects_loop remote fuel page projects w
    = (Return (Some (projects ++ concat (map page_yield pages))%list), w')
    /\ length (requests w') = (length (requests w) + length pages)%nat
    /\ backoff_trace w' = backoff_trace w.
Proof.
  induction pages as [|r rest IH]; intros page projects w fuel Hchain Hfuel;
    [inversion Hchain|].
  destruct fuel as [|fuel]; [cbn in Hfuel; lia|].
  cbn [get_all_projects_loop]. unfold bind.
  inversion Hchain as [h pg r0 items Hget Hs Hitems Hlast
                      |h pg r0 Hget Hs
                      |h pg r0 item items next rest0 Hget Hs Hitems Hnext Hrest];
    subst.
  - rewrite (fetch_page_last _ _ _ _ _ _ Hget Hs Hitems Hlast).
    eexists. split.
    { cbn. unfold page_yield. rewrite Hs, Hitems. cbn. now rewrite app_nil_r. }
    split; [|reflexivity]. cbn. rewrite length_app. reflexivity.
  - rewrite (fetch_page_refused _ _ _ _ _ Hget Hs).
    eexists. split.
    { cbn. unfold page_yield.
      destruct (Z.eqb_spec (page_status r) 200); [contradiction|].
      now rewrite app_nil_r. }
    split; [|reflexivity]. cbn. rewrite length_app. reflexivity.
  - rewrite (fetch_page_next _ _ _ _ _ _ _ _ Hget Hs Hitems Hnext).
    destruct (IH next (projects ++ item :: items)%list
                (record_request (GetProjects page) w) fuel Hrest)
      as (w' & Hrun & Hreq & Hback); [cbn in Hfuel; lia|].
    exists w'. rewrite Hrun. split; [|split].
    + cbn. unfold page_yield at 2. rewrite Hs, Hitems. cbn.
      now rewrite <- app_assoc.
    + rewrite Hreq. cbn. rewrite length_app. cbn. lia.
    + exact Hback.
Qed.

(** C7 (as the code has it). When the pages come as a chain whose last page
    is empty, has no next-page header or is refused, the fetcher stops after
    one request per page, without raising, and returns the items of all the
    pages answered 200 in order, the last page's items included; the count is
    the sum of those page sizes.  When the last page yields nothing (empty or
    refused) that is the concatenation of the pages before it. *)
Theorem get_all_projects_pages remote w pages fuel :
  page_chain remote (requests w) 1 pages ->
  (length pages <= fuel)%nat ->
  exists w',
    get_all_projects remote fuel w
    = (Return (Some (concat (map page_yield pages))), w')
    /\ length (concat (map page_yield pages))
       = list_sum (map (fun r => length (page_yield r)) pages)
    /\ length (requests w') = (length (requests w) + length pages)%nat
    /\ (forall front final,
          pages = (front ++ [final])%list -> page_yield final = [] ->
          concat (map page_yield pages) = concat (map page_yield front)).
Proof.
  intros Hchain Hfuel.
  destruct (get_all_projects_loop_chain remote pages 1 [] w fuel Hchain Hfuel)
    as (w' & Hrun & Hreq & _).
  exists w'. split; [exact Hrun|]. split; [|split; [exact Hreq|]].
  - rewrite length_concat, map_map. reflexivity.
  - intros front final -> Hfinal.
    rewrite map_app, concat_app. cbn. rewrite Hfinal. cbn.
    now rewrite app_nil_r.
Qed.

Lemma get_all_projects_pages_witness :
  exists w',
    get_all_projects Sample.two_pages 2 (World_init ∅ Sample.no_jitter)
    = (Return (Some [Sample.project; Sample.library; Sample.docs]), w')
    /\ length (requests w') = 2%nat.
Proof.
  destruct (get_all_projects_pages Sample.two_pages
              (World_init ∅ Sample.no_jitter)
              [Sample.first_page; Sample.second_page] 2)
    as (w' & Hrun & _ & Hreq & _).
  - eapply chain_next; try reflexivity.
    eapply chain_last; try reflexivity. right; left; reflexivity.
  - cbn; lia.
  - exists w'. split; [exact Hrun|exact Hreq].
Defined.

(** C7 as stated fails: the second and last page has no next-page header and
    one item; the fetcher returns that item too, three items where the pages
    before the last hold two. *)
Lemma last_page_items_kept :
  let pages := [Sample.first_page; Sample.second_page] in
  let run := get_all_projects Sample.two_pages 2
               (World_init ∅ Sample.no_jitter) in
  page_chain Sample.two_pages [] 1 pages
  /\ page_next Sample.second_page = HeaderAbsent
  /\ fst run = Return (Some [Sample.project; Sample.library; Sample.docs])
  /\ concat (map page_yield (removelast pages))
     = [Sample.project; Sample.library]
  /\ fst run <> Return (Some (concat (map page_yield (removelast pages))))
  /\ length [Sample.project; Sample.library; Sample.docs]
     <> list_sum (map (fun r => length (page_yield r)) (removelast pages)).
Proof.
  cbv zeta. split.
  { eapply chain_next; try reflexivity.
    eapply chain_last; try reflexivity. right; left; reflexivity. }
  repeat split; try reflexivity; vm_compute; discriminate.
Qed.

(** ** Calls that are not retried with backoff *)

(** C8 (as the code has it). The decorator wraps [export_project] and
    [download_export], each as a whole, and nothing else.  The page fetch and
    the status poll are outside the backoff: a page answered 429 is a page
    with a status other than 200, which is logged and ends the fetch with the
    items gathered so far after that single request, with no sleep and no
    retry counted; a poll answered 429 is skipped like any other non-200
    poll, the next one follows after the usual five seconds and uses one
    attempt, and no retry is counted.  The two parts stand each for itself,
    whatever the remote does elsewhere. *)
Theorem unwrapped_calls_on_429 :
  (forall remote export_dir project,
      export_project remote export_dir project
      = async_retry_with_backoff default_retries default_backoff
          (export_project_body remote export_dir project))
  /\ (forall remote project_id project_path export_file,
        download_export remote project_id project_path export_file
        = async_retry_with_backoff default_retries default_backoff
            (download_export_body remote project_id project_path export_file))
  /\ (forall remote page projects fuel w response,
        get_projects remote (requests w) page = Return response ->
        page_status response = 429 ->
        exists w',
          get_all_projects_loop remote (S fuel) page projects w
          = (Return (Some projects), w')
          /\ requests w' = (requests w ++ [GetProjects page])%list
          /\ log_entries w'
             = (log_entries w ++ [(ERROR, MsgFailedFetchPage page 429)])%list
          /\ backoff_trace w' = backoff_trace w)
  /\ (forall remote project export_file n w poll_answer,
        get_export remote (requests w) (id project) = Return poll_answer ->
        poll_status poll_answer = 429 ->
        poll_loop remote project export_file (S n) w
        = poll_loop remote project export_file n (polled project w)
        /\ requests (polled project w)
           = (requests w ++ [GetExport (id project)])%list
        /\ sleeps (polled project w) = (sleeps w ++ [5%Q])%list
        /\ retry_count (polled project w) = retry_count w).
Proof.
  split; [reflexivity|]. split; [reflexivity|]. split.
  - intros remote page projects fuel w response Hpage Hs.
    cbn [get_all_projects_loop]. unfold bind.
    rewrite (fetch_page_refused _ _ _ _ _ Hpage) by (rewrite Hs; discriminate).
    rewrite Hs. eexists. split; [reflexivity|]. repeat split.
  - intros remote project export_file n w poll_answer Hpoll Hps.
    split; [|repeat split].
    eapply poll_step_skip; [exact Hpoll|]. rewrite Hps. discriminate.
Qed.

Lemma unwrapped_calls_on_429_witness :
  poll_loop Sample.throttled Sample.project Sample.export_file 1
    (World_init ∅ Sample.no_jitter)
  = poll_loop Sample.throttled Sample.project Sample.export_file 0
      (polled Sample.project (World_init ∅ Sample.no_jitter))
  /\ exists w',
       get_all_projects_loop Sample.throttled 1 1 []
         (World_init ∅ Sample.no_jitter)
       = (Return (Some []), w')
       /\ requests w' = [GetProjects 1]
       /\ log_entries w' = [(ERROR, MsgFailedFetchPage 1 429)].
Proof.
  destruct unwrapped_calls_on_429 as (_ & _ & Hpage & Hpoll).
  destruct (Hpage Sample.throttled 1 [] 0%nat (World_init ∅ Sample.no_jitter)
              (mkPage 429 None HeaderAbsent) eq_refl eq_refl)
    as (w' & Hrun & Hreq & Hlog & _).
  destruct (Hpoll Sample.throttled Sample.project Sample.export_file 0%nat
              (World_init ∅ Sample.no_jitter) (mkPoll 429 None)
              eq_refl eq_refl) as (Hskip & _).
  split; [exact Hskip|]. exists w'.
  split; [exact Hrun|]. split; [exact Hreq|exact Hlog].
Defined.

(** C8 as stated fails: the listing is answered 429 and the fetch ends there,
    having sent one request, slept for nothing and counted no retry. *)
Lemma page_fetch_429_not_retried :
  let run := get_all_projects Sample.throttled 6
               (World_init ∅ Sample.no_jitter) in
  get_projects Sample.throttled [] 1 = Return (mkPage 429 None HeaderAbsent)
  /\ fst run = Return (Some [])
  /\ requests (snd run) = [GetProjects 1]
  /\ sleeps (snd run) = []
  /\ retries (stats (snd run)) = 0
  /\ log_entries (snd run) = [(ERROR, MsgFailedFetchPage 1 429)].
Proof. vm_compute. repeat split. Qed.

(** ** The download semaphore *)

Lemma slots_insert (js : list job) i j j' :
  js !! i = Some j ->
  (list_sum (map slot_of (<[i := j']> js)) + slot_of j
   = list_sum (map slot_of js) + slot_of j')%nat.
Proof.
  unfold list_sum. revert i.
  induction js as [|a js IH]; intros [|i] H; try discriminate.
  - injection H as ->.
    change (<[0%nat:=j']> (j :: js)) with (j' :: js).
    cbn [map fold_right]. lia.
  - specialize (IH i H).
    change (<[S i:=j']> (a :: js)) with (a :: <[i:=j']> js).
    cbn [map fold_right]. lia.
Qed.

Lemma slots_replicate n j :
  slot_of j = 0%nat -> list_sum (map slot_of (replicate n j)) = 0%nat.
Proof.
  intros H. unfold list_sum.
  induction n as [|n IH]; cbn [replicate map fold_right]; lia.
Qed.

Lemma job_move_ledger j next released :
  job_move (pc j) next released ->
  job_ledger j ->
  slot_of j = 1%nat
  /\ (if released
      then slot_of (mkJob next (acquires j) (S (releases j))) = 0%nat
           /\ job_ledger (mkJob next (acquires j) (S (releases j)))
      else slot_of (mkJob next (acquires j) (releases j)) = 1%nat
           /\ job_ledger (mkJob next (acquires j) (releases j))).
Proof.
  unfold job_ledger, slot_of. destruct j as [p a r]; cbn.
  intros Hmove. inversion Hmove; subst; cbn; intros [-> ->]; auto.
Qed.

Lemma pool_step_inv limit n_projects p p' :
  pool_inv limit n_projects p -> pool_step p p' ->
  pool_inv limit n_projects p'.
Proof.
  intros (Hlen & Hsem & Hall) Hstep. unfold pool_inv.
  destruct Hstep as [v js i j Hi Hpc | v js i j next Hi Hmove
                    | v js i j next Hi Hmove];
    cbn [jobs sem_value] in *; unfold holding in *; cbn [jobs] in *.
  - pose proof (slots_insert js i j (mkJob Entered (S (acquires j)) (releases j)) Hi) as Hs.
    pose proof (proj1 (Forall_lookup _ _) Hall i j Hi) as Hj.
    unfold job_ledger in Hj. rewrite Hpc in Hj. destruct Hj as [Ha Hr].
    assert (slot_of j = 0%nat) as H0 by (unfold slot_of; now rewrite Hpc).
    change (slot_of (mkJob Entered (S (acquires j)) (releases j))) with 1%nat in Hs.
    split; [now rewrite length_insert|]. split; [lia|].
    apply Forall_insert; [exact Hall|].
    unfold job_ledger; cbn. now rewrite Ha, Hr.
  - pose proof (slots_insert js i j (mkJob next (acquires j) (releases j)) Hi) as Hs.
    pose proof (proj1 (Forall_lookup _ _) Hall i j Hi) as Hj.
    destruct (job_move_ledger j next false Hmove Hj) as (H1 & H1' & Hl).
    split; [now rewrite length_insert|]. split; [lia|].
    now apply Forall_insert.
  - pose proof (slots_insert js i j (mkJob next (acquires j) (S (releases j))) Hi) as Hs.
    pose proof (proj1 (Forall_lookup _ _) Hall i j Hi) as Hj.
    destruct (job_move_ledger j next true Hmove Hj) as (H1 & H0 & Hl).
    split; [now rewrite length_insert|]. split; [lia|].
    now apply Forall_insert.
Qed.

Lemma pool_init_inv limit n_projects :
  pool_inv limit n_projects (Pool_init limit n_projects).
Proof.
  unfold pool_inv, Pool_init, holding; cbn.
  split; [apply length_replicate|]. split.
  - rewrite slots_replicate by reflexivity. lia.
  - apply Forall_replicate. unfold job_ledger; cbn. auto.
Qed.

Lemma pool_reachable_inv limit n_projects p :
  pool_reachable limit n_projects p -> pool_inv limit n_projects p.
Proof.
  induction 1 as [|p p' _ IH Hstep]; [apply pool_init_inv|].
  eapply pool_step_inv; eauto.
Qed.

(** C9. In every state the batch can reach, the jobs inside
    [async with semaphore] number at most the limit (with the free slots they
    add up to it), and a job that is inside, at the trigger, at any poll
    attempt or at the download, has acquired its slot once and not released
    it; a waiting job has acquired nothing and a finished one has released
    the one slot it had. *)
Theorem download_slots_bounded limit n_projects p :
  pool_reachable limit n_projects p ->
  (holding p <= limit)%nat
  /\ (sem_value p + holding p = limit)%nat
  /\ length (jobs p) = n_projects
  /\ forall i j, jobs p !! i = Some j ->
       match pc j with
       | Waiting => acquires j = 0%nat /\ releases j = 0%nat
       | Entered | Polling _ | Downloading =>
           acquires j = 1%nat /\ releases j = 0%nat
       | Finished _ => acquires j = 1%nat /\ releases j = 1%nat
       end.
Proof.
  intros Hreach. destruct (pool_reachable_inv _ _ _ Hreach) as (Hlen & Hsem & Hall).
  split; [lia|]. split; [exact Hsem|]. split; [exact Hlen|].
  intros i j Hi. exact (proj1 (Forall_lookup _ _) Hall i j Hi).
Qed.

(** With no free slot a waiting job cannot enter. *)
Lemma pool_full_blocks js js' v' i j :
  js !! i = Some j -> pc j = Waiting ->
  pool_step (mkPool 0 js) (mkPool v' js') ->
  js' !! i = Some j.
Proof.
  intros Hi Hpc Hstep. inversion Hstep as [| v js0 k jk next Hk Hmove
                                          | v js0 k jk next Hk Hmove]; subst.
  - destruct (decide (k = i)) as [->|Hne].
    + rewrite Hi in Hk. injection Hk as <-. rewrite Hpc in Hmove. inversion Hmove.
    + now rewrite list_lookup_insert_ne.
  - destruct (decide (k = i)) as [->|Hne].
    + rewrite Hi in Hk. injection Hk as <-. rewrite Hpc in Hmove. inversion Hmove.
    + now rewrite list_lookup_insert_ne.
Qed.

Lemma download_slots_bounded_witness :
  (holding (mkPool 0 [mkJob (Polling 1) 1 0; mkJob Waiting 0 0]) <= 1)%nat.
Proof.
  pose (waiting := mkJob Waiting 0 0).
  pose proof (reach_init 1 2) as R0.
  pose proof (reach_step 1 2 _ _ R0
                (step_acquire 0 [waiting; waiting] 0%nat waiting
                   eq_refl eq_refl)) as R1.
  pose proof (reach_step 1 2 _ _ R1
                (step_inside 0 [mkJob Entered 1 0; waiting] 0%nat
                   (mkJob Entered 1 0) (Polling 0) eq_refl
                   move_trigger_ok)) as R2.
  pose proof (reach_step 1 2 _ _ R2
                (step_inside 0 [mkJob (Polling 0) 1 0; waiting] 0%nat
                   (mkJob (Polling 0) 1 0) (Polling 1) eq_refl
                   (move_poll_again 0 ltac:(unfold max_attempts; lia)))) as R3.
  exact (proj1 (download_slots_bounded 1 2 _ R3)).
Defined.

(** ** [run_export] and its locals *)

Lemma run_instance_skips fuel dl api env st :
  env_connects env = false ->
  run_instance fuel dl api env st = Some (Return tt, st).
Proof. intros H. unfold run_instance. now rewrite H. Qed.

Lemma run_instance_unbound fuel dl api env st :
  env_connects env = true ->
  api_semaphore (locals st) = None ->
  run_instance fuel dl api env st
  = Some (Raise (UnboundLocalError "api_semaphore"),
          mkRun (locals st) (connected st ++ [env_name env])%list
            (page_fetches st) (jobs_created st) (reports st)).
Proof.
  intros Hc Hl. unfold run_instance. rewrite Hc. cbn. now rewrite Hl.
Qed.

(** C10. [api_semaphore] has no value when the project list is fetched: the
    first selected instance that connects ends [run_export] with an
    [UnboundLocalError] for [api_semaphore], before any page of its project
    list is requested and before any export job is created; the instances
    after it are not processed. *)
Theorem run_export_unbound_api_semaphore fuel dl api before env after :
  Forall (fun e => env_connects e = false) before ->
  env_connects env = true ->
  run_export fuel dl api (before ++ env :: after)
  = Some (Raise (UnboundLocalError "api_semaphore"),
          mkRun (mkLocals None None) [env_name env] 0 0 []).
Proof.
  intros Hbefore Henv. unfold run_export.
  induction Hbefore as [|e before He _ IH]; cbn [app run_instances].
  - now rewrite run_instance_unbound.
  - now rewrite run_instance_skips.
Qed.

(** Whatever the instances do, [run_export] creates no export job. *)
Lemma run_export_creates_no_job fuel dl api selected :
  exists r st n,
    run_export fuel dl api selected = Some (r, st)
    /\ jobs_created st = 0%nat
    /\ page_fetches st = 0%nat
    /\ reports st = []
    /\ (r = Return tt \/ r = Raise (UnboundLocalError "api_semaphore"))
    /\ length (connected st) = n /\ (n <= 1)%nat.
Proof.
  unfold run_export.
  induction selected as [|env rest IH]; cbn [run_instances].
  - exists (Return tt), RunState_init, 0%nat. cbn. repeat split; auto.
  - destruct (env_connects env) eqn:Hc.
    + rewrite run_instance_unbound by (assumption || reflexivity).
      eexists _, _, 1%nat. split; [reflexivity|]. cbn. repeat split; auto.
    + rewrite run_instance_skips by assumption. exact IH.
Qed.

Lemma run_export_unbound_api_semaphore_witness :
  exists st,
    run_export 5 5 10 [Sample.offline; Sample.online; Sample.online]
    = Some (Raise (UnboundLocalError "api_semaphore"), st)
    /\ jobs_created st = 0%nat.
Proof.
  eexists. split.
  - apply (run_export_unbound_api_semaphore 5 5 10
             [Sample.offline] Sample.online [Sample.online]).
    + repeat constructor.
    + reflexivity.
  - reflexivity.
Defined.

(** With [api_semaphore] holding a value the same round lists the projects
    and creates one job for each: the code after the failing line is live. *)
Lemma run_instance_with_semaphore :
  let st := mkRun (mkLocals None (Some 10%nat)) [] 0 0 [] in
  exists st',
    run_instance 5 5 10 Sample.online st = Some (Return tt, st')
    /\ jobs_created st' = 3%nat
    /\ page_fetches st' = 2%nat
    /\ locals st' = mkLocals (Some 5%nat) (Some 10%nat).
Proof. vm_compute. eexists. repeat split. Qed.

(** * Further properties *)

(** ** The retry decorator at work *)

Lemma wrapper_loop_limited {A} n_retries base until r (v : A) k :
  forall x w fuel,
  (length (requests w) + k = until)%nat ->
  (x + k <= n_retries)%nat ->
  (k < fuel)%nat ->
  exists w',
    wrapper_loop n_retries base (limited_until until r v) fuel x w
    = Some (Return v, w')
    /\ requests w' = (requests w ++ repeat r (S k))%list
    /\ retries (stats w') = retries (stats w) + Z.of_nat k
    /\ sleeps w'
       = (sleeps w
          ++ map (fun i => backoff_delay base
                             (fun t => rng w (rng_pos w + (t - x))%nat) (x + i)%nat)
                 (seq 0 k))%list
    /\ rng w' = rng w /\ rng_pos w' = (rng_pos w + k)%nat.
Proof.
  induction k as [|k IH]; intros x w fuel Hlen Hx Hfuel;
    (destruct fuel as [|fuel]; [lia|]).
  - cbn [wrapper_loop]. unfold limited_until at 1.
    destruct (Nat.ltb_spec (length (requests w)) until); [lia|].
    eexists. split; [reflexivity|]. cbn.
    repeat split; try lia. now rewrite app_nil_r.
  - erewrite wrapper_loop_retry; [| |lia].
    2: { unfold limited_until.
         destruct (Nat.ltb_spec (length (requests w)) until); [reflexivity|lia]. }
    match goal with |- context [wrapper_loop _ _ _ _ _ ?w1] => set (w1' := w1) end.
    destruct (IH (S x) w1' fuel) as (w' & Hrun & Hreq & Hret & Hsl & Hrng & Hpos).
    { subst w1'. cbn. rewrite length_app. cbn. lia. }
    { lia. }
    { lia. }
    exists w'. split; [exact Hrun|]. subst w1'.
    cbn in Hreq, Hret, Hsl, Hrng, Hpos |- *.
    repeat split.
    + rewrite Hreq, <- app_assoc. reflexivity.
    + lia.
    + rewrite Hsl, <- app_assoc. f_equal. cbn. f_equal.
      * unfold backoff_delay. rewrite Nat.add_0_r, Nat.sub_diag, Nat.add_0_r.
        reflexivity.
      * rewrite <- seq_shift, map_map. apply map_ext. intros i.
        unfold backoff_delay.
        replace (S (x + i))%nat with (x + S i)%nat by lia.
        f_equal. f_equal. lia.
    + exact Hrng.
    + lia.
Qed.

(** X1. An operation answered 429 on its first [k] attempts, [k] at most
    [retries], is tried [k + 1] times and its result returned: the wrapper
    sleeps [base * 2^i] plus the [i]-th jitter draw before retry [i] and
    counts [k] retries. *)
Theorem retry_recovers {A} n_retries base r (v : A) k w :
  (k <= n_retries)%nat ->
  exists w',
    async_retry_with_backoff n_retries base
      (limited_until (length (requests w) + k) r v) w
    = (Return v, w')
    /\ requests w' = (requests w ++ repeat r (S k))%list
    /\ retries (stats w') = retries (stats w) + Z.of_nat k
    /\ sleeps w'
       = (sleeps w ++ map (backoff_delay base (jitter_of w)) (seq 0 k))%list.
Proof.
  intros Hk.
  destruct (wrapper_loop_limited n_retries base (length (requests w) + k)%nat
              r v k 0%nat w (S n_retries) eq_refl ltac:(lia) ltac:(lia))
    as (w' & Hrun & Hreq & Hret & Hsl & _).
  exists w'. unfold async_retry_with_backoff. rewrite Hrun.
  repeat split; try assumption.
  rewrite Hsl. f_equal. apply map_ext. intros i. unfold backoff_delay, jitter_of.
  cbn. now rewrite Nat.sub_0_r.
Qed.

Lemma retry_recovers_witness :
  exists w',
    async_retry_with_backoff 5 1%Q (limited_until 2 (GetExport 7) true)
      (World_init ∅ Sample.no_jitter)
    = (Return true, w')
    /\ requests w' = [GetExport 7; GetExport 7; GetExport 7]
    /\ sleeps w'
       = map (backoff_delay 1 (jitter_of (World_init ∅ Sample.no_jitter)))
             [0; 1]%nat.
Proof.
  destruct (retry_recovers 5 1%Q (GetExport 7) true 2
              (World_init ∅ Sample.no_jitter) ltac:(lia))
    as (w' & Hrun & Hreq & _ & Hsl).
  exists w'. repeat split; assumption.
Defined.

Lemma wrapper_loop_exhausted {A} n_retries base until r (v : A) d :
  forall x w,
  (x + d = n_retries)%nat ->
  (length (requests w) + d < until)%nat ->
  exists w',
    wrapper_loop n_retries base (limited_until until r v) (S d) x w
    = Some (Raise (ClientResponseError 429), w')
    /\ requests w' = (requests w ++ repeat r (S d))%list
    /\ retries (stats w') = retries (stats w) + Z.of_nat d
    /\ sleeps w'
       = (sleeps w
          ++ map (fun i => backoff_delay base
                             (fun t => rng w (rng_pos w + (t - x))%nat) (x + i)%nat)
                 (seq 0 d))%list
    /\ rng w' = rng w /\ rng_pos w' = (rng_pos w + d)%nat.
Proof.
  induction d as [|d IH]; intros x w Hx Hlen.
  - erewrite wrapper_loop_give_up; [| |lia].
    2: { unfold limited_until.
         destruct (Nat.ltb_spec (length (requests w)) until); [reflexivity|lia]. }
    eexists; split; [reflexivity|]. cbn.
    repeat split; try lia. now rewrite app_nil_r.
  - erewrite wrapper_loop_retry; [| |lia].
    2: { unfold limited_until.
         destruct (Nat.ltb_spec (length (requests w)) until); [reflexivity|lia]. }
    match goal with |- context [wrapper_loop _ _ _ _ _ ?w1] => set (w1' := w1) end.
    destruct (IH (S x) w1') as (w' & Hrun & Hreq & Hret & Hsl & Hrng & Hpos).
    { lia. }
    { subst w1'. cbn. rewrite length_app. cbn. lia. }
    exists w'. split; [exact Hrun|]. subst w1'.
    cbn in Hreq, Hret, Hsl, Hrng, Hpos |- *.
    repeat split.
    + rewrite Hreq, <- app_assoc. reflexivity.
    + lia.
    + rewrite Hsl, <- app_assoc. f_equal. cbn. f_equal.
      * unfold backoff_delay. rewrite Nat.add_0_r, Nat.sub_diag, Nat.add_0_r.
        reflexivity.
      * rewrite <- seq_shift, map_map. apply map_ext. intros i.
        unfold backoff_delay.
        replace (S (x + i))%nat with (x + S i)%nat by lia.
        f_equal. f_equal. lia.
    + exact Hrng.
    + lia.
Qed.

(** X2. An operation answered 429 on more attempts than [retries] is given
    up after [retries + 1] attempts, even when one more attempt would have
    succeeded: the caller gets the 429 error after [retries] delays and as
    many retries counted. *)
Theorem retry_gives_up {A} n_retries base r (v : A) k w :
  (n_retries < k)%nat ->
  exists w',
    async_retry_with_backoff n_retries base
      (limited_until (length (requests w) + k) r v) w
    = (Raise (ClientResponseError 429), w')
    /\ requests w' = (requests w ++ repeat r (S n_retries))%list
    /\ retries (stats w') = retries (stats w) + Z.of_nat n_retries
    /\ sleeps w'
       = (sleeps w
          ++ map (backoff_delay base (jitter_of w)) (seq 0 n_retries))%list.
Proof.
  intros Hk.
  destruct (wrapper_loop_exhausted n_retries base (length (requests w) + k)%nat
              r v n_retries 0%nat w eq_refl ltac:(lia))
    as (w' & Hrun & Hreq & Hret & Hsl & _).
  exists w'. unfold async_retry_with_backoff. rewrite Hrun.
  repeat split; try assumption.
  rewrite Hsl. f_equal. apply map_ext. intros i. unfold backoff_delay, jitter_of.
  cbn. now rewrite Nat.sub_0_r.
Qed.

Lemma retry_gives_up_witness :
  exists w',
    async_retry_with_backoff 5 1%Q (limited_until 6 (GetExport 7) true)
      (World_init ∅ Sample.no_jitter)
    = (Raise (ClientResponseError 429), w')
    /\ requests w' = repeat (GetExport 7) 6
    /\ retries (stats w') = 5.
Proof.
  destruct (retry_gives_up 5 1%Q (GetExport 7) true 6
              (World_init ∅ Sample.no_jitter) ltac:(lia))
    as (w' & Hrun & Hreq & Hret & _).
  exists w'. repeat split; assumption.
Defined.

(** Whatever is not a 429 error goes through the wrapper untouched: a
    returned value, an error response with another status and any other
    exception are the operation's own result after one attempt, with nothing
    slept and no retry counted. *)
Theorem retry_transparent {A} n_retries base (f : M A) w :
  fst (f w) <> Raise (ClientResponseError 429) ->
  async_retry_with_backoff n_retries base f w = f w.
Proof.
  intros Hnot. unfold async_retry_with_backoff. cbn [wrapper_loop].
  destruct (f w) as [[a|e] w1]; [reflexivity|].
  destruct e as [status| | |name]; try reflexivity.
  destruct (Z.eqb_spec status 429) as [->|]; [|reflexivity].
  now contradiction Hnot.
Qed.

Lemma retry_transparent_witness :
  @async_retry_with_backoff bool 5 1%Q
    (fun w => (Raise (ClientResponseError 503), record_request (GetExport 7) w))
    (World_init ∅ Sample.no_jitter)
  = (Raise (ClientResponseError 503),
     record_request (GetExport 7) (World_init ∅ Sample.no_jitter)).
Proof.
  apply (@retry_transparent bool 5 1%Q
           (fun w => (Raise (ClientResponseError 503),
                      record_request (GetExport 7) w))).
  cbn. discriminate.
Defined.

(** ** How long the wrapper sleeps *)

Lemma pow2_succ_Q k :
  (inject_Z (2 ^ Z.of_nat (S k)) == 2 * inject_Z (2 ^ Z.of_nat k))%Q.
Proof.
  rewrite Nat2Z.inj_succ, Z.pow_succ_r by lia.
  now rewrite inject_Z_mult.
Qed.

Lemma pow2_ge_1_Q k : (1 <= inject_Z (2 ^ Z.of_nat k))%Q.
Proof.
  change 1%Q with (inject_Z 1). rewrite <- Zle_Qle.
  pose proof (Z.pow_pos_nonneg 2 (Z.of_nat k)). lia.
Qed.

(** With a base of at least one second and jitter in [0, 1), each delay is
    longer than the one before it. *)
Lemma backoff_delay_increasing base jitter k :
  (1 <= base)%Q ->
  (forall i, (0 <= jitter i)%Q /\ (jitter i < 1)%Q) ->
  (backoff_delay base jitter k < backoff_delay base jitter (S k))%Q.
Proof.
  intros Hbase Hj. unfold backoff_delay. rewrite pow2_succ_Q.
  pose proof (pow2_ge_1_Q k) as Hp.
  destruct (Hj k) as [_ Hk1]. destruct (Hj (S k)) as [Hk0 _].
  set (p := inject_Z (2 ^ Z.of_nat k)) in *.
  assert (1 <= base * p)%Q by nra.
  lra.
Qed.

(** The delays of a call that is rate limited throughout grow: with a
    base of at least one second and jitter in [0, 1), each delay the wrapper
    sleeps is longer than the one before it. *)
Theorem retry_delays_increase n_retries base r w :
  (1 <= base)%Q ->
  (forall i, (0 <= rng w i)%Q /\ (rng w i < 1)%Q) ->
  exists w' delays,
    async_retry_with_backoff n_retries base (always_rate_limited r) w
    = (Raise (ClientResponseError 429), w')
    /\ sleeps w' = (sleeps w ++ delays)%list
    /\ length delays = n_retries
    /\ forall i earlier later,
         delays !! i = Some earlier -> delays !! S i = Some later ->
         (earlier < later)%Q.
Proof.
  intros Hbase Hj.
  destruct (retry_rate_limited n_retries base r w) as (w' & Hrun & _ & _ & Hsl).
  eexists w', _. split; [exact Hrun|]. split; [exact Hsl|].
  split; [now rewrite length_map, length_seq|].
  intros i earlier later Hi HSi.
  rewrite list_lookup_fmap in Hi, HSi.
  destruct (seq 0 n_retries !! i) as [a|] eqn:Ea; [|discriminate].
  destruct (seq 0 n_retries !! S i) as [b|] eqn:Eb; [|discriminate].
  apply lookup_seq in Ea as [-> _]. apply lookup_seq in Eb as [-> _].
  cbn in Hi, HSi. injection Hi as <-. injection HSi as <-.
  apply backoff_delay_increasing; [exact Hbase|].
  intros k. apply Hj.
Qed.

Lemma retry_delays_increase_witness :
  exists w',
    async_retry_with_backoff default_retries default_backoff
      (always_rate_limited (GetExport 7)) (World_init ∅ Sample.no_jitter)
    = (Raise (ClientResponseError 429), w')
    /\ forall i earlier later,
         sleeps w' !! i = Some earlier -> sleeps w' !! S i = Some later ->
         (earlier < later)%Q.
Proof.
  destruct (retry_delays_increase default_retries default_backoff (GetExport 7)
              (World_init ∅ Sample.no_jitter))
    as (w' & delays & Hrun & Hsl & _ & Hinc).
  - unfold default_backoff. lra.
  - intros i. cbn. unfold Sample.no_jitter. split; lra.
  - exists w'. split; [exact Hrun|]. cbn in Hsl. rewrite Hsl. exact Hinc.
Defined.

Lemma total_delay_app l1 l2 :
  (total_delay (l1 ++ l2) == total_delay l1 + total_delay l2)%Q.
Proof.
  unfold total_delay. induction l1 as [|a l1 IH]; cbn; [lra|].
  rewrite IH. lra.
Qed.

Lemma total_delay_backoff base jitter n :
  (total_delay (map (backoff_delay base jitter) (seq 0 n))
   == base * (inject_Z (2 ^ Z.of_nat n) - 1)
      + total_delay (map jitter (seq 0 n)))%Q.
Proof.
  induction n as [|n IH].
  - cbn [seq map total_delay fold_right].
    change (inject_Z (2 ^ Z.of_nat 0)) with 1%Q. lra.
  - rewrite seq_S, !map_app, !total_delay_app, IH. cbn [map total_delay fold_right].
    unfold backoff_delay. rewrite pow2_succ_Q. cbn [Nat.add]. lra.
Qed.

Lemma total_jitter_bounds jitter n :
  (forall i, (0 <= jitter i)%Q /\ (jitter i < 1)%Q) ->
  (0 <= total_delay (map jitter (seq 0 n)))%Q
  /\ (total_delay (map jitter (seq 0 n)) <= inject_Z (Z.of_nat n))%Q.
Proof.
  intros Hj. induction n as [|n [IH0 IH1]].
  - cbn [seq map total_delay fold_right]. change (inject_Z (Z.of_nat 0)) with 0%Q.
    split; lra.
  - rewrite seq_S, map_app, total_delay_app. cbn [map total_delay fold_right Nat.add].
    rewrite Nat2Z.inj_succ. unfold Z.succ. rewrite inject_Z_plus.
    destruct (Hj n) as [H0 H1]. change (inject_Z 1) with 1%Q. split; lra.
Qed.

(** X3. What a call that is rate limited throughout sleeps in all: the
    [retries] delays add up to [base * (2^retries - 1)] seconds plus the
    jitter, which is less than one second per retry; with the defaults that
    is between 31 and 36 seconds. *)
Theorem retry_total_delay n_retries base r w :
  (forall i, (0 <= rng w i)%Q /\ (rng w i < 1)%Q) ->
  exists w' delays,
    async_retry_with_backoff n_retries base (always_rate_limited r) w
    = (Raise (ClientResponseError 429), w')
    /\ sleeps w' = (sleeps w ++ delays)%list
    /\ length delays = n_retries
    /\ (base * (inject_Z (2 ^ Z.of_nat n_retries) - 1) <= total_delay delays)%Q
    /\ (total_delay delays
        <= base * (inject_Z (2 ^ Z.of_nat n_retries) - 1)
           + inject_Z (Z.of_nat n_retries))%Q.
Proof.
  intros Hj.
  destruct (retry_rate_limited n_retries base r w) as (w' & Hrun & _ & _ & Hsl).
  exists w', (map (backoff_delay base (fun k => rng w (rng_pos w + k)%nat))
                (seq 0 n_retries)).
  split; [exact Hrun|]. split; [exact Hsl|].
  split; [now rewrite length_map, length_seq|].
  rewrite total_delay_backoff.
  destruct (total_jitter_bounds (fun k => rng w (rng_pos w + k)%nat) n_retries)
    as [H0 H1]; [intros i; apply Hj|].
  split; lra.
Qed.

Lemma retry_total_delay_witness :
  exists w' delays,
    async_retry_with_backoff default_retries default_backoff
      (always_rate_limited (GetExport 7)) (World_init ∅ Sample.no_jitter)
    = (Raise (ClientResponseError 429), w')
    /\ sleeps w' = delays
    /\ (31 <= total_delay delays)%Q /\ (total_delay delays <= 36)%Q.
Proof.
  destruct (retry_total_delay default_retries default_backoff (GetExport 7)
              (World_init ∅ Sample.no_jitter))
    as (w' & delays & Hrun & Hsl & _ & Hlo & Hhi).
  - intros i. cbn. unfold Sample.no_jitter. split; lra.
  - exists w', delays. split; [exact Hrun|]. split; [exact Hsl|].
    split; [exact Hlo|exact Hhi].
Defined.

(** ** [download_export]: what it touches and when it succeeds *)




Lemma download_receive_keeps_requests path file mode size response :
  preserves requests (download_receive path file mode size response).
Proof.
  unfold download_receive. preserves_tac.
  all: try (apply write_chunks_keeps; reflexivity).
  all: try (apply preserves_modify; intros w; destruct mode, (fs w !! file);
            reflexivity).
Qed.

Lemma download_export_body_requests remote pid path file w :
  requests (snd (download_export_body remote pid path file w))
  = (requests w ++ [GetDownload pid (range_of file w)])%list.
Proof.
  unfold download_export_body, try_except, download_export_try, range_of.
  destruct (resume_plan (fs w !! file)) as [[headers mode] size].
  cbn [fst]. unfold bind at 1, session_get_download.
  destruct (get_download remote (requests w) pid headers) as [response|e];
    [|reflexivity].
  pose proof (download_receive_keeps_requests path file mode size response
                (record_request (GetDownload pid headers) w)) as Hr.
  destruct (download_receive path file mode size response
              (record_request (GetDownload pid headers) w)) as [[b|e] w1];
    cbn in Hr |- *; now rewrite Hr.
Qed.





Lemma open_file_stats file mode w :
  stats (snd (open_file file mode w)) = stats w.
Proof. unfold open_file, modify. cbn. now destruct mode, (fs w !! file). Qed.





(** ** An interrupted download and its resumption *)

(** A body that breaks off leaves what was streamed on disk, after what the
    file held before, and the download returns [False]. *)
Lemma download_export_interrupted remote pid path file w response e :
  get_download remote (requests w) pid (range_of file w) = Return response ->
  status_accepted response = true ->
  is_Some (dl_content_length response) ->
  dl_stream_error response = Some e ->
  exists w1,
    download_export remote pid path file w = (Return false, w1)
    /\ fs w1 !! file
       = Some (default [] (fs w !! file) ++ concat (dl_chunks response))%list
    /\ total_size (stats w1) = total_size (stats w).
Proof.
  intros Hget Hacc [total Hcl] Herr. rewrite download_export_is_body.
  unfold download_export_body, try_except, download_export_try, range_of in *.
  destruct (resume_plan (fs w !! file)) as [[headers mode] size] eqn:Eplan.
  cbn [fst] in Hget. unfold bind at 1, session_get_download. rewrite Hget.
  set (w0 := record_request (GetDownload pid headers) w).
  unfold download_receive, raise_for_status, status_accepted in *.
  destruct (Z.leb_spec 400 (dl_status response)) as [H400|H400].
  { destruct (Z.eqb_spec (dl_status response) 200); [lia|].
    destruct (Z.eqb_spec (dl_status response) 206); [lia|]. discriminate. }
  unfold bind at 1. cbn [ret].
  destruct (Z.eqb_spec (dl_status response) 403); [lia|].
  rewrite Hacc, Hcl. cbn [negb or_raise]. unfold bind at 1. cbn [ret].
  unfold bind at 1.
  change (open_file file mode w0) with (Return tt, snd (open_file file mode w0)).
  cbv iota. unfold bind at 1.
  assert (Hcontent : fs (snd (open_file file mode w0)) !! file
                     = Some (default [] (fs w !! file))).
  { unfold open_file, modify, resume_plan in *. subst w0. cbn.
    destruct (fs w !! file) as [content|] eqn:Ef; injection Eplan as <- <- <-; cbn.
    - exact Ef.
    - apply lookup_insert_eq. }
  pose proof (open_file_stats file mode w0) as Hstats.
  set (w1 := snd (open_file file mode w0)) in *. clearbody w1.
  rewrite (write_chunks_run _ _ _ _ Hcontent), Herr. cbn.
  eexists. split; [reflexivity|]. cbn. split; [apply lookup_insert_eq|].
  now rewrite Hstats.
Qed.

(** X6. A fresh download whose body breaks off and the next download of the
    same file add up to the archive: the first returns [False], counts no
    bytes and leaves the streamed part on disk; the second asks for the range
    from the size of that part and, served it, completes the file to the
    archive byte for byte. *)
Theorem download_export_interrupt_resume remote pid path file w first e part full :
  fs w !! file = None ->
  get_download remote (requests w) pid None = Return first ->
  status_accepted first = true ->
  is_Some (dl_content_length first) ->
  dl_stream_error first = Some e ->
  concat (dl_chunks first) = part ->
  part `prefix_of` full ->
  exists w1,
    download_export remote pid path file w = (Return false, w1)
    /\ fs w1 !! file = Some part
    /\ total_size (stats w1) = total_size (stats w)
    /\ forall second,
         get_download remote (requests w1) pid (Some (Z.of_nat (length part)))
         = Return second ->
         serves full (Some (Z.of_nat (length part))) second ->
         exists w2,
           download_export remote pid path file w1 = (Return true, w2)
           /\ fs w2 !! file = Some full.
Proof.
  intros Hnone Hget Hacc Hcl Herr Hpart [rest Hfull].
  destruct (download_export_interrupted remote pid path file w first e)
    as (w1 & Hrun & Hfile & Htotal); try assumption.
  { unfold range_of. now rewrite Hnone. }
  rewrite Hnone, Hpart in Hfile. cbn in Hfile.
  exists w1. split; [exact Hrun|]. split; [exact Hfile|]. split; [exact Htotal|].
  intros second Hget2 Hserves.
  destruct (download_export_run remote pid path file w1 full
              (Some (Z.of_nat (length part))) second)
    as (w2 & Hrun2 & _ & Hfile2).
  { rewrite Hfile. exact Hget2. }
  { exact Hserves. }
  exists w2. split; [exact Hrun2|].
  rewrite Hfile2, Hfile. cbn.
  destruct Hserves as (_ & _ & _ & Hbody). rewrite Hbody, Nat2Z.id, Hfull.
  now rewrite drop_app_length.
Qed.

Lemma download_export_interrupt_resume_witness :
  exists w1 w2,
    download_export Cases.breaks_once 7 "grp/app" Sample.export_file
      (World_init ∅ Sample.no_jitter) = (Return false, w1)
    /\ fs w1 !! Sample.export_file = Some (take 2 Sample.archive)
    /\ download_export Cases.breaks_once 7 "grp/app" Sample.export_file w1
       = (Return true, w2)
    /\ fs w2 !! Sample.export_file = Some Sample.archive.
Proof.
  destruct (download_export_interrupt_resume Cases.breaks_once 7 "grp/app"
              Sample.export_file (World_init ∅ Sample.no_jitter)
              (mkDownload 200 (Some 5) [take 2 Sample.archive]
                 (Some ClientConnectionError))
              ClientConnectionError (take 2 Sample.archive) Sample.archive)
    as (w1 & Hrun & Hfile & _ & Hnext).
  - reflexivity.
  - reflexivity.
  - reflexivity.
  - cbn. eauto.
  - reflexivity.
  - reflexivity.
  - exists (drop 2 Sample.archive). reflexivity.
  - destruct (Hnext (mkDownload 206 (Some 3) [drop 2 Sample.archive] None))
      as (w2 & Hrun2 & Hfile2).
    + reflexivity.
    + repeat split; cbn; eauto.
    + exists w1, w2. repeat split; assumption.
Defined.

(** ** One job *)

(** When every line it logs is printed, a job returns and has counted the
    project once. *)
Lemma export_project_contract_run remote export_dir project w :
  exists b w',
    export_project remote export_dir project w = (Return b, w')
    /\ retry_count w' = retry_count w
    /\ (b = true ->
        projects_exported (stats w') = projects_exported (stats w) + 1
        /\ projects_failed (stats w') = projects_failed (stats w)
        /\ failed_projects w' = failed_projects w
        /\ is_Some (fs w' !! export_file_of export_dir
                                 (path_with_namespace project)))
    /\ (b = false ->
        projects_exported (stats w') = projects_exported (stats w)
        /\ projects_failed (stats w') = projects_failed (stats w) + 1
        /\ (failed_projects w' = (failed_projects w ++ [project])%list
            \/ failed_projects w' = failed_projects w)).
Proof.
  destruct (export_project_post remote export_dir project w)
    as (b & w' & Hrun & Heff & Hfile).
  pose proof (export_project_keeps_retries remote export_dir project w) as Hr.
  rewrite Hrun in Hr. cbn [snd] in Hr.
  exists b, w'. split; [exact Hrun|]. split; [exact Hr|].
  unfold counts in Heff.
  split; intros ->; inversion Heff; subst; auto.
Qed.

(** X7. A job that returns has counted its project once.  If it returns
    [True] it has counted the project as exported, the archive is on disk and
    the failed list is as it was; if it returns [False] it has counted the
    project as failed and the failed list is as it was or longer by this one
    project.  The other of the two counters and the retry counter are
    untouched. *)
Theorem export_project_contract remote export_dir project w b w' :
  export_project remote export_dir project w = (Return b, w') ->
  retry_count w' = retry_count w
  /\ (b = true ->
      projects_exported (stats w') = projects_exported (stats w) + 1
      /\ projects_failed (stats w') = projects_failed (stats w)
      /\ failed_projects w' = failed_projects w
      /\ is_Some (fs w' !! export_file_of export_dir
                               (path_with_namespace project)))
  /\ (b = false ->
      projects_exported (stats w') = projects_exported (stats w)
      /\ projects_failed (stats w') = projects_failed (stats w) + 1
      /\ (failed_projects w' = (failed_projects w ++ [project])%list
          \/ failed_projects w' = failed_projects w)).
Proof.
  intros Hrun.
  destruct (export_project_contract_run remote export_dir project w)
    as (b0 & w0 & Hrun0 & Hr & Ht & Hf).
  rewrite Hrun in Hrun0. injection Hrun0 as -> ->.
  split; [exact Hr|]. split; assumption.
Qed.

Lemma export_project_contract_witness :
  let run := export_project Sample.download_refused Sample.export_dir
               Sample.project (World_init ∅ Sample.no_jitter) in
  fst run = Return false
  /\ projects_failed (stats (snd run)) = 1
  /\ projects_exported (stats (snd run)) = 0.
Proof.
  cbv zeta.
  assert (Hrun : export_project Sample.download_refused Sample.export_dir
                   Sample.project (World_init ∅ Sample.no_jitter)
                 = (Return false,
                    snd (export_project Sample.download_refused
                           Sample.export_dir Sample.project
                           (World_init ∅ Sample.no_jitter))))
    by (vm_compute; reflexivity).
  destruct (export_project_contract Sample.download_refused Sample.export_dir
              Sample.project (World_init ∅ Sample.no_jitter) _ _ Hrun)
    as (_ & _ & Hfalse).
  destruct (Hfalse eq_refl) as (He & Hf & _).
  split; [rewrite Hrun; reflexivity|]. rewrite He, Hf. split; reflexivity.
Defined.

Lemma export_batch_failed remote export_dir projects : forall w,
  exists results w' listed,
    export_batch remote export_dir projects w = (Return results, w')
    /\ length results = length projects
    /\ failed_projects w' = (failed_projects w ++ listed)%list
    /\ sublist listed (failed_of projects results).
Proof.
  induction projects as [|p ps IH]; intros w.
  - exists [], w, []. cbn. rewrite app_nil_r. repeat split. constructor.
  - cbn [export_batch]. unfold bind at 1.
    destruct (export_project_post remote export_dir p w)
      as (b & w1 & Hrun & Heff & _).
    rewrite Hrun. unfold bind at 1.
    destruct (IH w1) as (rs & w2 & listed & Hrest & Hlen & Hlist & Hsub).
    rewrite Hrest. cbn [ret]. unfold counts in Heff.
    inversion Heff as [e f l He Hw1|e f l He Hw1|e f l He Hw1]; subst.
    + exists (true :: rs), w2, listed. cbn. repeat split; auto.
      rewrite Hlist. now f_equal.
    + exists (false :: rs), w2, (p :: listed). cbn.
      split; [reflexivity|]. split; [now rewrite Hlen|].
      split; [|now constructor].
      rewrite Hlist. match goal with H : _ = failed_projects w1 |- _ =>
        rewrite <- H end. now rewrite <- app_assoc.
    + exists (false :: rs), w2, listed. cbn.
      split; [reflexivity|]. split; [now rewrite Hlen|].
      split; [|now constructor].
      rewrite Hlist. now f_equal.
Qed.

(** The jobs taken one after the other, every line printed: the failed list
    grows by failed projects of the batch, in batch order. *)
Lemma export_batch_failed_list_run remote export_dir projects w :
  exists results w' listed,
    export_batch remote export_dir projects w = (Return results, w')
    /\ length results = length projects
    /\ failed_projects w' = (failed_projects w ++ listed)%list
    /\ sublist listed (failed_of projects results)
    /\ sublist listed projects.
Proof.
  destruct (export_batch_failed remote export_dir projects w)
    as (rs & w' & listed & Hrun & Hlen & Hlist & Hsub).
  exists rs, w', listed. repeat split; try assumption.
  transitivity (failed_of projects rs); [exact Hsub|].
  clear. revert rs. induction projects as [|p ps IH]; intros [|[] rs]; cbn;
    try apply sublist_nil_l.
  - now constructor.
  - now constructor.
Qed.

(** X8. A batch that completes has one result for each project, and what it
    has added to the failed list are projects of the batch whose job returned
    [False], none more often than it was submitted.  The statement is about
    which projects are listed and how often, not about their order: the jobs
    append as they finish. *)
Theorem export_batch_failed_list remote export_dir projects w results w' :
  export_batch remote export_dir projects w = (Return results, w') ->
  length results = length projects
  /\ exists listed,
       Permutation (failed_projects w') (failed_projects w ++ listed)
       /\ submseteq listed (failed_of projects results)
       /\ submseteq listed projects.
Proof.
  intros Hrun.
  destruct (export_batch_failed_list_run remote export_dir projects w)
    as (rs & w0 & listed & Hrun0 & Hlen & Hlist & Hsub & Hsub').
  rewrite Hrun in Hrun0. injection Hrun0 as -> ->.
  split; [exact Hlen|]. exists listed.
  split; [rewrite Hlist; reflexivity|].
  split; apply sublist_submseteq; assumption.
Qed.

Lemma export_batch_failed_list_witness :
  let run := export_batch Sample.rate_limited Sample.export_dir
               [Sample.project; Sample.library]
               (World_init ∅ Sample.no_jitter) in
  fst run = Return [false; false]
  /\ exists listed,
       Permutation (failed_projects (snd run)) listed
       /\ submseteq listed [Sample.project; Sample.library].
Proof.
  cbv zeta.
  assert (Hrun : export_batch Sample.rate_limited Sample.export_dir
                   [Sample.project; Sample.library]
                   (World_init ∅ Sample.no_jitter)
                 = (Return [false; false],
                    snd (export_batch Sample.rate_limited Sample.export_dir
                           [Sample.project; Sample.library]
                           (World_init ∅ Sample.no_jitter))))
    by (vm_compute; reflexivity).
  destruct (export_batch_failed_list Sample.rate_limited Sample.export_dir
              [Sample.project; Sample.library]
              (World_init ∅ Sample.no_jitter) _ _ Hrun)
    as (_ & listed & Hperm & _ & Hsub).
  split; [rewrite Hrun; reflexivity|]. exists listed.
  split; [exact Hperm|exact Hsub].
Defined.




(** ** The work of one job *)

Lemma on_finished_work remote project file w r w' :
  on_finished remote project file w = (r, w') ->
  sleeps w' = sleeps w
  /\ length (requests w') = S (length (requests w)).
Proof.
  unfold on_finished, bind.
  pose proof (download_export_keeps_backoff remote (id project)
                (path_with_namespace project) file w) as Hb.
  pose proof (download_export_body_requests remote (id project)
                (path_with_namespace project) file w) as Hr.
  rewrite download_export_is_body in *.
  destruct (download_export_body_returns remote (id project)
              (path_with_namespace project) file w) as (b & w1 & Hrun).
  rewrite Hrun in *. cbn [snd] in *. unfold backoff_trace in Hb.
  injection Hb as _ Hs.
  destruct b; cbn; intros [= _ <-]; cbn; rewrite Hs, Hr, length_app; cbn;
    split; (reflexivity || lia).
Qed.

Lemma poll_loop_work remote project file n : forall w r w',
  poll_loop remote project file n w = (r, w') ->
  exists polls,
    (polls <= n)%nat
    /\ sleeps w' = (sleeps w ++ repeat 5%Q polls)%list
    /\ (length (requests w') <= length (requests w) + polls + 1)%nat.
Proof.
  induction n as [|n IH]; intros w r w'.
  { cbn. intros [= _ <-]. exists 0%nat. cbn. rewrite app_nil_r.
    repeat split; lia. }
  destruct (poll_step_cases remote project file n w)
    as [[e ->] | [-> | [-> | ->]]].
  - intros [= _ <-]. exists 1%nat. cbn. rewrite length_app. cbn.
    repeat split; lia.
  - intros H. destruct (IH _ _ _ H) as (k & Hk & Hs & Hr).
    exists (S k). split; [lia|]. split.
    + rewrite Hs. cbn. now rewrite <- app_assoc.
    + cbn in Hr. rewrite length_app in Hr. cbn in Hr. lia.
  - intros H. apply on_finished_work in H as [Hs Hr].
    exists 1%nat. split; [lia|]. split; [now rewrite Hs|].
    rewrite Hr. cbn. rewrite length_app. cbn. lia.
  - cbn. intros [= _ <-]. exists 1%nat. cbn. rewrite length_app. cbn.
    repeat split; lia.
Qed.

Lemma total_delay_repeat q k :
  (total_delay (repeat q k) == inject_Z (Z.of_nat k) * q)%Q.
Proof.
  unfold total_delay. induction k as [|k IH]; cbn [repeat fold_right].
  - change (inject_Z (Z.of_nat 0)) with 0%Q. lra.
  - rewrite IH, Nat2Z.inj_succ. unfold Z.succ. rewrite inject_Z_plus.
    change (inject_Z 1) with 1%Q. lra.
Qed.

(** X10. The work of one job is bounded, however the job ends: it has slept
    only between polls, five seconds each time and at most 120 times, never
    to back off, and it has sent at most two requests besides its polls, so
    at most 122 requests in ten minutes of waiting. *)
Theorem export_project_work remote export_dir project w r w' :
  export_project remote export_dir project w = (r, w') ->
  exists polls,
    (polls <= 120)%nat
    /\ sleeps w' = (sleeps w ++ repeat 5%Q polls)%list
    /\ (length (requests w') <= length (requests w) + polls + 2)%nat
    /\ (total_delay (repeat 5%Q polls) <= 600)%Q.
Proof.
  assert (Hgoal : forall r w',
    export_project_body remote export_dir project w = (r, w') ->
    exists polls, (polls <= 120)%nat
      /\ sleeps w' = (sleeps w ++ repeat 5%Q polls)%list
      /\ (length (requests w') <= length (requests w) + polls + 2)%nat).
  { intros r0 w0.
    unfold export_project_body, try_except, export_project_try.
    unfold bind at 1, path_exists.
    destruct (bool_decide _).
    { cbn. intros [= _ <-]. exists 0%nat. cbn. rewrite app_nil_r.
      repeat split; lia. }
    unfold bind at 1, session_post_export.
    destruct (post_export remote (requests w) (id project)) as [status|e].
    2: { cbn. intros [= _ <-]. exists 0%nat. cbn.
         rewrite app_nil_r, length_app. cbn. repeat split; lia. }
    unfold raise_for_status, bind at 1.
    destruct (400 <=? status).
    { cbn. intros [= _ <-]. exists 0%nat. cbn.
      rewrite app_nil_r, length_app. cbn. repeat split; lia. }
    cbn [ret]. destruct (status =? 403).
    { cbn. intros [= _ <-]. exists 0%nat. cbn.
      rewrite app_nil_r, length_app. cbn. repeat split; lia. }
    destruct (negb _).
    { cbn. intros [= _ <-]. exists 0%nat. cbn.
      rewrite app_nil_r, length_app. cbn. repeat split; lia. }
    unfold bind at 1.
    match goal with |- context [poll_loop _ _ ?f _ ?w1] =>
      pose proof (poll_loop_work remote project f max_attempts w1) as Hpoll;
      destruct (poll_loop remote project f max_attempts w1) as [[[b|]|e] w2]
    end; destruct (Hpoll _ _ eq_refl) as (k & Hk & Hs & Hr);
      cbn in Hs, Hr; rewrite length_app in Hr; cbn in Hr;
      unfold max_attempts in Hk; cbn; intros [= _ <-]; cbn;
      exists k; repeat split; (assumption || lia). }
  intros Hrun. rewrite export_project_is_body in Hrun.
  destruct (Hgoal _ _ Hrun) as (k & Hk & Hs & Hr).
  exists k. repeat split; try assumption.
  rewrite total_delay_repeat.
  assert (inject_Z (Z.of_nat k) <= 120)%Q.
  { change 120%Q with (inject_Z 120). rewrite <- Zle_Qle. lia. }
  lra.
Qed.

Lemma export_project_work_witness :
  exists polls,
    (polls <= 120)%nat
    /\ sleeps (snd (export_project Sample.unavailable Sample.export_dir
                      Sample.project (World_init ∅ Sample.no_jitter)))
       = repeat 5%Q polls.
Proof.
  destruct (export_project_work Sample.unavailable Sample.export_dir
              Sample.project (World_init ∅ Sample.no_jitter) _ _
              (surjective_pairing _))
    as (polls & Hle & Hsleeps & _).
  exists polls. split; [exact Hle|exact Hsleeps].
Defined.

(** ** Archive names *)

Lemma replace_char_free old new s :
  old <> new -> ~ In old (list_ascii_of_string (replace_char old new s)).
Proof.
  intros Hne. induction s as [|c s IH]; cbn; [tauto|].
  intros [Hc|Hin]; [|now apply IH].
  destruct (Ascii.eqb_spec c old); congruence.
Qed.

Lemma replace_char_length old new s :
  String.length (replace_char old new s) = String.length s.
Proof. induction s as [|c s IH]; cbn; congruence. Qed.

Lemma replace_char_fixed old new s :
  ~ In old (list_ascii_of_string s) -> replace_char old new s = s.
Proof.
  induction s as [|c s IH]; cbn; [reflexivity|].
  intros Hnot. destruct (Ascii.eqb_spec c old) as [->|_]; [tauto|].
  f_equal. apply IH. tauto.
Qed.

(** The archive name made from a project path has no slash and as many
    characters as the path; a path without a slash is its own archive name,
    so flattening a flattened name changes nothing. *)
Theorem archive_name_flat (project_path : string) :
  let name := replace_char "/" "_" project_path in
  ~ In "/"%char (list_ascii_of_string name)
  /\ String.length name = String.length project_path
  /\ replace_char "/" "_" name = name
  /\ (~ In "/"%char (list_ascii_of_string project_path) ->
      name = project_path).
Proof.
  cbv zeta. split; [apply replace_char_free; discriminate|].
  split; [apply replace_char_length|].
  split; [|apply replace_char_fixed].
  apply replace_char_fixed, replace_char_free. discriminate.
Qed.



(** ** The project listing beyond well-formed pages *)







Lemma get_all_projects_loop_endless remote :
  (forall history page, exists r item items next,
      get_projects remote history page = Return r
      /\ page_status r = 200
      /\ page_items r = Some (item :: items)
      /\ page_next r = HeaderInt next) ->
  forall fuel page projects w,
  exists w',
    get_all_projects_loop remote fuel page projects w = (Return None, w')
    /\ length (requests w') = (length (requests w) + fuel)%nat.
Proof.
  intros Hremote. induction fuel as [|fuel IH]; intros page projects w;
    cbn [get_all_projects_loop].
  - exists w. split; [reflexivity|]. lia.
  - destruct (Hremote (requests w) page)
      as (r & item & items & next & Hget & Hs & Hitems & Hnext).
    unfold bind.
    rewrite (fetch_page_next _ _ _ _ _ _ _ _ Hget Hs Hitems Hnext).
    destruct (IH next (projects ++ item :: items)%list
                (record_request (GetProjects page) w)) as (w' & Hrun & Hlen).
    exists w'. split; [exact Hrun|]. rewrite Hlen. cbn.
    rewrite length_app. cbn. lia.
Qed.

(** X13. Nothing bounds the listing: against a remote whose every page has
    items and names a next page, the loop is still running after any number
    of rounds, one request each. *)
Theorem get_all_projects_endless remote fuel w :
  (forall history page, exists r item items next,
      get_projects remote history page = Return r
      /\ page_status r = 200
      /\ page_items r = Some (item :: items)
      /\ page_next r = HeaderInt next) ->
  exists w',
    get_all_projects remote fuel w = (Return None, w')
    /\ length (requests w') = (length (requests w) + fuel)%nat.
Proof.
  intros Hremote. now apply get_all_projects_loop_endless.
Qed.

Lemma get_all_projects_endless_witness :
  exists w',
    get_all_projects Listing.circular 1000 (World_init ∅ Sample.no_jitter)
    = (Return None, w')
    /\ length (requests w') = 1000%nat.
Proof.
  apply (get_all_projects_endless Listing.circular 1000
           (World_init ∅ Sample.no_jitter)).
  intros history page.
  exists (mkPage 200 (Some [Sample.project]) (HeaderInt 1)),
    Sample.project, [], 1.
  repeat split.
Defined.

(** A page that ends in the exception handler ends the listing without
    an error for the caller: the exception is logged with the page number and
    the items gathered so far are returned; when the exception is the
    next-page header failing to parse, the items of that page are among
    them. *)
Theorem get_all_projects_broken_page remote fuel page projects w e kept :
  page_breaks (get_projects remote (requests w) page) = Some (e, kept) ->
  get_all_projects_loop remote (S fuel) page projects w
  = (Return (Some (projects ++ kept)%list),
     snd (log ERROR (MsgErrorFetchPage page e)
            (record_request (GetProjects page) w))).
Proof.
  unfold page_breaks. intros Hbreak.
  cbn [get_all_projects_loop].
  unfold bind at 1, fetch_page, try_except, bind at 1, session_get_projects,
    page_exception.
  destruct (get_projects remote (requests w) page) as [r|e0].
  2: { injection Hbreak as <- <-. cbn. now rewrite app_nil_r. }
  destruct (page_status r =? 200); [|discriminate]. cbn [negb].
  destruct (page_items r) as [[|item items]|]; cbn [or_raise].
  - discriminate.
  - destruct (page_next r); try discriminate.
    injection Hbreak as <- <-. reflexivity.
  - injection Hbreak as <- <-. cbn. now rewrite app_nil_r.
Qed.

Lemma get_all_projects_broken_page_witness :
  fst (get_all_projects Listing.garbled 5 (World_init ∅ Sample.no_jitter))
  = Return (Some [Sample.project; Sample.library]).
Proof.
  unfold get_all_projects.
  rewrite (get_all_projects_broken_page Listing.garbled 4 1 []
             (World_init ∅ Sample.no_jitter) ValueError
             [Sample.project; Sample.library] eq_refl).
  reflexivity.
Defined.

(** ** The success rate *)

(** X14. For counters that are not negative the success rate lies between 0
    and 100; it is 100 when projects were exported and none failed, and 0
    when none was exported. *)
Theorem success_rate_bounds (s : ExportStats) :
  0 <= projects_exported s ->
  0 <= projects_failed s ->
  (0 <= success_rate s)%Q
  /\ (success_rate s <= 100)%Q
  /\ (0 < projects_exported s -> projects_failed s = 0 ->
      (success_rate s == 100)%Q)
  /\ (projects_exported s = 0 -> (success_rate s == 0)%Q).
Proof.
  intros He Hf. unfold success_rate.
  destruct (Z.ltb_spec 0 (projects_exported s + projects_failed s)) as [Ht|Ht].
  2: { repeat split; try lra. intros; lia. }
  set (e := projects_exported s) in *. set (f := projects_failed s) in *.
  clearbody e f.
  assert (Ht' : (0 < inject_Z (e + f))%Q).
  { change 0%Q with (inject_Z 0). now rewrite <- Zlt_Qlt. }
  assert (He' : (0 <= inject_Z e)%Q).
  { change 0%Q with (inject_Z 0). now rewrite <- Zle_Qle. }
  assert (Hle : (inject_Z e <= inject_Z (e + f))%Q).
  { rewrite <- Zle_Qle. lia. }
  assert (H0 : (0 <= inject_Z e / inject_Z (e + f))%Q).
  { apply Qle_shift_div_l; [exact Ht'|]. lra. }
  assert (H1 : (inject_Z e / inject_Z (e + f) <= 1)%Q).
  { apply Qle_shift_div_r; [exact Ht'|]. lra. }
  split; [lra|]. split; [lra|]. split.
  - intros Hpos Hzero. rewrite Hzero, Z.add_0_r.
    assert (Hne : ~ (inject_Z e == 0)%Q).
    { intros E. unfold Qeq in E. cbn in E. lia. }
    field. exact Hne.
  - intros Hzero. rewrite Hzero. change (inject_Z 0) with 0%Q.
    unfold Qdiv. lra.
Qed.

Lemma success_rate_bounds_witness :
  (0 <= success_rate (mkStats 3 1 0 0 0 0 0 0))%Q
  /\ (success_rate (mkStats 3 1 0 0 0 0 0 0) <= 100)%Q.
Proof.
  destruct (success_rate_bounds (mkStats 3 1 0 0 0 0 0 0)) as (H0 & H1 & _).
  - cbn; lia.
  - cbn; lia.
  - split; assumption.
Defined.

(** ** Slots come back *)

Lemma slots_idle (js : list job) :
  Forall (fun j => in_workflow (pc j) = false) js ->
  list_sum (map slot_of js) = 0%nat.
Proof.
  induction 1 as [|j js Hj _ IH]; [reflexivity|].
  unfold list_sum in *. cbn [map fold_right]. unfold slot_of at 1.
  rewrite Hj, IH. reflexivity.
Qed.

(** X15. No slot is lost: in a reachable state of the batch in which no job
    is inside [async with semaphore], the semaphore is back at its limit; and
    a job that has finished is out of the game, no later step changes it. *)
Theorem pool_slots_returned limit n_projects p :
  pool_reachable limit n_projects p ->
  (Forall (fun j => in_workflow (pc j) = false) (jobs p) ->
   sem_value p = limit)
  /\ (forall p' i j b,
        pool_step p p' -> jobs p !! i = Some j -> pc j = Finished b ->
        jobs p' !! i = Some j).
Proof.
  intros Hreach. split.
  - intros Hidle.
    destruct (pool_reachable_inv _ _ _ Hreach) as (_ & Hsem & _).
    unfold holding in Hsem. rewrite (slots_idle _ Hidle) in Hsem. lia.
  - intros p' i j b Hstep Hi Hpc.
    destruct Hstep as [v js k jk Hk Hw | v js k jk next Hk Hmove
                      | v js k jk next Hk Hmove]; cbn [jobs] in *.
    + destruct (decide (k = i)) as [->|Hne];
        [rewrite Hi in Hk; injection Hk as <-; congruence|].
      now rewrite list_lookup_insert_ne.
    + destruct (decide (k = i)) as [->|Hne];
        [rewrite Hi in Hk; injection Hk as <-; rewrite Hpc in Hmove;
         inversion Hmove|].
      now rewrite list_lookup_insert_ne.
    + destruct (decide (k = i)) as [->|Hne];
        [rewrite Hi in Hk; injection Hk as <-; rewrite Hpc in Hmove;
         inversion Hmove|].
      now rewrite list_lookup_insert_ne.
Qed.

Lemma pool_slots_returned_witness :
  sem_value (mkPool 1 [mkJob (Finished true) 1 1; mkJob Waiting 0 0]) = 1%nat.
Proof.
  pose (waiting := mkJob Waiting 0 0).
  pose proof (reach_init 1 2) as R0.
  pose proof (reach_step 1 2 _ _ R0
                (step_acquire 0 [waiting; waiting] 0%nat waiting
                   eq_refl eq_refl)) as R1.
  pose proof (reach_step 1 2 _ _ R1
                (step_release 0 [mkJob Entered 1 0; waiting] 0%nat
                   (mkJob Entered 1 0) (Finished true) eq_refl
                   move_already_exported)) as R2.
  apply (proj1 (pool_slots_returned 1 2 _ R2)).
  repeat constructor.
Defined.

(** ** The connection check *)

(** The check with every line printed: its verdict read off the two
    answers. *)
Lemma validate_connection_verdict_run remote instance :
  let v := validate_connection remote instance in
  (valid v = true <-> user_accepted remote /\ version_harmless remote)
  /\ (fst (logged v) = SUCCESS <-> valid v = true)
  /\ (fst (logged v) = ERROR <-> valid v = false)
  /\ name (instance_after v) = name instance
  /\ url (instance_after v) = url instance
  /\ token (instance_after v) = token instance
  /\ role (instance_after v) = role instance
  /\ projects_count (instance_after v) = projects_count instance.
Proof.
  cbv zeta. unfold validate_connection, user_accepted, version_harmless.
  destruct (get_user remote) as [u|e].
  2: { cbn. repeat split; try discriminate; auto.
       intros [(? & ? & ? & _) _]. discriminate. }
  destruct (Z.eqb_spec (user_status u) 200) as [Hu|Hu].
  2: { cbn. repeat split; try discriminate; auto.
       intros [(? & ? & [= <-] & ? & _) _]. contradiction. }
  destruct (user_data u) as [[user mail]|] eqn:Hdata.
  2: { cbn. repeat split; try discriminate; auto.
       intros [(? & ? & [= <-] & _ & ?) _]. congruence. }
  destruct (get_version remote) as [ver|e].
  2: { cbn. repeat split; try discriminate; auto.
       intros [_ (? & ? & _)]. discriminate. }
  destruct (Z.eqb_spec (version_status ver) 200) as [Hv|Hv].
  - destruct (version_data ver) as [vs|] eqn:Hvd; cbn.
    + repeat split; try discriminate; auto.
      * exists u, (user, mail). auto.
      * exists ver. split; [reflexivity|]. rewrite Hvd. eauto.
    + repeat split; try discriminate; auto.
      intros [_ (ver' & [= <-] & Hok)]. destruct (Hok Hv) as [? ?]. congruence.
  - cbn. repeat split; try discriminate; auto.
    + exists u, (user, mail). auto.
    + exists ver. split; [reflexivity|]. intros ?. contradiction.
Qed.

(** X16. A connection check returns [True] only when the user request was
    answered 200 with a readable body and the version request returned and,
    if answered 200, could be read; it has then logged the success.  A user
    request answered with another status gives [False] after that one
    request, with the status logged and the instance as it was.  Name, URL,
    token, role and project count of the instance are never changed. *)
Theorem validate_connection_verdict remote instance :
  let v := validate_connection remote instance in
  (valid v = true ->
   user_accepted remote /\ version_harmless remote
   /\ fst (logged v) = SUCCESS)
  /\ (forall response,
        get_user remote = Return response ->
        user_status response <> 200 ->
        valid v = false
        /\ logged v = (ERROR, MsgAuthFailed (user_status response))
        /\ sent v = [GetUser]
        /\ instance_after v = instance)
  /\ name (instance_after v) = name instance
  /\ url (instance_after v) = url instance
  /\ token (instance_after v) = token instance
  /\ role (instance_after v) = role instance
  /\ projects_count (instance_after v) = projects_count instance.
Proof.
  cbv zeta.
  destruct (validate_connection_verdict_run remote instance)
    as (Hiff & Hsucc & _ & Hrest).
  split.
  { intros Hv. destruct (proj1 Hiff Hv) as [Hu Hver].
    split; [exact Hu|]. split; [exact Hver|]. apply Hsucc. exact Hv. }
  split; [|exact Hrest].
  intros response Hget Hst. unfold validate_connection. rewrite Hget.
  destruct (Z.eqb_spec (user_status response) 200); [contradiction|].
  repeat split.
Qed.

(** X17. The version request is sent only after the user answer was read,
    and by then user name and e-mail are stored: a version step that fails
    (the request raises, or a 200 answer cannot be read) makes the check
    return [False] with user name and e-mail set and the version as it was. *)
Theorem validate_connection_half_done remote instance response user mail :
  get_user remote = Return response ->
  user_status response = 200 ->
  user_data response = Some (user, mail) ->
  ~ version_harmless remote ->
  let v := validate_connection remote instance in
  valid v = false
  /\ sent v = [GetUser; GetVersion]
  /\ username (instance_after v) = user
  /\ email (instance_after v) = mail
  /\ version (instance_after v) = version instance.
Proof.
  intros Hget Hs Hdata Hbad. cbv zeta. unfold validate_connection.
  rewrite Hget, Hs, Hdata. cbn.
  destruct (get_version remote) as [ver|e] eqn:Hver; [|now cbn].
  destruct (Z.eqb_spec (version_status ver) 200) as [Hv|Hv].
  - destruct (version_data ver) as [vs|] eqn:Hvd; [|now cbn].
    contradiction Hbad. exists ver. split; [exact Hver|]. rewrite Hvd. eauto.
  - contradiction Hbad. exists ver. split; [exact Hver|]. now intros ?.
Qed.

Lemma validate_connection_half_done_witness :
  let v := validate_connection
             (mkApi (Return (mkUser 200 (Some ("root", "root@example.org"))))
                    (Raise ClientConnectionError))
             (mkInstance "main" "https://gitlab.example.org" "t" "" "" "" ""
                0 0 0) in
  valid v = false /\ username (instance_after v) = "root".
Proof.
  destruct (validate_connection_half_done
              (mkApi (Return (mkUser 200 (Some ("root", "root@example.org"))))
                     (Raise ClientConnectionError))
              (mkInstance "main" "https://gitlab.example.org" "t" "" "" "" ""
                 0 0 0)
              (mkUser 200 (Some ("root", "root@example.org")))
              "root" "root@example.org" eq_refl eq_refl eq_refl)
    as (Hv & _ & Hu & _).
  - intros (ver & Hver & _). discriminate.
  - split; assumption.
Defined.

(** ** Selection and entry point *)

Lemma select_from_sublist picks instances : forall i,
  sublist (select_from i instances picks) instances.
Proof.
  induction instances as [|x rest IH]; intros i; cbn; [constructor|].
  destruct (picks i); constructor; apply IH.
Qed.

Lemma select_from_all picks instances : forall i,
  (forall k, picks k = true) -> select_from i instances picks = instances.
Proof.
  intros i Hall. revert i. induction instances as [|x rest IH]; intros i; cbn;
    [reflexivity|].
  rewrite Hall. f_equal. apply IH.
Qed.

(** The instances selected are instances that were loaded, in the order
    they were loaded, each at most once per occurrence; answering yes
    throughout selects them all and answering no throughout selects none. *)
Theorem select_instances_sublist insts answers :
  sublist (select_instances insts answers) insts
  /\ ((forall k, answers k = true) -> select_instances insts answers = insts)
  /\ ((forall k, answers k = false) -> select_instances insts answers = []).
Proof.
  split; [apply select_from_sublist|]. split; [apply select_from_all|].
  intros Hnone. unfold select_instances. generalize 1%nat.
  induction insts as [|x rest IH]; intros i; cbn; [reflexivity|].
  rewrite Hnone. apply IH.
Qed.

Lemma run_export_outcomes fuel dl api selected :
  (Forall (fun e => env_connects e = false) selected
   /\ run_export fuel dl api selected = Some (Return tt, RunState_init))
  \/ (Exists (fun e => env_connects e = true) selected
      /\ exists st,
           run_export fuel dl api selected
           = Some (Raise (UnboundLocalError "api_semaphore"), st)
           /\ jobs_created st = 0%nat
           /\ page_fetches st = 0%nat
           /\ reports st = []).
Proof.
  unfold run_export.
  induction selected as [|env rest IH]; cbn [run_instances].
  - left. split; [constructor|reflexivity].
  - destruct (env_connects env) eqn:Hc.
    + right. split; [now constructor|].
      rewrite run_instance_unbound by (assumption || reflexivity).
      eexists. split; [reflexivity|]. cbn. auto.
    + rewrite run_instance_skips by assumption.
      destruct IH as [[Hall Hrun]|[Hex Hrun]].
      * left. split; [now constructor|exact Hrun].
      * right. split; [now constructor 2|exact Hrun].
Qed.

(** The lines of [run_export] before its loop raise none of the exceptions
    of the export. *)
Lemma run_export_settings_exn s e :
  run_export_settings s = inl e -> forall x, e <> ExportError x.
Proof.
  unfold run_export_settings.
  destruct (config_readable s), (downloads_answer s), (api_calls_answer s),
    (config_writable s); cbn; intros [= <-] x; discriminate.
Qed.

(** X18. What a run of [main] hands to the console, once [load_instances]
    has returned and when the run comes to its end.  The line that all
    exports completed is printed only when instances were selected, the user
    went ahead, the lines of [run_export] before its loop went through and
    none of the selected instances connected.  The failure of the unbound
    [api_semaphore] is printed only when the user went ahead, those lines
    went through and a selected instance connected.  When instances were
    selected and the user went ahead, an answer that is no number, or a
    configuration file that cannot be read or written, is the failure handed
    to the console, with no instance looked at and no completion printed.
    In no run is an export job created or a report written. *)
Theorem main_outcome fuel s result :
  let selected := select_instances (instances s) (picks s) in
  main fuel s = Some result ->
  (In PrintCompleted (console result) ->
   selected <> [] /\ proceed s = true /\ settings_accepted (settings s)
   /\ Forall (fun e => env_connects e = false) selected)
  /\ (In (PrintFailed (ExportError (UnboundLocalError "api_semaphore")))
         (console result) ->
      proceed s = true /\ settings_accepted (settings s)
      /\ Exists (fun e => env_connects e = true) selected)
  /\ (forall e,
        selected <> [] -> proceed s = true ->
        run_export_settings (settings s) = inl e ->
        In (PrintFailed e) (console result)
        /\ ~ In PrintCompleted (console result)
        /\ export_state result = None)
  /\ (forall st, export_state result = Some st ->
      jobs_created st = 0%nat /\ reports st = []).
Proof.
  cbv zeta. unfold main, settings_accepted.
  destruct (instances s) as [|i0 rest] eqn:Hinst.
  { destruct (create_config s); intros [= <-]; cbn;
      intuition (try discriminate; try congruence). }
  destruct (select_instances (i0 :: rest) (picks s)) as [|s0 srest] eqn:Hsel.
  { intros [= <-]. cbn. intuition (try discriminate; try congruence). }
  destruct (proceed s) eqn:Hp; cbn [negb].
  2: { intros [= <-]. cbn. intuition (try discriminate; try congruence). }
  destruct (run_export_settings (settings s)) as [e|[downloads api_calls]]
    eqn:Hset.
  { pose proof (run_export_settings_exn _ _ Hset) as Hne.
    intros [= <-]. cbn.
    split.
    { intros [H|[H|[H|[H|[]]]]]; discriminate. }
    split.
    { intros [H|[H|[H|[H|[]]]]]; try discriminate.
      injection H as ->.
      now destruct (Hne (UnboundLocalError "api_semaphore")). }
    split; [|discriminate].
    intros e' _ _ [= <-]. split; [do 3 right; now left|].
    split; [|reflexivity].
    intros [H|[H|[H|[H|[]]]]]; discriminate. }
  destruct (run_export_outcomes fuel (Z.to_nat downloads) (Z.to_nat api_calls)
              (s0 :: srest)) as [[Hall Hrun]|[Hex (st & Hrun & Hj & _ & Hr)]];
    rewrite Hrun; intros [= <-]; cbn.
  - split.
    { intros _. split; [discriminate|]. split; [reflexivity|].
      split; [now exists downloads, api_calls | exact Hall]. }
    split.
    { intros [H|[H|[H|[H|[]]]]]; discriminate. }
    split; [discriminate|]. now intros st [= <-].
  - split.
    { intros [H|[H|[H|[H|[]]]]]; discriminate. }
    split.
    { intros _. split; [reflexivity|].
      split; [now exists downloads, api_calls | exact Hex]. }
    split; [discriminate|]. intros st' [= <-]. auto.
Qed.

Lemma main_outcome_witness :
  In (PrintFailed NotAnInteger)
    (console
       (mkMainRun [PrintBanner; PrintFound 1; PrintReady 1;
                   PrintFailed NotAnInteger] false None)).
Proof.
  destruct (main_outcome 6
              (mkSession [Sample.offline] false (fun _ => true) true
                 (mkSettings true (Some 5) None true))
              (mkMainRun [PrintBanner; PrintFound 1; PrintReady 1;
                          PrintFailed NotAnInteger] false None) eq_refl)
    as (_ & _ & Hfail & _).
  destruct (Hfail NotAnInteger) as (Hin & _ & _).
  - discriminate.
  - reflexivity.
  - reflexivity.
  - exact Hin.
Defined.

(** * Properties of the passes *)

Lemma pass_effect_refl w : pass_effect w w 0 0 [] [] [].
Proof.
  unfold pass_effect. rewrite !Z.add_0_r, !app_nil_r. auto 10.
Qed.

Lemma pass_effect_trans w w1 w2 a b l e f a' b' l' e' f' :
  pass_effect w w1 a b l e f ->
  pass_effect w1 w2 a' b' l' e' f' ->
  pass_effect w w2 (a + a') (b + b') (l ++ l')%list (e ++ e')%list
    (f ++ f')%list.
Proof.
  unfold pass_effect.
  intros (H1 & H2 & H3 & H4 & H5 & H6 & H7) (G1 & G2 & G3 & G4 & G5 & G6 & G7).
  rewrite G1, G2, G3, G4, G5, G6, G7, H1, H2, H3, H4, H5, H6, H7.
  rewrite !app_assoc. repeat split; lia.
Qed.

Lemma pbind_done {A B} (m : P A) (k : A -> P B) w a w' :
  m w = (Done a, w') -> pbind m k w = k a w'.
Proof. intros H. unfold pbind. rewrite H. reflexivity. Qed.

Lemma pbind_threw {A B} (m : P A) (k : A -> P B) w e w' :
  m w = (Threw e, w') -> pbind m k w = (Threw e, w').
Proof. intros H. unfold pbind. rewrite H. reflexivity. Qed.

Lemma send_effect {A} r (answer_of : list pass_event -> outcome A) w :
  exists res,
    send r answer_of w = (res, emit (Sent r) w)
    /\ match answer_of (events w) with
       | Return a => res = Done a
       | Raise e => res = Threw (SessionError e)
       end.
Proof.
  unfold send. destruct (answer_of (events w)); eauto.
Qed.

Lemma emit_effect ev w : pass_effect w (emit ev w) 0 0 [] [ev] [].
Proof.
  unfold pass_effect, emit. cbn. rewrite !Z.add_0_r, !app_nil_r. auto 10.
Qed.

Lemma write_file_effect env dir name doc w r w' :
  write_file env dir name doc w = (r, w') ->
  (r = Done tt /\ writable env dir name = true
   /\ pass_effect w w' 0 0 [] [] [(dir, name, doc)])
  \/ (r = Threw (OSError dir) /\ writable env dir name = false /\ w' = w).
Proof.
  unfold write_file. destruct (writable env dir name); intros [= <- <-].
  - left. repeat split; cbn; rewrite ?Z.add_0_r, ?app_nil_r; auto.
  - right. auto.
Qed.

Lemma count_wiki_effect w :
  exists w', count_wiki w = (Done tt, w') /\ pass_effect w w' 1 0 [] [] [].
Proof.
  eexists. split; [reflexivity|].
  unfold pass_effect. cbn. rewrite !Z.add_0_r, !app_nil_r. auto 10.
Qed.

Lemma count_snippet_effect w :
  exists w', count_snippet w = (Done tt, w') /\ pass_effect w w' 0 1 [] [] [].
Proof.
  eexists. split; [reflexivity|].
  unfold pass_effect. cbn. rewrite !Z.add_0_r, !app_nil_r. auto 10.
Qed.

Lemma pass_log_line_effect lv msg w :
  exists w',
    pass_log_line lv msg w = (Done tt, w')
    /\ pass_effect w w' 0 0 [(lv, msg)] [] [].
Proof.
  eexists. split; [reflexivity|].
  unfold pass_effect. cbn. rewrite !Z.add_0_r, !app_nil_r. auto 10.
Qed.

Lemma with_semaphore_effect {A} (body : P A) w r w1 a b l e f :
  body (emit Acquire w) = (r, w1) ->
  pass_effect (emit Acquire w) w1 a b l e f ->
  with_semaphore body w = (r, emit Release w1)
  /\ pass_effect w (emit Release w1) a b l (Acquire :: e ++ [Release])%list f.
Proof.
  intros Hb He. split.
  - unfold with_semaphore. rewrite Hb. reflexivity.
  - pose proof (pass_effect_trans _ _ _ _ _ _ _ _ _ _ _ _ _
                  (pass_effect_trans _ _ _ _ _ _ _ _ _ _ _ _ _
                     (emit_effect Acquire w) He)
                  (emit_effect Release w1)) as H.
    cbn in H. rewrite !Z.add_0_r, !app_nil_r in H. exact H.
Qed.

(** The page loop of a wiki touches no counter and logs nothing: it sends one
    request per page until it is through or raises. *)
Lemma wiki_pages_loop_effect env pid dir pages : forall w,
  exists r w' sent files,
    wiki_pages_loop env pid dir pages w = (r, w')
    /\ pass_effect w w' 0 0 []
         (map (fun page => Sent (GetWikiPage pid (slug page))) sent) files
    /\ sent `prefix_of` pages
    /\ (r = Done tt -> sent = pages)
    /\ (length files <= length sent)%nat.
Proof.
  induction pages as [|page rest IH]; intros w.
  - exists (Done tt), w, [], []. cbn [wiki_pages_loop map length].
    split; [reflexivity|]. split; [apply pass_effect_refl|].
    split; [reflexivity|]. split; [reflexivity|lia].
  - cbn [wiki_pages_loop].
    destruct (send_effect (GetWikiPage pid (slug page))
                (fun history => wiki_page_of env history pid (slug page)) w)
      as (res & Hsend & Hres).
    pose proof (emit_effect (Sent (GetWikiPage pid (slug page))) w) as He.
    set (w1 := emit (Sent (GetWikiPage pid (slug page))) w) in *.
    cbn beta in Hres.
    assert (Hstop : forall e, exists r w' sent files,
               (Threw e, w1) = (r, w')
               /\ pass_effect w w' 0 0 []
                    (map (fun page => Sent (GetWikiPage pid (slug page))) sent)
                    files
               /\ sent `prefix_of` page :: rest
               /\ (r = Done tt -> sent = page :: rest)
               /\ (length files <= length sent)%nat).
    { intros e. exists (Threw e), w1, [page], [].
      split; [reflexivity|]. split; [exact He|].
      split; [apply prefix_cons, prefix_nil|].
      split; [discriminate|cbn; lia]. }
    destruct (wiki_page_of env (events w) pid (slug page)) as [ans|e]; subst res.
    2:{ rewrite (pbind_threw _ _ _ _ _ Hsend). apply Hstop. }
    rewrite (pbind_done _ _ _ _ _ Hsend).
    destruct (answer_status ans =? 200) eqn:Hst.
    + unfold read_body. destruct (answer_body ans) as [content|].
      * destruct (write_file env dir (Plain (slug page +:+ ".md"))
                    (Text content) w1) as [rw w2] eqn:Hw.
        destruct (write_file_effect _ _ _ _ _ _ _ Hw)
          as [(-> & _ & Hwe)|(-> & _ & ->)].
        -- destruct (IH w2)
             as (r & w' & sent & files & Hrun & Heff & Hpre & Hall & Hlen).
           exists r, w', (page :: sent),
             ((dir, Plain (slug page +:+ ".md"), Text content) :: files).
           split.
           { unfold pbind at 1. unfold pbind at 1. unfold pret at 1.
             rewrite Hw. exact Hrun. }
           pose proof (pass_effect_trans _ _ _ _ _ _ _ _ _ _ _ _ _
                         (pass_effect_trans _ _ _ _ _ _ _ _ _ _ _ _ _ He Hwe)
                         Heff) as H.
           cbn in H. cbn [map length].
           split; [exact H|]. split; [apply prefix_cons; exact Hpre|].
           split; [intros Hr; rewrite (Hall Hr); reflexivity|lia].
        -- unfold pbind at 1. unfold pbind at 1. unfold pret at 1.
           rewrite Hw. apply Hstop.
      * apply Hstop.
    + destruct (IH w1)
        as (r & w' & sent & files & Hrun & Heff & Hpre & Hall & Hlen).
      exists r, w', (page :: sent), files.
      split.
      { unfold pbind at 1. unfold pret at 1. exact Hrun. }
      pose proof (pass_effect_trans _ _ _ _ _ _ _ _ _ _ _ _ _ He Heff) as H.
      cbn in H. cbn [map length].
      split; [exact H|]. split; [apply prefix_cons; exact Hpre|].
      split; [intros Hr; rewrite (Hall Hr); reflexivity|lia].
Qed.

(** Inside the semaphore a wiki is counted once or not at all, and only when
    the block runs to its end; nothing is logged there. *)
Lemma wiki_listing_effect env pid dir w :
  exists r w' counted rs files,
    wiki_listing env pid dir w = (r, w')
    /\ pass_effect w w' counted 0 [] (map Sent rs) files
    /\ (counted = 0 \/ (counted = 1 /\ r = Done tt)).
Proof.
  unfold wiki_listing.
  destruct (send_effect (GetWikis pid)
              (fun history => wikis_of env history pid) w)
    as (res & Hsend & Hres).
  pose proof (emit_effect (Sent (GetWikis pid)) w) as He.
  set (w1 := emit (Sent (GetWikis pid)) w) in *.
  cbn beta in Hres.
  assert (Hstop : forall r : pass_result unit, exists r' w' counted rs files,
             (r, w1) = (r', w')
             /\ pass_effect w w' counted 0 [] (map Sent rs) files
             /\ (counted = 0 \/ (counted = 1 /\ r' = Done tt))).
  { intros r. exists r, w1, 0, [GetWikis pid], [].
    split; [reflexivity|]. split; [exact He|]. left; reflexivity. }
  destruct (wikis_of env (events w) pid) as [ans|e]; subst res.
  2:{ rewrite (pbind_threw _ _ _ _ _ Hsend). apply Hstop. }
  rewrite (pbind_done _ _ _ _ _ Hsend).
  destruct (answer_status ans =? 200); cbn [negb]; [|apply Hstop].
  unfold read_body. destruct (answer_body ans) as [pages|]; [|apply Hstop].
  unfold pbind at 1. unfold pret at 1.
  destruct pages as [|page rest]; [apply Hstop|].
  set (pages := page :: rest).
  destruct (write_file env dir (Plain "wiki_index.json") (JsonWikiPages pages) w1)
    as [rw w2] eqn:Hw.
  destruct (write_file_effect _ _ _ _ _ _ _ Hw)
    as [(-> & _ & Hwe)|(-> & _ & ->)].
  2:{ rewrite (pbind_threw _ _ _ _ _ Hw). apply Hstop. }
  rewrite (pbind_done _ _ _ _ _ Hw).
  destruct (wiki_pages_loop_effect env pid dir pages w2)
    as (r & w3 & sent & files & Hrun & Heff & _ & _ & _).
  pose proof (pass_effect_trans _ _ _ _ _ _ _ _ _ _ _ _ _
                (pass_effect_trans _ _ _ _ _ _ _ _ _ _ _ _ _ He Hwe) Heff) as H.
  cbn in H.
  assert (Hmap : Sent (GetWikis pid)
                 :: map (fun page => Sent (GetWikiPage pid (slug page))) sent
                 = map Sent (GetWikis pid
                             :: map (fun page => GetWikiPage pid (slug page))
                                  sent)).
  { cbn [map]. rewrite List.map_map. reflexivity. }
  rewrite Hmap in H. clear Hmap.
  destruct r as [[]|e].
  - rewrite (pbind_done _ _ _ _ _ Hrun).
    destruct (count_wiki_effect w3) as (w4 & Hc & Hce).
    pose proof (pass_effect_trans _ _ _ _ _ _ _ _ _ _ _ _ _ H Hce) as H'.
    cbn in H'. rewrite !app_nil_r in H'.
    exists (Done tt), w4, 1,
      (GetWikis pid :: map (fun page => GetWikiPage pid (slug page)) sent),
      ((dir, Plain "wiki_index.json", JsonWikiPages pages) :: files).
    split; [exact Hc|]. split; [exact H'|]. right; auto.
  - rewrite (pbind_threw _ _ _ _ _ Hrun).
    exists (Threw e), w3, 0,
      (GetWikis pid :: map (fun page => GetWikiPage pid (slug page)) sent),
      ((dir, Plain "wiki_index.json", JsonWikiPages pages) :: files).
    split; [reflexivity|]. split; [exact H|]. left; reflexivity.
Qed.

(** One project of the wiki pass: the handler turns every exception into one
    line of the log, so the body always returns. *)
Lemma export_wiki_effect env export_dir project w :
  exists w' counted lines blocks files,
    export_wiki env export_dir project w = (Done tt, w')
    /\ pass_effect w w' counted 0 lines
         (concat (map semaphore_block blocks)) files
    /\ Forall (fun line => fst line = ERROR) lines
    /\ 0 <= counted
    /\ counted + Z.of_nat (length lines) <= 1
    /\ (length blocks <= 1)%nat.
Proof.
  unfold export_wiki. cbv zeta.
  set (pid := id (project_record project)).
  set (path := path_with_namespace (project_record project)).
  set (dir := pass_dir export_dir "wikis" path).
  unfold pcatch, pbind, mkdir.
  destruct (mkdir_ok env dir).
  - unfold pret at 1.
    destruct (wiki_listing_effect env pid dir (emit Acquire w))
      as (r & w1 & counted & rs & files & Hrun & Heff & Hcount).
    destruct (with_semaphore_effect _ _ _ _ _ _ _ _ _ Hrun Heff) as [Hsem Hse].
    rewrite Hsem.
    change (Acquire :: map Sent rs ++ [Release])%list
      with (semaphore_block rs) in Hse.
    destruct r as [[]|e].
    + exists (emit Release w1), counted, [], [rs], files.
      cbn [map concat length]. rewrite app_nil_r.
      split; [reflexivity|]. split; [exact Hse|].
      split; [constructor|].
      destruct Hcount as [->|[-> _]]; cbn; lia.
    + destruct Hcount as [->|[_ [=]]].
      destruct (pass_log_line_effect ERROR (MsgWikiError path e)
                  (emit Release w1)) as (w2 & Hlog & Hle).
      pose proof (pass_effect_trans _ _ _ _ _ _ _ _ _ _ _ _ _ Hse Hle) as H.
      cbn in H. rewrite !app_nil_r in H.
      exists w2, 0, [(ERROR, MsgWikiError path e)], [rs], files.
      cbn [map concat length]. rewrite app_nil_r.
      split; [exact Hlog|]. split; [exact H|].
      split; [repeat constructor|]. cbn; lia.
  - unfold pthrow at 1.
    destruct (pass_log_line_effect ERROR (MsgWikiError path (OSError dir)) w)
      as (w2 & Hlog & Hle).
    exists w2, 0, [(ERROR, MsgWikiError path (OSError dir))], [], [].
    split; [exact Hlog|]. split; [exact Hle|].
    split; [repeat constructor|]. cbn; lia.
Qed.

Lemma with_wiki_cons project projects :
  length (with_wiki (project :: projects))
  = ((if wiki_enabled project then 1 else 0) + length (with_wiki projects))%nat.
Proof.
  unfold with_wiki. destruct (wiki_enabled project) eqn:E.
  - rewrite filter_cons_True by exact E. reflexivity.
  - rewrite filter_cons_False by (rewrite E; discriminate). reflexivity.
Qed.

Lemma export_wikis_loop_effect env export_dir projects : forall w,
  exists w' n errors blocks files,
    export_wikis_loop env export_dir projects w = (Done tt, w')
    /\ pass_effect w w' n 0 errors (concat (map semaphore_block blocks)) files
    /\ Forall (fun line => fst line = ERROR) errors
    /\ 0 <= n
    /\ n + Z.of_nat (length errors) <= Z.of_nat (length (with_wiki projects))
    /\ (length blocks <= length (with_wiki projects))%nat.
Proof.
  induction projects as [|project rest IH]; intros w.
  - exists w, 0, [], [], []. cbn.
    split; [reflexivity|]. split; [apply pass_effect_refl|].
    split; [constructor|]. lia.
  - cbn [export_wikis_loop]. rewrite with_wiki_cons.
    destruct (wiki_enabled project).
    + destruct (export_wiki_effect env export_dir project w)
        as (w1 & c1 & l1 & b1 & f1 & Hrun1 & Heff1 & Herr1 & Hc1 & Hs1 & Hb1).
      rewrite (pbind_done _ _ _ _ _ Hrun1).
      destruct (IH w1)
        as (w2 & c2 & l2 & b2 & f2 & Hrun2 & Heff2 & Herr2 & Hc2 & Hs2 & Hb2).
      exists w2, (c1 + c2), (l1 ++ l2)%list, (b1 ++ b2)%list, (f1 ++ f2)%list.
      split; [exact Hrun2|].
      pose proof (pass_effect_trans _ _ _ _ _ _ _ _ _ _ _ _ _ Heff1 Heff2) as H.
      cbn in H. rewrite map_app, concat_app.
      split; [exact H|].
      split; [apply Forall_app; auto|].
      rewrite !length_app. lia.
    + unfold pbind at 1. unfold pret at 1.
      destruct (IH w)
        as (w2 & c2 & l2 & b2 & f2 & Hrun2 & Heff2 & Herr2 & Hc2 & Hs2 & Hb2).
      exists w2, c2, l2, b2, f2.
      split; [exact Hrun2|]. split; [exact Heff2|].
      split; [exact Herr2|]. lia.
Qed.

(** The run of the wiki pass, with what it has done at its end. *)
Lemma export_wikis_accounting_run env export_dir projects w :
  exists w' n errors blocks,
    export_wikis env export_dir projects w = (Done tt, w')
    /\ wikis_exported (pass_stats w') = wikis_exported (pass_stats w) + n
    /\ snippets_exported (pass_stats w') = snippets_exported (pass_stats w)
    /\ batch_counters (pass_stats w') = batch_counters (pass_stats w)
    /\ pass_log w'
       = (pass_log w ++ errors ++ [(SUCCESS, MsgWikisExported n)])%list
    /\ Forall (fun line => fst line = ERROR) errors
    /\ 0 <= n
    /\ n + Z.of_nat (length errors) <= Z.of_nat (length (with_wiki projects))
    /\ events w' = (events w ++ concat (map semaphore_block blocks))%list
    /\ (length blocks <= length (with_wiki projects))%nat.
Proof.
  unfold export_wikis.
  set (w0 := mkPassWorld (pass_stats w) 0 (written w) (pass_log w) (events w)).
  assert (H0 : set_local_count 0 w = (Done tt, w0)) by reflexivity.
  rewrite (pbind_done _ _ _ _ _ H0).
  destruct (export_wikis_loop_effect env export_dir projects w0)
    as (w1 & n & errors & blocks & files & Hrun & Heff & Herr & Hn & Hs & Hb).
  rewrite (pbind_done _ _ _ _ _ Hrun).
  destruct Heff as (E1 & E2 & E3 & E4 & E5 & E6 & E7).
  cbn in E1, E2, E3, E4, E5, E6, E7.
  eexists _, n, errors, blocks.
  split; [reflexivity|]. cbn.
  rewrite E1, E2, E3, E4, E5, E6, Z.add_0_r, <- app_assoc.
  replace (0 + n + 0) with n by lia.
  repeat split; auto.
Qed.

(** X19. The accounts of the wiki pass, when it returns.  The number it logs
    at its end is the number it has added to [wikis_exported]; every enabled
    project is counted, logged as an error or passed over in silence, never
    two of these; no other counter moves; and whatever it sends, it sends
    inside [async with semaphore], which it enters at most once per enabled
    project and leaves each time. *)
Theorem export_wikis_accounting env export_dir projects w w' :
  export_wikis env export_dir projects w = (Done tt, w') ->
  exists n errors blocks,
    wikis_exported (pass_stats w') = wikis_exported (pass_stats w) + n
    /\ snippets_exported (pass_stats w') = snippets_exported (pass_stats w)
    /\ batch_counters (pass_stats w') = batch_counters (pass_stats w)
    /\ pass_log w'
       = (pass_log w ++ errors ++ [(SUCCESS, MsgWikisExported n)])%list
    /\ Forall (fun line => fst line = ERROR) errors
    /\ 0 <= n
    /\ n + Z.of_nat (length errors) <= Z.of_nat (length (with_wiki projects))
    /\ events w' = (events w ++ concat (map semaphore_block blocks))%list
    /\ (length blocks <= length (with_wiki projects))%nat.
Proof.
  intros Hdone.
  destruct (export_wikis_accounting_run env export_dir projects w)
    as (w1 & n & errors & blocks & Hrun & Hrest).
  rewrite Hrun in Hdone. injection Hdone as <-.
  exists n, errors, blocks. exact Hrest.
Qed.

Lemma export_wikis_accounting_witness :
  let run :=
    export_wikis Passes.wiki_served Sample.export_dir [Passes.handbook]
      PassWorld_init in
  fst run = Done tt
  /\ exists n errors,
       wikis_exported (pass_stats (snd run)) = n
       /\ pass_log (snd run)
          = (errors ++ [(SUCCESS, MsgWikisExported n)])%list
       /\ 0 <= n /\ n + Z.of_nat (length errors) <= 1.
Proof.
  cbv zeta.
  set (run := export_wikis Passes.wiki_served Sample.export_dir
                [Passes.handbook] PassWorld_init).
  assert (Hrun : run = (Done tt, snd run)) by (vm_compute; reflexivity).
  destruct (export_wikis_accounting _ _ _ _ _ Hrun)
    as (n & errors & blocks & Hw & _ & _ & Hl & _ & Hn & Hsum & _).
  split; [now rewrite Hrun|].
  exists n, errors. repeat split; [exact Hw|exact Hl|exact Hn|exact Hsum].
Defined.

Lemma wiki_pages_loop_app env pid dir before after : forall w,
  wiki_pages_loop env pid dir (before ++ after) w
  = match wiki_pages_loop env pid dir before w with
    | (Done _, w1) => wiki_pages_loop env pid dir after w1
    | (Threw e, w1) => (Threw e, w1)
    end.
Proof.
  induction before as [|page rest IH]; intros w; [reflexivity|].
  cbn [app wiki_pages_loop]. unfold pbind.
  destruct (send _ _ w) as [[ans|e] w1]; [|reflexivity].
  destruct (answer_status ans =? 200).
  - unfold read_body, pret, pthrow, write_file.
    destruct (answer_body ans); [|reflexivity].
    destruct (writable env dir _); [apply IH|reflexivity].
  - unfold pret. apply IH.
Qed.

Lemma wiki_pages_loop_harmless env pid dir pages :
  Forall (page_harmless env pid dir) pages ->
  forall w,
    exists w' files,
      wiki_pages_loop env pid dir pages w = (Done tt, w')
      /\ pass_effect w w' 0 0 [] (map Sent (map (page_request pid) pages)) files
      /\ (length files <= length pages)%nat.
Proof.
  induction 1 as [|page rest Hpage _ IH]; intros w.
  - exists w, []. split; [reflexivity|]. split; [apply pass_effect_refl|].
    cbn; lia.
  - cbn [wiki_pages_loop].
    destruct (send_effect (GetWikiPage pid (slug page))
                (fun history => wiki_page_of env history pid (slug page)) w)
      as (res & Hsend & Hres).
    pose proof (emit_effect (Sent (GetWikiPage pid (slug page))) w) as He.
    set (w1 := emit (Sent (GetWikiPage pid (slug page))) w) in *.
    cbn beta in Hres.
    destruct (Hpage (events w)) as (ans & Hans & Hok).
    rewrite Hans in Hres. subst res.
    rewrite (pbind_done _ _ _ _ _ Hsend).
    destruct (answer_status ans =? 200) eqn:Hst.
    + apply Z.eqb_eq in Hst. destruct (Hok Hst) as [[content Hbody] Hwr].
      unfold read_body. rewrite Hbody.
      unfold pbind at 1. unfold pbind at 1. unfold pret at 1.
      unfold write_file at 1. fold (page_file page). rewrite Hwr.
      set (w2 := mkPassWorld _ _ _ _ _).
      assert (Hwe : pass_effect w1 w2 0 0 [] []
                      [(dir, page_file page, Text content)]).
      { unfold pass_effect, w2. cbn. rewrite !Z.add_0_r, !app_nil_r. auto 10. }
      destruct (IH w2) as (w' & files & Hrun & Heff & Hlen).
      exists w', ((dir, page_file page, Text content) :: files).
      split; [exact Hrun|].
      pose proof (pass_effect_trans _ _ _ _ _ _ _ _ _ _ _ _ _
                    (pass_effect_trans _ _ _ _ _ _ _ _ _ _ _ _ _ He Hwe)
                    Heff) as H.
      split; [exact H|]. cbn; lia.
    + unfold pbind at 1. unfold pret at 1.
      destruct (IH w1) as (w' & files & Hrun & Heff & Hlen).
      exists w', files.
      split; [exact Hrun|].
      pose proof (pass_effect_trans _ _ _ _ _ _ _ _ _ _ _ _ _ He Heff) as H.
      split; [exact H|]. cbn; lia.
Qed.

Lemma wiki_pages_loop_refused env pid dir pages :
  Forall (page_refused env pid) pages ->
  forall w,
    exists w',
      wiki_pages_loop env pid dir pages w = (Done tt, w')
      /\ written w' = written w.
Proof.
  induction 1 as [|page rest Hpage _ IH]; intros w.
  - exists w. split; reflexivity.
  - cbn [wiki_pages_loop]. unfold pbind at 1, send.
    destruct (Hpage (events w)) as (ans & Hans & Hst).
    rewrite Hans. apply Z.eqb_neq in Hst.
    unfold pbind at 1. rewrite Hst. unfold pret at 1.
    destruct (IH (emit (Sent (GetWikiPage pid (slug page))) w))
      as (w' & Hrun & Hw).
    exists w'. split; [exact Hrun|]. rewrite Hw. reflexivity.
Qed.

Lemma page_refused_harmless env pid dir page :
  page_refused env pid page -> page_harmless env pid dir page.
Proof.
  intros H history. destruct (H history) as (a & Ha & Hst).
  exists a. split; [exact Ha|]. intros E. contradiction.
Qed.

Lemma wiki_page_fails_run env pid dir page e rest w :
  page_fails env pid dir page e ->
  wiki_pages_loop env pid dir (page :: rest) w
  = (Threw e, emit (Sent (page_request pid page)) w).
Proof.
  intros H. cbn [wiki_pages_loop]. unfold pbind at 1, send.
  specialize (H (events w)).
  destruct (wiki_page_of env (events w) pid (slug page)) as [ans|x].
  - destruct H as [Hst Hbody]. apply Z.eqb_eq in Hst.
    unfold pbind at 1. rewrite Hst. unfold read_body.
    destruct (answer_body ans) as [content|].
    + destruct Hbody as [Hwr ->].
      unfold pbind at 1. unfold pret at 1. unfold write_file.
      fold (page_file page). rewrite Hwr. reflexivity.
    + subst e. reflexivity.
  - subst e. reflexivity.
Qed.

(** What [wiki_listing] does once the listing has come with pages and the
    index file can be written: index, page loop, and the count if the loop
    returns. *)
Lemma wiki_listing_pages env pid dir w listing pages :
  wikis_of env (events w) pid = Return listing ->
  answer_status listing = 200 ->
  answer_body listing = Some pages ->
  pages <> [] ->
  writable env dir (Plain "wiki_index.json") = true ->
  exists w2,
    pass_effect w w2 0 0 [] [Sent (GetWikis pid)]
      [(dir, Plain "wiki_index.json", JsonWikiPages pages)]
    /\ wiki_listing env pid dir w
       = match wiki_pages_loop env pid dir pages w2 with
         | (Done _, w3) => count_wiki w3
         | (Threw e, w3) => (Threw e, w3)
         end.
Proof.
  intros Hans Hst Hbody Hne Hwr.
  unfold wiki_listing, pbind at 1, send. rewrite Hans.
  apply Z.eqb_eq in Hst. rewrite Hst. cbn [negb].
  unfold read_body. rewrite Hbody. unfold pbind at 1. unfold pret at 1.
  destruct pages as [|page rest]; [contradiction|].
  unfold pbind at 1. unfold write_file at 1. rewrite Hwr.
  eexists. split; [|reflexivity].
  unfold pass_effect. cbn. rewrite !Z.add_0_r, !app_nil_r. auto 10.
Qed.

(** X20. The pages of a wiki are optional.  When the listing comes with
    pages and the index file is written, every page that is answered with
    another status than 200 is passed over without a word: the wiki is
    counted as exported and nothing is logged, even when every page was
    refused and the index is the only file on disk. *)
Theorem export_wiki_pages_optional env export_dir project w listing pages :
  let pid := id (project_record project) in
  let dir :=
    pass_dir export_dir "wikis" (path_with_namespace (project_record project)) in
  mkdir_ok env dir = true ->
  wikis_of env (events w ++ [Acquire])%list pid = Return listing ->
  answer_status listing = 200 ->
  answer_body listing = Some pages ->
  pages <> [] ->
  writable env dir (Plain "wiki_index.json") = true ->
  Forall (page_harmless env pid dir) pages ->
  exists w' page_files,
    export_wiki env export_dir project w = (Done tt, w')
    /\ pass_effect w w' 1 0 []
         (semaphore_block (GetWikis pid :: map (page_request pid) pages))
         ((dir, Plain "wiki_index.json", JsonWikiPages pages) :: page_files)
    /\ (length page_files <= length pages)%nat
    /\ (Forall (page_refused env pid) pages -> page_files = []).
Proof.
  intros pid dir Hmk Hans Hst Hbody Hne Hwr Hpages.
  destruct (wiki_listing_pages env pid dir (emit Acquire w) listing pages
              Hans Hst Hbody Hne Hwr) as (w2 & Hidx & Hrun).
  destruct (wiki_pages_loop_harmless env pid dir pages Hpages w2)
    as (w3 & files & Hloop & Hle & Hlen).
  rewrite Hloop in Hrun.
  destruct (count_wiki_effect w3) as (w4 & Hc & Hce).
  rewrite Hc in Hrun.
  pose proof (pass_effect_trans _ _ _ _ _ _ _ _ _ _ _ _ _
                (pass_effect_trans _ _ _ _ _ _ _ _ _ _ _ _ _ Hidx Hle)
                Hce) as Hbody_eff.
  cbn in Hbody_eff. rewrite !app_nil_r in Hbody_eff.
  destruct (with_semaphore_effect _ _ _ _ _ _ _ _ _ Hrun Hbody_eff)
    as [Hsem Hse].
  exists (emit Release w4), files.
  split.
  { unfold export_wiki. cbv zeta. fold pid. fold dir.
    unfold pcatch, pbind, mkdir. rewrite Hmk. unfold pret at 1.
    rewrite Hsem. reflexivity. }
  split; [exact Hse|]. split; [exact Hlen|].
  intros Href.
  destruct (wiki_pages_loop_refused env pid dir pages Href w2)
    as (w3' & Hloop' & Hsame).
  rewrite Hloop in Hloop'. injection Hloop' as <-.
  destruct Hle as (_ & _ & _ & _ & _ & _ & Hfiles).
  rewrite Hsame in Hfiles.
  rewrite <- (app_nil_r (written w2)) in Hfiles at 1.
  apply app_inv_head in Hfiles. symmetry. exact Hfiles.
Qed.

(** X21. A page that fails takes the whole wiki out of the count, but not
    off the disk: the pages after it are never asked for, the wiki is not
    counted and one error is logged, while the index and the pages written
    before stay where they are; the semaphore is given back. *)
Theorem export_wiki_page_failure env export_dir project w listing
    before page after e :
  let pid := id (project_record project) in
  let path := path_with_namespace (project_record project) in
  let dir := pass_dir export_dir "wikis" path in
  let pages := (before ++ page :: after)%list in
  mkdir_ok env dir = true ->
  wikis_of env (events w ++ [Acquire])%list pid = Return listing ->
  answer_status listing = 200 ->
  answer_body listing = Some pages ->
  writable env dir (Plain "wiki_index.json") = true ->
  Forall (page_harmless env pid dir) before ->
  page_fails env pid dir page e ->
  exists w' page_files,
    export_wiki env export_dir project w = (Done tt, w')
    /\ pass_effect w w' 0 0 [(ERROR, MsgWikiError path e)]
         (semaphore_block
            (GetWikis pid :: map (page_request pid) (before ++ [page])))
         ((dir, Plain "wiki_index.json", JsonWikiPages pages) :: page_files)
    /\ (length page_files <= length before)%nat.
Proof.
  intros pid path dir pages Hmk Hans Hst Hbody Hwr Hbefore Hfail.
  assert (Hne : pages <> []) by (unfold pages; destruct before; discriminate).
  destruct (wiki_listing_pages env pid dir (emit Acquire w) listing pages
              Hans Hst Hbody Hne Hwr) as (w2 & Hidx & Hrun).
  destruct (wiki_pages_loop_harmless env pid dir before Hbefore w2)
    as (w3 & files & Hloop & Hle & Hlen).
  unfold pages in Hrun. rewrite wiki_pages_loop_app, Hloop in Hrun.
  rewrite (wiki_page_fails_run env pid dir page e after w3 Hfail) in Hrun.
  pose proof (emit_effect (Sent (page_request pid page)) w3) as Hpe.
  pose proof (pass_effect_trans _ _ _ _ _ _ _ _ _ _ _ _ _
                (pass_effect_trans _ _ _ _ _ _ _ _ _ _ _ _ _ Hidx Hle)
                Hpe) as Hbody_eff.
  cbn in Hbody_eff. rewrite !app_nil_r in Hbody_eff.
  destruct (with_semaphore_effect _ _ _ _ _ _ _ _ _ Hrun Hbody_eff)
    as [Hsem Hse].
  destruct (pass_log_line_effect ERROR (MsgWikiError path e)
              (emit Release (emit (Sent (page_request pid page)) w3)))
    as (w5 & Hlog & Hlog_eff).
  pose proof (pass_effect_trans _ _ _ _ _ _ _ _ _ _ _ _ _ Hse Hlog_eff) as H.
  cbn in H. rewrite !app_nil_r in H.
  exists w5, files.
  split.
  { unfold export_wiki. cbv zeta. fold pid. fold path. fold dir.
    unfold pcatch, pbind, mkdir. rewrite Hmk. unfold pret at 1.
    rewrite Hsem. exact Hlog. }
  split; [|exact Hlen].
  unfold semaphore_block. cbn [map]. rewrite !map_app. cbn [map].
  exact H.
Qed.

Lemma export_wiki_pages_optional_witness :
  exists w',
    export_wiki Passes.pages_refused Sample.export_dir Passes.handbook
      PassWorld_init = (Done tt, w')
    /\ wikis_exported (pass_stats w') = 1
    /\ pass_log w' = []
    /\ length (written w') = 1%nat.
Proof.
  destruct (export_wiki_pages_optional Passes.pages_refused Sample.export_dir
              Passes.handbook PassWorld_init
              (mkAnswer 200 (Some [Passes.home; Passes.setup; Passes.faq]))
              [Passes.home; Passes.setup; Passes.faq])
    as (w' & files & Hrun & Heff & _ & Hnone).
  - reflexivity.
  - reflexivity.
  - reflexivity.
  - reflexivity.
  - discriminate.
  - reflexivity.
  - repeat constructor; intros history;
      (exists (mkAnswer 404 None); split; [reflexivity|discriminate]).
  - rewrite Hnone in Heff.
    2:{ repeat constructor; intros history;
          (exists (mkAnswer 404 None); split; [reflexivity|discriminate]). }
    destruct Heff as (Hw & _ & _ & _ & Hl & _ & Hf).
    exists w'. rewrite Hl, Hf. repeat split; [exact Hrun|exact Hw].
Defined.

Lemma export_wiki_page_failure_witness :
  exists w',
    export_wiki Passes.wiki_served Sample.export_dir Passes.handbook
      PassWorld_init = (Done tt, w')
    /\ wikis_exported (pass_stats w') = 0
    /\ events w'
       = semaphore_block [GetWikis 7; GetWikiPage 7 "home";
                          GetWikiPage 7 "docs/setup"].
Proof.
  destruct (export_wiki_page_failure Passes.wiki_served Sample.export_dir
              Passes.handbook PassWorld_init
              (mkAnswer 200 (Some [Passes.home; Passes.setup; Passes.faq]))
              [Passes.home] Passes.setup [Passes.faq]
              (OSError (pass_dir Sample.export_dir "wikis" "grp/app")))
    as (w' & files & Hrun & Heff & _).
  - reflexivity.
  - reflexivity.
  - reflexivity.
  - reflexivity.
  - reflexivity.
  - repeat constructor; intros history.
    exists (mkAnswer 200 (Some "# home")).
    split; [reflexivity|]. intros _. split; [eexists; reflexivity|reflexivity].
  - intros history. cbn. repeat split.
  - destruct Heff as (Hw & _ & _ & _ & _ & He & _).
    exists w'. repeat split; [exact Hrun|exact Hw|exact He].
Defined.

(** ** The snippet pass *)

Lemma file_content_app files later dir name :
  file_content (files ++ later) dir name
  = match file_content later dir name with
    | Some doc => Some doc
    | None => file_content files dir name
    end.
Proof.
  induction files as [|[[d n] doc] rest IH]; cbn [app file_content].
  - destruct (file_content later dir name); reflexivity.
  - rewrite IH. destruct (file_content later dir name); reflexivity.
Qed.

Lemma metadata_kept_nil : metadata_kept [].
Proof. intros dir n text. discriminate. Qed.

Lemma metadata_kept_app files later :
  metadata_kept files -> metadata_kept later -> metadata_kept (files ++ later).
Proof.
  intros Hf Hl dir n text. rewrite file_content_app.
  specialize (Hl dir n text).
  destruct (file_content later dir (Numbered n "metadata.json"));
    [exact Hl|apply Hf].
Qed.

(** The text of a snippet followed by its metadata: whatever the snippet is
    called, the metadata file holds the metadata. *)
Lemma metadata_kept_pair dir snippet content :
  metadata_kept [(dir, snippet_file snippet, Text content);
                 (dir, snippet_metadata_file snippet, JsonSnippet snippet)].
Proof.
  intros d n text. cbn [file_content].
  destruct (decide ((dir, snippet_metadata_file snippet)
                    = (d, Numbered n "metadata.json"))) as [E|N];
    [discriminate|].
  destruct (decide ((dir, snippet_file snippet)
                    = (d, Numbered n "metadata.json"))) as [E|_];
    [|discriminate].
  exfalso. apply N. unfold snippet_file, snippet_metadata_file in *.
  injection E as -> -> _. reflexivity.
Qed.

(** Text alone under a name that can be written while the metadata name
    cannot: the two names differ. *)
Lemma metadata_kept_text env dir snippet content :
  writable env dir (snippet_file snippet) = true ->
  writable env dir (snippet_metadata_file snippet) = false ->
  metadata_kept [(dir, snippet_file snippet, Text content)].
Proof.
  intros Ht Hf d n text. cbn [file_content].
  destruct (decide ((dir, snippet_file snippet)
                    = (d, Numbered n "metadata.json"))) as [E|_];
    [|discriminate].
  exfalso. unfold snippet_file, snippet_metadata_file in *.
  injection E as -> Hn Hname. rewrite Hname in Ht. congruence.
Qed.

(** The snippet loop: at every moment the counted snippets have their two
    files each, and the one write that may be left over, a text whose
    metadata could not be written, belongs to no counted snippet. *)
Lemma snippets_loop_effect env pid dir snippets : forall w,
  exists r w' n sent files,
    snippets_loop env pid dir snippets w = (r, w')
    /\ pass_effect w w' 0 n [] (map Sent (map (snippet_request pid) sent)) files
    /\ 0 <= n <= Z.of_nat (length sent)
    /\ sent `prefix_of` snippets
    /\ 2 * n <= Z.of_nat (length files)
    /\ Z.of_nat (length files)
       <= 2 * n + (if r is Done _ then 0 else 1)
    /\ metadata_kept files.
Proof.
  induction snippets as [|snippet rest IH]; intros w.
  - exists (Done tt), w, 0, [], [].
    split; [reflexivity|]. split; [apply pass_effect_refl|].
    split; [cbn; lia|]. split; [reflexivity|].
    split; [cbn; lia|]. split; [cbn; lia|apply metadata_kept_nil].
  - cbn [snippets_loop].
    destruct (send_effect (GetSnippetRaw pid (snippet_id snippet))
                (fun history =>
                   snippet_raw_of env history pid (snippet_id snippet)) w)
      as (res & Hsend & Hres).
    pose proof (emit_effect (Sent (snippet_request pid snippet)) w) as He.
    unfold snippet_request in He.
    set (w1 := emit (Sent (GetSnippetRaw pid (snippet_id snippet))) w) in *.
    cbn beta in Hres.
    assert (Hstop : forall (e : pass_exn) w2 files,
               pass_effect w1 w2 0 0 [] [] files ->
               (length files <= 1)%nat ->
               metadata_kept files ->
               exists r w' n sent files,
                 (@Threw unit e, w2) = (r, w')
                 /\ pass_effect w w' 0 n []
                      (map Sent (map (snippet_request pid) sent)) files
                 /\ 0 <= n <= Z.of_nat (length sent)
                 /\ sent `prefix_of` snippet :: rest
                 /\ 2 * n <= Z.of_nat (length files)
                 /\ Z.of_nat (length files)
                    <= 2 * n + (if r is Done _ then 0 else 1)
                 /\ metadata_kept files).
    { intros e w2 files Hw2 Hlen Hkept.
      exists (Threw e), w2, 0, [snippet], files.
      split; [reflexivity|].
      pose proof (pass_effect_trans _ _ _ _ _ _ _ _ _ _ _ _ _ He Hw2) as H.
      split; [exact H|].
      split; [cbn; lia|]. split; [apply prefix_cons, prefix_nil|].
      split; [lia|]. split; [lia|exact Hkept]. }
    assert (Hgo : forall w2 k files,
               pass_effect w1 w2 0 k [] [] files ->
               0 <= k <= 1 ->
               Z.of_nat (length files) = 2 * k ->
               metadata_kept files ->
               exists r w' n sent files,
                 snippets_loop env pid dir rest w2 = (r, w')
                 /\ pass_effect w w' 0 n []
                      (map Sent (map (snippet_request pid) sent)) files
                 /\ 0 <= n <= Z.of_nat (length sent)
                 /\ sent `prefix_of` snippet :: rest
                 /\ 2 * n <= Z.of_nat (length files)
                 /\ Z.of_nat (length files)
                    <= 2 * n + (if r is Done _ then 0 else 1)
                 /\ metadata_kept files).
    { intros w2 k files Hw2 Hk Hlen Hkept.
      destruct (IH w2)
        as (r & w' & n & sent & files' & Hrun & Heff & Hn & Hpre & Hlo & Hhi
            & Hkept').
      exists r, w', (k + n), (snippet :: sent), (files ++ files')%list.
      split; [exact Hrun|].
      pose proof (pass_effect_trans _ _ _ _ _ _ _ _ _ _ _ _ _
                    (pass_effect_trans _ _ _ _ _ _ _ _ _ _ _ _ _ He Hw2)
                    Heff) as H.
      split; [exact H|].
      split; [cbn [length]; lia|]. split; [apply prefix_cons; exact Hpre|].
      rewrite length_app.
      split; [lia|]. split; [lia|].
      apply metadata_kept_app; assumption. }
    destruct (snippet_raw_of env (events w) pid (snippet_id snippet))
      as [ans|e]; subst res.
    2:{ rewrite (pbind_threw _ _ _ _ _ Hsend).
        apply (Hstop _ w1 []);
          [apply pass_effect_refl|cbn; lia|apply metadata_kept_nil]. }
    rewrite (pbind_done _ _ _ _ _ Hsend).
    destruct (answer_status ans =? 200).
    2:{ unfold pbind at 1. unfold pret at 1.
        apply (Hgo w1 0 []);
          [apply pass_effect_refl|lia|reflexivity|apply metadata_kept_nil]. }
    unfold read_body. destruct (answer_body ans) as [content|].
    2:{ apply (Hstop _ w1 []);
          [apply pass_effect_refl|cbn; lia|apply metadata_kept_nil]. }
    fold (snippet_file snippet). fold (snippet_metadata_file snippet).
    destruct (write_file env dir (snippet_file snippet) (Text content) w1)
      as [r1 w2] eqn:Hw1.
    destruct (write_file_effect _ _ _ _ _ _ _ Hw1)
      as [(-> & Hwr1 & Hwe1)|(-> & _ & ->)].
    2:{ unfold pbind at 1. unfold pbind at 1. unfold pret at 1.
        unfold pbind at 1. rewrite Hw1.
        apply (Hstop _ w1 []);
          [apply pass_effect_refl|cbn; lia|apply metadata_kept_nil]. }
    destruct (write_file env dir (snippet_metadata_file snippet)
                (JsonSnippet snippet) w2) as [r2 w3] eqn:Hw2.
    destruct (write_file_effect _ _ _ _ _ _ _ Hw2)
      as [(-> & _ & Hwe2)|(-> & Hwr2 & ->)].
    2:{ unfold pbind at 1. unfold pbind at 1. unfold pret at 1.
        unfold pbind at 1. rewrite Hw1. unfold pbind at 1. rewrite Hw2.
        apply (Hstop _ w2 [(dir, snippet_file snippet, Text content)]);
          [exact Hwe1|cbn; lia|].
        apply (metadata_kept_text env); assumption. }
    destruct (count_snippet_effect w3) as (w4 & Hc & Hce).
    unfold pbind at 1. unfold pbind at 1. unfold pret at 1.
    unfold pbind at 1. rewrite Hw1. unfold pbind at 1. rewrite Hw2, Hc.
    pose proof (pass_effect_trans _ _ _ _ _ _ _ _ _ _ _ _ _
                  (pass_effect_trans _ _ _ _ _ _ _ _ _ _ _ _ _ Hwe1 Hwe2)
                  Hce) as H.
    cbn in H.
    apply (Hgo w4 1 _ H); [lia|reflexivity|apply metadata_kept_pair].
Qed.

Lemma snippets_listing_effect env pid dir w :
  exists r w' n rs files,
    snippets_listing env pid dir w = (r, w')
    /\ pass_effect w w' 0 n [] (map Sent rs) files
    /\ 0 <= n
    /\ 2 * n <= Z.of_nat (length files)
    /\ Z.of_nat (length files) <= 2 * n + (if r is Done _ then 0 else 1)
    /\ metadata_kept files.
Proof.
  unfold snippets_listing.
  destruct (send_effect (GetSnippets pid)
              (fun history => snippets_of env history pid) w)
    as (res & Hsend & Hres).
  pose proof (emit_effect (Sent (GetSnippets pid)) w) as He.
  set (w1 := emit (Sent (GetSnippets pid)) w) in *.
  cbn beta in Hres.
  assert (Hstop : forall r : pass_result unit, exists r' w' n rs files,
             (r, w1) = (r', w')
             /\ pass_effect w w' 0 n [] (map Sent rs) files
             /\ 0 <= n
             /\ 2 * n <= Z.of_nat (length files)
             /\ Z.of_nat (length files)
                <= 2 * n + (if r' is Done _ then 0 else 1)
             /\ metadata_kept files).
  { intros r. exists r, w1, 0, [GetSnippets pid], [].
    split; [reflexivity|]. split; [exact He|].
    split; [lia|]. split; [cbn; lia|].
    split; [destruct r; cbn; lia|apply metadata_kept_nil]. }
  destruct (snippets_of env (events w) pid) as [ans|e]; subst res.
  2:{ rewrite (pbind_threw _ _ _ _ _ Hsend). apply Hstop. }
  rewrite (pbind_done _ _ _ _ _ Hsend).
  destruct (answer_status ans =? 200); cbn [negb]; [|apply Hstop].
  unfold read_body. destruct (answer_body ans) as [snippets|]; [|apply Hstop].
  unfold pbind at 1. unfold pret at 1.
  destruct snippets as [|snippet rest]; [apply Hstop|].
  unfold pbind at 1, mkdir.
  destruct (mkdir_ok env dir); [|apply Hstop].
  unfold pret at 1.
  destruct (snippets_loop_effect env pid dir (snippet :: rest) w1)
    as (r & w' & n & sent & files & Hrun & Heff & Hn & _ & Hlo & Hhi & Hkept).
  exists r, w', n, (GetSnippets pid :: map (snippet_request pid) sent), files.
  split; [exact Hrun|].
  pose proof (pass_effect_trans _ _ _ _ _ _ _ _ _ _ _ _ _ He Heff) as H.
  split; [exact H|]. split; [lia|]. split; [lia|]. split; [exact Hhi|].
  exact Hkept.
Qed.

(** One project of the snippet pass: it always returns; what was counted
    before an exception stays counted. *)
Lemma export_project_snippets_effect env export_dir project w :
  exists w' n lines rs files,
    export_project_snippets env export_dir project w = (Done tt, w')
    /\ pass_effect w w' 0 n lines (semaphore_block rs) files
    /\ Forall (fun line => fst line = ERROR) lines
    /\ 0 <= n
    /\ (length lines <= 1)%nat
    /\ 2 * n <= Z.of_nat (length files)
    /\ Z.of_nat (length files) <= 2 * n + Z.of_nat (length lines)
    /\ metadata_kept files.
Proof.
  unfold export_project_snippets. cbv zeta.
  set (pid := id (project_record project)).
  set (path := path_with_namespace (project_record project)).
  set (dir := pass_dir export_dir "snippets" path).
  unfold pcatch.
  destruct (snippets_listing_effect env pid dir (emit Acquire w))
    as (r & w1 & n & rs & files & Hrun & Heff & Hn & Hlo & Hhi & Hkept).
  destruct (with_semaphore_effect _ _ _ _ _ _ _ _ _ Hrun Heff) as [Hsem Hse].
  rewrite Hsem.
  change (Acquire :: map Sent rs ++ [Release])%list
    with (semaphore_block rs) in Hse.
  destruct r as [[]|e].
  - exists (emit Release w1), n, [], rs, files.
    split; [reflexivity|]. split; [exact Hse|].
    split; [constructor|]. cbn [length]. repeat split; auto; lia.
  - destruct (pass_log_line_effect ERROR (MsgSnippetError path e)
                (emit Release w1)) as (w2 & Hlog & Hle).
    pose proof (pass_effect_trans _ _ _ _ _ _ _ _ _ _ _ _ _ Hse Hle) as H.
    cbn in H. rewrite !app_nil_r in H.
    exists w2, n, [(ERROR, MsgSnippetError path e)], rs, files.
    split; [exact Hlog|].
    split.
    { replace n with (n + 0) by lia. exact H. }
    split; [repeat constructor|]. cbn [length]. repeat split; auto; lia.
Qed.

Lemma export_snippets_loop_effect env export_dir projects : forall w,
  exists w' n errors blocks files,
    export_snippets_loop env export_dir projects w = (Done tt, w')
    /\ pass_effect w w' 0 n errors (concat (map semaphore_block blocks)) files
    /\ Forall (fun line => fst line = ERROR) errors
    /\ 0 <= n
    /\ (length errors <= length projects)%nat
    /\ length blocks = length projects
    /\ 2 * n <= Z.of_nat (length files)
    /\ Z.of_nat (length files) <= 2 * n + Z.of_nat (length errors)
    /\ metadata_kept files.
Proof.
  induction projects as [|project rest IH]; intros w.
  - exists w, 0, [], [], []. cbn.
    split; [reflexivity|]. split; [apply pass_effect_refl|].
    split; [constructor|]. repeat split; try lia. apply metadata_kept_nil.
  - cbn [export_snippets_loop].
    destruct (export_project_snippets_effect env export_dir project w)
      as (w1 & n1 & l1 & rs & f1 & Hrun1 & Heff1 & Herr1 & Hn1 & Hl1 & Hlo1
          & Hhi1 & Hk1).
    rewrite (pbind_done _ _ _ _ _ Hrun1).
    destruct (IH w1)
      as (w2 & n2 & l2 & b2 & f2 & Hrun2 & Heff2 & Herr2 & Hn2 & Hl2 & Hb2
          & Hlo2 & Hhi2 & Hk2).
    exists w2, (n1 + n2), (l1 ++ l2)%list, (rs :: b2), (f1 ++ f2)%list.
    split; [exact Hrun2|].
    pose proof (pass_effect_trans _ _ _ _ _ _ _ _ _ _ _ _ _ Heff1 Heff2) as H.
    cbn in H. cbn [map concat].
    split; [exact H|].
    split; [apply Forall_app; auto|].
    rewrite !length_app. cbn [length].
    repeat split; try lia. apply metadata_kept_app; assumption.
Qed.

(** The run of the snippet pass, with what it has done at its end. *)
Lemma export_snippets_accounting_run env export_dir projects w :
  exists w' n errors blocks files,
    export_snippets env export_dir projects w = (Done tt, w')
    /\ snippets_exported (pass_stats w')
       = snippets_exported (pass_stats w) + n
    /\ wikis_exported (pass_stats w') = wikis_exported (pass_stats w)
    /\ batch_counters (pass_stats w') = batch_counters (pass_stats w)
    /\ pass_log w'
       = (pass_log w ++ errors ++ [(SUCCESS, MsgSnippetsExported n)])%list
    /\ Forall (fun line => fst line = ERROR) errors
    /\ (length errors <= length projects)%nat
    /\ events w' = (events w ++ concat (map semaphore_block blocks))%list
    /\ length blocks = length projects
    /\ written w' = (written w ++ files)%list
    /\ 2 * n <= Z.of_nat (length files) <= 2 * n + Z.of_nat (length errors).
Proof.
  unfold export_snippets.
  set (w0 := mkPassWorld (pass_stats w) 0 (written w) (pass_log w) (events w)).
  assert (H0 : set_local_count 0 w = (Done tt, w0)) by reflexivity.
  rewrite (pbind_done _ _ _ _ _ H0).
  destruct (export_snippets_loop_effect env export_dir projects w0)
    as (w1 & n & errors & blocks & files & Hrun & Heff & Herr & Hn & Hl & Hb
        & Hlo & Hhi & _).
  rewrite (pbind_done _ _ _ _ _ Hrun).
  destruct Heff as (E1 & E2 & E3 & E4 & E5 & E6 & E7).
  cbn in E1, E2, E3, E4, E5, E6, E7.
  eexists _, n, errors, blocks, files.
  split; [reflexivity|]. cbn.
  rewrite E1, E2, E3, E4, E5, E6, E7, Z.add_0_r, <- app_assoc.
  replace (0 + 0 + n) with n by lia.
  repeat split; auto.
Qed.

(** X22. The accounts of the snippet pass, when it returns.  The number it
    logs at its end is the number it has added to [snippets_exported], and
    every snippet counted has its two files written: the files of the pass
    are two per counted snippet, and at most one more for each error logged.
    It enters the semaphore once for each project and sends nothing outside
    it; no other counter moves. *)
Theorem export_snippets_accounting env export_dir projects w w' :
  export_snippets env export_dir projects w = (Done tt, w') ->
  exists n errors blocks files,
    snippets_exported (pass_stats w')
    = snippets_exported (pass_stats w) + n
    /\ wikis_exported (pass_stats w') = wikis_exported (pass_stats w)
    /\ batch_counters (pass_stats w') = batch_counters (pass_stats w)
    /\ pass_log w'
       = (pass_log w ++ errors ++ [(SUCCESS, MsgSnippetsExported n)])%list
    /\ Forall (fun line => fst line = ERROR) errors
    /\ (length errors <= length projects)%nat
    /\ events w' = (events w ++ concat (map semaphore_block blocks))%list
    /\ length blocks = length projects
    /\ written w' = (written w ++ files)%list
    /\ 2 * n <= Z.of_nat (length files) <= 2 * n + Z.of_nat (length errors).
Proof.
  intros Hdone.
  destruct (export_snippets_accounting_run env export_dir projects w)
    as (w1 & n & errors & blocks & files & Hrun & Hrest).
  rewrite Hrun in Hdone. injection Hdone as <-.
  exists n, errors, blocks, files. exact Hrest.
Qed.

Lemma export_snippets_accounting_witness :
  let run :=
    export_snippets Passes.snippets_break Sample.export_dir [Passes.handbook]
      PassWorld_init in
  fst run = Done tt
  /\ exists n errors,
       snippets_exported (pass_stats (snd run)) = n
       /\ pass_log (snd run)
          = (errors ++ [(SUCCESS, MsgSnippetsExported n)])%list
       /\ (length errors <= 1)%nat
       /\ 2 * n <= Z.of_nat (length (written (snd run)))
          <= 2 * n + Z.of_nat (length errors).
Proof.
  cbv zeta.
  set (run := export_snippets Passes.snippets_break Sample.export_dir
                [Passes.handbook] PassWorld_init).
  assert (Hrun : run = (Done tt, snd run)) by (vm_compute; reflexivity).
  destruct (export_snippets_accounting _ _ _ _ _ Hrun)
    as (n & errors & blocks & files & Hs & _ & _ & Hl & _ & He & _ & _ & Hf
        & Hlen).
  split; [now rewrite Hrun|].
  exists n, errors. rewrite Hf.
  repeat split; [exact Hs|exact Hl|exact He|apply Hlen|apply Hlen].
Defined.

(** X23. A snippet whose file is called [metadata.json] is counted as
    exported and its text is gone: the pass writes the metadata of a snippet
    into [<id>_metadata.json] after the text, so among the files the pass has
    written none of that name holds the text of a snippet, whatever the
    snippets are called. *)
Theorem export_snippets_metadata_name env export_dir projects w :
  exists w' files,
    export_snippets env export_dir projects w = (Done tt, w')
    /\ written w' = (written w ++ files)%list
    /\ metadata_kept files.
Proof.
  unfold export_snippets.
  set (w0 := mkPassWorld (pass_stats w) 0 (written w) (pass_log w) (events w)).
  assert (H0 : set_local_count 0 w = (Done tt, w0)) by reflexivity.
  rewrite (pbind_done _ _ _ _ _ H0).
  destruct (export_snippets_loop_effect env export_dir projects w0)
    as (w1 & k & errors & blocks & files & Hrun & Heff & _ & _ & _ & _ & _ & _
        & Hkept).
  rewrite (pbind_done _ _ _ _ _ Hrun).
  destruct Heff as (_ & _ & _ & _ & _ & _ & E7).
  cbn in E7. eexists _, files.
  split; [reflexivity|]. split; [exact E7|exact Hkept].
Qed.

Lemma snippets_loop_app env pid dir before after : forall w,
  snippets_loop env pid dir (before ++ after) w
  = match snippets_loop env pid dir before w with
    | (Done _, w1) => snippets_loop env pid dir after w1
    | (Threw e, w1) => (Threw e, w1)
    end.
Proof.
  induction before as [|snippet rest IH]; intros w; [reflexivity|].
  cbn [app snippets_loop]. unfold pbind.
  destruct (send _ _ w) as [[ans|e] w1]; [|reflexivity].
  destruct (answer_status ans =? 200).
  - unfold read_body, pret, pthrow, write_file, count_snippet.
    destruct (answer_body ans); [|reflexivity].
    destruct (writable env dir (Numbered _ (file_name snippet)));
      [|reflexivity].
    cbn [pass_stats local_count written pass_log events].
    destruct (writable env dir (Numbered _ "metadata.json")); [|reflexivity].
    apply IH.
  - unfold pret. apply IH.
Qed.

Lemma snippets_loop_served env pid dir snippets :
  Forall (snippet_served env pid dir) snippets ->
  forall w,
    exists w' files,
      snippets_loop env pid dir snippets w = (Done tt, w')
      /\ pass_effect w w' 0 (Z.of_nat (length snippets)) []
           (map Sent (map (snippet_request pid) snippets)) files
      /\ length files = (2 * length snippets)%nat.
Proof.
  induction 1 as [|snippet rest (Hw1 & Hw2 & Hans) _ IH]; intros w.
  - exists w, []. split; [reflexivity|]. split; [apply pass_effect_refl|].
    reflexivity.
  - cbn [snippets_loop]. unfold pbind at 1, send.
    destruct (Hans (events w)) as (content & ->).
    pose proof (emit_effect (Sent (snippet_request pid snippet)) w) as He.
    unfold snippet_request in He.
    set (w1 := emit (Sent (GetSnippetRaw pid (snippet_id snippet))) w) in *.
    cbn [answer_status answer_body]. unfold read_body.
    cbn [Z.eqb Pos.eqb answer_body].
    unfold pbind at 1. unfold pbind at 1. unfold pret at 1.
    unfold pbind at 1. unfold write_file at 1.
    fold (snippet_file snippet). rewrite Hw1.
    unfold pbind at 1. unfold write_file at 1.
    fold (snippet_metadata_file snippet).
    cbn [pass_stats local_count written pass_log events]. rewrite Hw2.
    unfold count_snippet at 1.
    cbn [pass_stats local_count written pass_log events].
    set (w4 := mkPassWorld _ _ _ _ _).
    assert (Hstep : pass_effect w1 w4 0 1 [] []
                      [(dir, snippet_file snippet, Text content);
                       (dir, snippet_metadata_file snippet,
                        JsonSnippet snippet)]).
    { unfold pass_effect, w4. cbn. rewrite !Z.add_0_r, !app_nil_r.
      rewrite <- !app_assoc. auto 10. }
    destruct (IH w4) as (w' & files & Hrun & Heff & Hlen).
    eexists w', _.
    split; [exact Hrun|].
    pose proof (pass_effect_trans _ _ _ _ _ _ _ _ _ _ _ _ _
                  (pass_effect_trans _ _ _ _ _ _ _ _ _ _ _ _ _ He Hstep)
                  Heff) as H.
    split.
    { cbn [length map]. replace (Z.of_nat (S (length rest)))
        with (0 + 1 + Z.of_nat (length rest)) by lia. exact H. }
    cbn [length app]. lia.
Qed.

(** X24. Snippets are counted one by one: when the content request of a
    snippet raises, the snippets exported before it stay counted and on disk,
    the snippets after it are never asked for, and the project gets one error
    line.  (A wiki in the same position is not counted at all.) *)
Theorem export_project_snippets_partial env export_dir project w listing
    before snippet after e :
  let pid := id (project_record project) in
  let path := path_with_namespace (project_record project) in
  let dir := pass_dir export_dir "snippets" path in
  snippets_of env (events w ++ [Acquire])%list pid = Return listing ->
  answer_status listing = 200 ->
  answer_body listing = Some (before ++ snippet :: after)%list ->
  mkdir_ok env dir = true ->
  Forall (snippet_served env pid dir) before ->
  snippet_raises env pid snippet e ->
  exists w' files,
    export_project_snippets env export_dir project w = (Done tt, w')
    /\ pass_effect w w' 0 (Z.of_nat (length before))
         [(ERROR, MsgSnippetError path (SessionError e))]
         (semaphore_block
            (GetSnippets pid
             :: map (snippet_request pid) (before ++ [snippet])))
         files
    /\ length files = (2 * length before)%nat.
Proof.
  intros pid path dir Hans Hst Hbody Hmk Hbefore Hraise.
  destruct (snippets_loop_served env pid dir before Hbefore
              (emit (Sent (GetSnippets pid)) (emit Acquire w)))
    as (w3 & files & Hloop & Hle & Hlen).
  set (w4 := emit (Sent (snippet_request pid snippet)) w3).
  assert (Hrun : snippets_listing env pid dir (emit Acquire w)
                 = (Threw (SessionError e), w4)).
  { unfold snippets_listing, pbind at 1, send.
    cbn [events emit]. rewrite Hans.
    apply Z.eqb_eq in Hst. rewrite Hst. cbn [negb].
    unfold read_body. rewrite Hbody. unfold pbind at 1. unfold pret at 1.
    destruct before as [|first more] eqn:Hb.
    - cbn [app]. unfold pbind at 1, mkdir. rewrite Hmk. unfold pret at 1.
      cbn [snippets_loop]. unfold pbind at 1, send.
      injection Hloop as <-.
      rewrite (Hraise _). reflexivity.
    - rewrite <- Hb in *. clear Hb.
      assert (Hcons : exists s l, (before ++ snippet :: after)%list = s :: l).
      { destruct before; cbn; eauto. }
      destruct Hcons as (s & l & Hcons). rewrite Hcons.
      unfold pbind at 1, mkdir. rewrite Hmk. unfold pret at 1.
      rewrite <- Hcons. rewrite snippets_loop_app.
      change (mkPassWorld (pass_stats (emit Acquire w))
                (local_count (emit Acquire w)) (written (emit Acquire w))
                (pass_log (emit Acquire w))
                (events (emit Acquire w) ++ [Sent (GetSnippets pid)]))
        with (emit (Sent (GetSnippets pid)) (emit Acquire w)).
      rewrite Hloop. cbn [snippets_loop]. unfold pbind at 1, send.
      rewrite (Hraise _). reflexivity. }
  pose proof (emit_effect (Sent (GetSnippets pid)) (emit Acquire w)) as H1.
  pose proof (emit_effect (Sent (snippet_request pid snippet)) w3) as H3.
  fold w4 in H3.
  pose proof (pass_effect_trans _ _ _ _ _ _ _ _ _ _ _ _ _
                (pass_effect_trans _ _ _ _ _ _ _ _ _ _ _ _ _ H1 Hle) H3)
    as Hbody_eff.
  destruct (with_semaphore_effect _ _ _ _ _ _ _ _ _ Hrun Hbody_eff)
    as [Hsem Hse].
  destruct (pass_log_line_effect ERROR
              (MsgSnippetError path (SessionError e)) (emit Release w4))
    as (w5 & Hlog & Hlog_eff).
  pose proof (pass_effect_trans _ _ _ _ _ _ _ _ _ _ _ _ _ Hse Hlog_eff) as H.
  cbn in H. rewrite !app_nil_r in H.
  exists w5, files.
  split.
  { unfold export_project_snippets. cbv zeta. fold pid. fold path. fold dir.
    unfold pcatch. rewrite Hsem. exact Hlog. }
  split; [|exact Hlen].
  unfold semaphore_block. cbn [map]. rewrite !map_app. cbn [map].
  replace (Z.of_nat (length before))
    with (0 + Z.of_nat (length before) + 0 + 0) by lia.
  exact H.
Qed.

Lemma export_project_snippets_partial_witness :
  exists w',
    export_project_snippets Passes.snippets_break Sample.export_dir
      Passes.handbook PassWorld_init = (Done tt, w')
    /\ snippets_exported (pass_stats w') = 2
    /\ pass_log w'
       = [(ERROR, MsgSnippetError "grp/app" (SessionError ClientConnectionError))]
    /\ length (written w') = 4%nat.
Proof.
  destruct (export_project_snippets_partial Passes.snippets_break
              Sample.export_dir Passes.handbook PassWorld_init
              (mkAnswer 200 (Some [Passes.notes; Passes.shadowed; Passes.lost;
                                   Passes.last]))
              [Passes.notes; Passes.shadowed] Passes.lost [Passes.last]
              ClientConnectionError)
    as (w' & files & Hrun & Heff & Hlen).
  - reflexivity.
  - reflexivity.
  - reflexivity.
  - reflexivity.
  - repeat constructor; intros history; exists "print(1)"; reflexivity.
  - intros history. reflexivity.
  - destruct Heff as (_ & Hs & _ & _ & Hl & _ & Hf).
    exists w'. rewrite Hs, Hl, Hf.
    change (written PassWorld_init ++ files)%list with files. rewrite Hlen.
    repeat split. exact Hrun.
Defined.

(** The snippet [2_metadata.json] of the sample: counted with the first, and
    the file of that name holds its metadata, not its text. *)
Example snippet_text_overwritten :
  let w' :=
    snd (export_snippets Passes.snippets_break Sample.export_dir
           [Passes.handbook] PassWorld_init) in
  snippets_exported (pass_stats w') = 2
  /\ file_content (written w')
       (pass_dir Sample.export_dir "snippets" "grp/app")
       (Numbered 2 "metadata.json")
     = Some (JsonSnippet Passes.shadowed).
Proof.
  vm_compute. split; reflexivity.
Qed.

(** ** The metadata pass *)

Lemma read_page_pure response w : snd (read_page response w) = w.
Proof.
  unfold read_page, read_body, pbind, pret, pthrow.
  destruct (answer_status response =? 200); cbn [negb]; [|reflexivity].
  destruct (answer_body response) as [[|item items]|]; reflexivity.
Qed.

Lemma read_page_result response w :
  fst (read_page response w) = round_of (Return response).
Proof.
  unfold read_page, read_body, pbind, pret, pthrow, round_of.
  destruct (answer_status response =? 200); cbn [negb]; [|reflexivity].
  destruct (answer_body response) as [[|item items]|]; reflexivity.
Qed.

(** A round of the issues loop: one request, alone in its semaphore block. *)
Lemma issues_page_run env pid page w :
  exists w',
    issues_page env pid page w
    = (round_of (issues_of env (events w ++ [Acquire])%list pid page), w')
    /\ pass_effect w w' 0 0 [] (issues_round pid page) [].
Proof.
  unfold issues_page, with_semaphore, pbind, send.
  change (events (emit Acquire w)) with (events w ++ [Acquire])%list.
  set (w1 := emit (Sent (GetIssues pid page)) (emit Acquire w)).
  assert (He : pass_effect w (emit Release w1) 0 0 [] (issues_round pid page) []).
  { unfold pass_effect, w1, emit. cbn. rewrite !Z.add_0_r, !app_nil_r.
    rewrite <- !app_assoc. auto 10. }
  destruct (issues_of env (events w ++ [Acquire])%list pid page) as [ans|e].
  - pose proof (read_page_pure ans w1) as Hp.
    pose proof (read_page_result ans w1) as Hr.
    destruct (read_page ans w1) as [r w2]. cbn in Hp, Hr. subst.
    exists (emit Release w1). split; [reflexivity|exact He].
  - exists (emit Release w1). split; [reflexivity|exact He].
Qed.

(** A round of the merge request loop: one request, outside any block. *)
Lemma merge_requests_page_run env pid page w :
  exists w',
    merge_requests_page env pid page w
    = (round_of (merge_requests_of env (events w) pid page), w')
    /\ pass_effect w w' 0 0 [] (merge_requests_round pid page) [].
Proof.
  unfold merge_requests_page, pbind, send.
  set (w1 := emit (Sent (GetMergeRequests pid page)) w).
  assert (He : pass_effect w w1 0 0 [] (merge_requests_round pid page) [])
    by apply emit_effect.
  destruct (merge_requests_of env (events w) pid page) as [ans|e].
  - pose proof (read_page_pure ans w1) as Hp.
    pose proof (read_page_result ans w1) as Hr.
    destruct (read_page ans w1) as [r w2]. cbn in Hp, Hr. subst.
    exists w1. split; [reflexivity|exact He].
  - exists w1. split; [reflexivity|exact He].
Qed.

Lemma page_numbers_succ start n :
  page_numbers start (S n) = start :: page_numbers (start + 1) n.
Proof.
  unfold page_numbers. cbn [seq map]. rewrite Z.add_0_r. f_equal.
  rewrite <- seq_shift, List.map_map. apply map_ext. intros i. lia.
Qed.

Lemma page_numbers_one start : page_numbers start 1 = [start].
Proof. unfold page_numbers. cbn. rewrite Z.add_0_r. reflexivity. Qed.

Section Paging.
Variable round : Z -> P paging.
Variable segment : Z -> list pass_event.
Hypothesis round_effect : forall page w r w',
  round page w = (r, w') -> pass_effect w w' 0 0 [] (segment page) [].

(** A paging loop does nothing but its rounds, page after page. *)
Lemma paging_loop_effect fuel : forall page items w,
  exists r w' rounds,
    paging_loop round fuel page items w = (r, w')
    /\ pass_effect w w' 0 0 []
         (concat (map segment (page_numbers page rounds))) []
    /\ (rounds <= fuel)%nat.
Proof.
  induction fuel as [|fuel IH]; intros page items w.
  - exists (Done None), w, 0%nat.
    split; [reflexivity|]. split; [apply pass_effect_refl|lia].
  - cbn [paging_loop]. unfold pbind at 1.
    destruct (round page w) as [[step|e] w1] eqn:Hround.
    + pose proof (round_effect _ _ _ _ Hround) as He.
      destruct step as [|page_items].
      * exists (Done (Some items)), w1, 1%nat.
        split; [reflexivity|].
        rewrite page_numbers_one. cbn [map concat].
        rewrite app_nil_r. split; [exact He|lia].
      * destruct (IH (page + 1) (items ++ page_items)%list w1)
          as (r & w' & rounds & Hrun & Heff & Hle).
        exists r, w', (S rounds).
        split; [exact Hrun|].
        pose proof (pass_effect_trans _ _ _ _ _ _ _ _ _ _ _ _ _ He Heff) as H.
        split; [|lia].
        rewrite page_numbers_succ. cbn [map concat]. exact H.
    + pose proof (round_effect _ _ _ _ Hround) as He.
      exists (Threw e), w1, 1%nat.
      split; [reflexivity|].
      rewrite page_numbers_one. cbn [map concat].
      rewrite app_nil_r. split; [exact He|lia].
Qed.

(** A paging loop that meets pages with items and then a round that ends it:
    it has gathered the items of these pages, in order, when that round
    comes, and it takes one round more than there are pages. *)
Lemma paging_loop_run pages final : forall fuel start items w,
  (length pages < fuel)%nat ->
  (forall i page_items w,
      pages !! i = Some page_items ->
      fst (round (start + Z.of_nat i) w) = Done (NextPage page_items)) ->
  (forall w, fst (round (start + Z.of_nat (length pages)) w) = final) ->
  (forall page_items, final <> Done (NextPage page_items)) ->
  exists w',
    paging_loop round fuel start items w
    = (paging_end (items ++ concat pages)%list final, w')
    /\ pass_effect w w' 0 0 []
         (concat (map segment (page_numbers start (S (length pages))))) [].
Proof.
  induction pages as [|first rest IH]; intros fuel start items w Hfuel Hserved
    Hfinal Hstop.
  - destruct fuel as [|fuel]; [cbn in Hfuel; lia|].
    cbn [paging_loop]. unfold pbind at 1.
    specialize (Hfinal w). cbn [length] in Hfinal.
    rewrite Z.add_0_r in Hfinal.
    destruct (round start w) as [r w1] eqn:Hround. cbn in Hfinal. subst r.
    pose proof (round_effect _ _ _ _ Hround) as He.
    exists w1. cbn [concat]. rewrite app_nil_r.
    split.
    + destruct final as [[|page_items]|e]; try reflexivity.
      exfalso. exact (Hstop page_items eq_refl).
    + cbn [length]. rewrite page_numbers_one. cbn [map concat].
      rewrite app_nil_r. exact He.
  - destruct fuel as [|fuel]; [cbn in Hfuel; lia|].
    cbn [paging_loop]. unfold pbind at 1.
    pose proof (Hserved 0%nat first w eq_refl) as H0.
    rewrite Z.add_0_r in H0.
    destruct (round start w) as [r w1] eqn:Hround. cbn in H0. subst r.
    pose proof (round_effect _ _ _ _ Hround) as He.
    destruct (IH fuel (start + 1) (items ++ first)%list w1) as (w' & Hrun & Heff).
    + cbn [length] in Hfuel. lia.
    + intros i page_items w2 Hi.
      replace (start + 1 + Z.of_nat i) with (start + Z.of_nat (S i)) by lia.
      apply Hserved. exact Hi.
    + intros w2.
      replace (start + 1 + Z.of_nat (length rest))
        with (start + Z.of_nat (length (first :: rest)))
        by (cbn [length]; lia).
      apply Hfinal.
    + exact Hstop.
    + exists w'. split.
      * rewrite Hrun. cbn [concat]. rewrite app_assoc. reflexivity.
      * pose proof (pass_effect_trans _ _ _ _ _ _ _ _ _ _ _ _ _ He Heff) as H.
        cbn [length]. rewrite page_numbers_succ. cbn [map concat]. exact H.
Qed.

(** The pages of one kind and their file: the rounds, and one file at most. *)
Lemma export_items_effect env fuel dir name w :
  exists r w' rounds files,
    export_items env round fuel dir name w = (r, w')
    /\ pass_effect w w' 0 0 []
         (concat (map segment (page_numbers 1 rounds))) files
    /\ (length files <= 1)%nat.
Proof.
  unfold export_items.
  destruct (paging_loop_effect fuel 1 [] w)
    as (r & w1 & rounds & Hrun & Heff & _).
  destruct r as [[items|]|e].
  - rewrite (pbind_done _ _ _ _ _ Hrun).
    destruct items as [|item items].
    + exists (Done true), w1, rounds, [].
      split; [reflexivity|]. split; [exact Heff|cbn; lia].
    + unfold dump_items.
      destruct (write_file env dir (Plain name) (JsonItems (item :: items)) w1)
        as [rw w2] eqn:Hw.
      destruct (write_file_effect _ _ _ _ _ _ _ Hw)
        as [(-> & _ & Hwe)|(-> & _ & ->)].
      * rewrite (pbind_done _ _ _ _ _ Hw).
        exists (Done true), w2, rounds, [(dir, Plain name, JsonItems (item :: items))].
        split; [reflexivity|].
        pose proof (pass_effect_trans _ _ _ _ _ _ _ _ _ _ _ _ _ Heff Hwe) as H.
        cbn in H. rewrite app_nil_r in H.
        split; [exact H|cbn; lia].
      * rewrite (pbind_threw _ _ _ _ _ Hw).
        exists (Threw (OSError dir)), w1, rounds, [].
        split; [reflexivity|]. split; [exact Heff|cbn; lia].
  - rewrite (pbind_done _ _ _ _ _ Hrun).
    exists (Done false), w1, rounds, [].
    split; [reflexivity|]. split; [exact Heff|cbn; lia].
  - rewrite (pbind_threw _ _ _ _ _ Hrun).
    exists (Threw e), w1, rounds, [].
    split; [reflexivity|]. split; [exact Heff|cbn; lia].
Qed.
End Paging.

Lemma issues_page_effect env pid page w r w' :
  issues_page env pid page w = (r, w') ->
  pass_effect w w' 0 0 [] (issues_round pid page) [].
Proof.
  intros H. destruct (issues_page_run env pid page w) as (w1 & Hrun & Heff).
  rewrite Hrun in H. injection H as _ <-. exact Heff.
Qed.

Lemma merge_requests_page_effect env pid page w r w' :
  merge_requests_page env pid page w = (r, w') ->
  pass_effect w w' 0 0 [] (merge_requests_round pid page) [].
Proof.
  intros H.
  destruct (merge_requests_page_run env pid page w) as (w1 & Hrun & Heff).
  rewrite Hrun in H. injection H as _ <-. exact Heff.
Qed.

Lemma issues_rounds_segments pid pages :
  Forall metadata_segment (map (issues_round pid) pages).
Proof.
  apply Forall_map, Forall_forall. intros page _.
  exists pid, page. left. reflexivity.
Qed.

Lemma merge_requests_rounds_segments pid pages :
  Forall metadata_segment (map (merge_requests_round pid) pages).
Proof.
  apply Forall_map, Forall_forall. intros page _.
  exists pid, page. right. reflexivity.
Qed.

(** One project of the metadata pass: it always returns, counts nothing and
    logs one line at most. *)
Lemma export_project_metadata_effect env fuel metadata_dir project w :
  exists b w' lines segments files,
    export_project_metadata env fuel metadata_dir project w = (Done b, w')
    /\ pass_effect w w' 0 0 lines (concat segments) files
    /\ Forall metadata_segment segments
    /\ Forall (fun line => fst line = ERROR) lines
    /\ (length lines <= 1)%nat
    /\ (length files <= 2)%nat.
Proof.
  unfold export_project_metadata. cbv zeta.
  set (pid := id (project_record project)).
  set (path := path_with_namespace (project_record project)).
  set (dir := (metadata_dir +:+ "/" +:+ replace_char "/" "_" path)).
  assert (Hfail : forall e w1 segments files,
             pass_effect w w1 0 0 [] (concat segments) files ->
             Forall metadata_segment segments ->
             (length files <= 2)%nat ->
             exists b w' lines segments files,
               (do? pass_log_line ERROR (MsgMetadataError path e) in pret true)
                 w1 = (Done b, w')
               /\ pass_effect w w' 0 0 lines (concat segments) files
               /\ Forall metadata_segment segments
               /\ Forall (fun line => fst line = ERROR) lines
               /\ (length lines <= 1)%nat
               /\ (length files <= 2)%nat).
  { intros e w1 segments files Heff Hseg Hlen.
    destruct (pass_log_line_effect ERROR (MsgMetadataError path e) w1)
      as (w2 & Hlog & Hle).
    rewrite (pbind_done _ _ _ _ _ Hlog).
    pose proof (pass_effect_trans _ _ _ _ _ _ _ _ _ _ _ _ _ Heff Hle) as H.
    cbn in H. rewrite !app_nil_r in H.
    exists true, w2, [(ERROR, MsgMetadataError path e)], segments, files.
    split; [reflexivity|]. split; [exact H|].
    split; [exact Hseg|]. split; [repeat constructor|].
    split; [cbn; lia|exact Hlen]. }
  unfold pcatch, pbind at 1, mkdir.
  destruct (mkdir_ok env dir).
  2:{ unfold pthrow at 1.
      apply (Hfail _ w [] []);
        [apply pass_effect_refl|constructor|cbn; lia]. }
  unfold pret at 1.
  assert (Hissues : exists r w1 rounds files,
             (if issues_enabled project
              then export_items env (issues_page env pid) fuel dir "issues.json"
              else pret true) w = (r, w1)
             /\ pass_effect w w1 0 0 []
                  (concat (map (issues_round pid) (page_numbers 1 rounds)))
                  files
             /\ (length files <= 1)%nat).
  { destruct (issues_enabled project).
    - apply export_items_effect. apply issues_page_effect.
    - exists (Done true), w, 0%nat, [].
      split; [reflexivity|]. split; [apply pass_effect_refl|cbn; lia]. }
  destruct Hissues as (r1 & w1 & k1 & f1 & Hrun1 & Heff1 & Hlen1).
  unfold pbind at 1. rewrite Hrun1.
  destruct r1 as [[|]|e].
  - assert (Hmrs : exists r w2 rounds files,
               (if merge_requests_enabled project
                then export_items env (merge_requests_page env pid) fuel dir
                       "merge_requests.json"
                else pret true) w1 = (r, w2)
               /\ pass_effect w1 w2 0 0 []
                    (concat (map (merge_requests_round pid)
                               (page_numbers 1 rounds)))
                    files
               /\ (length files <= 1)%nat).
    { destruct (merge_requests_enabled project).
      - apply export_items_effect. apply merge_requests_page_effect.
      - exists (Done true), w1, 0%nat, [].
        split; [reflexivity|]. split; [apply pass_effect_refl|cbn; lia]. }
    destruct Hmrs as (r2 & w2 & k2 & f2 & Hrun2 & Heff2 & Hlen2).
    rewrite Hrun2.
    pose proof (pass_effect_trans _ _ _ _ _ _ _ _ _ _ _ _ _ Heff1 Heff2) as H.
    rewrite <- concat_app in H.
    assert (Hseg : Forall metadata_segment
                     (map (issues_round pid) (page_numbers 1 k1)
                      ++ map (merge_requests_round pid) (page_numbers 1 k2))).
    { apply Forall_app. split;
        [apply issues_rounds_segments|apply merge_requests_rounds_segments]. }
    assert (Hlen : (length (f1 ++ f2) <= 2)%nat)
      by (rewrite length_app; lia).
    destruct r2 as [b|e].
    + exists b, w2, [],
        (map (issues_round pid) (page_numbers 1 k1)
         ++ map (merge_requests_round pid) (page_numbers 1 k2))%list,
        (f1 ++ f2)%list.
      split; [reflexivity|]. split; [exact H|].
      split; [exact Hseg|]. split; [constructor|]. split; [cbn; lia|exact Hlen].
    + apply (Hfail _ w2 _ _ H Hseg Hlen).
  - exists false, w1, [], (map (issues_round pid) (page_numbers 1 k1)), f1.
    split; [reflexivity|]. split; [exact Heff1|].
    split; [apply issues_rounds_segments|]. split; [constructor|].
    split; [cbn; lia|lia].
  - apply (Hfail _ w1 _ _ Heff1); [apply issues_rounds_segments|lia].
Qed.

Lemma export_metadata_loop_effect env fuel metadata_dir projects : forall w,
  exists b w' lines segments files,
    export_metadata_loop env fuel metadata_dir projects w = (Done b, w')
    /\ pass_effect w w' 0 0 lines (concat segments) files
    /\ Forall metadata_segment segments
    /\ Forall (fun line => fst line = ERROR) lines
    /\ (length lines <= length projects)%nat
    /\ (length files <= 2 * length projects)%nat.
Proof.
  induction projects as [|project rest IH]; intros w.
  - exists true, w, [], [], [].
    split; [reflexivity|]. split; [apply pass_effect_refl|].
    split; [constructor|]. split; [constructor|]. cbn; lia.
  - cbn [export_metadata_loop].
    destruct (export_project_metadata_effect env fuel metadata_dir project w)
      as (b1 & w1 & l1 & s1 & f1 & Hrun1 & Heff1 & Hseg1 & Herr1 & Hl1 & Hf1).
    rewrite (pbind_done _ _ _ _ _ Hrun1).
    destruct b1.
    + destruct (IH w1)
        as (b2 & w2 & l2 & s2 & f2 & Hrun2 & Heff2 & Hseg2 & Herr2 & Hl2 & Hf2).
      exists b2, w2, (l1 ++ l2)%list, (s1 ++ s2)%list, (f1 ++ f2)%list.
      split; [exact Hrun2|].
      pose proof (pass_effect_trans _ _ _ _ _ _ _ _ _ _ _ _ _ Heff1 Heff2) as H.
      rewrite concat_app.
      split; [exact H|].
      split; [apply Forall_app; auto|]. split; [apply Forall_app; auto|].
      rewrite !length_app. cbn [length]. lia.
    + exists false, w1, l1, s1, f1.
      split; [reflexivity|]. split; [exact Heff1|].
      split; [exact Hseg1|]. split; [exact Herr1|]. cbn [length]. lia.
Qed.

(** The two runs of the metadata pass: the directory cannot be made, or it
    can. *)
Lemma export_metadata_trace_run env fuel export_dir projects w :
  let metadata_dir := export_dir +:+ "/metadata" in
  (mkdir_ok env metadata_dir = false ->
   export_metadata env fuel export_dir projects w
   = (Threw (OSError metadata_dir), w))
  /\ (mkdir_ok env metadata_dir = true ->
      exists b w' lines segments files,
        export_metadata env fuel export_dir projects w = (Done b, w')
        /\ pass_effect w w' 0 0 lines (concat segments) files
        /\ Forall metadata_segment segments
        /\ Forall (fun line => fst line = ERROR) lines
        /\ (length lines <= length projects)%nat
        /\ (length files <= 2 * length projects)%nat).
Proof.
  intros metadata_dir. unfold export_metadata. fold metadata_dir.
  unfold pbind at 1 2, mkdir.
  split; intros Hmk; rewrite Hmk; [reflexivity|].
  unfold pret at 1.
  apply export_metadata_loop_effect.
Qed.

(** X25. The metadata pass leaves no trace in the statistics.  However a run
    of it ends, every counter is as it was, the lines it has logged are
    errors, one per project at most, and it has written two files per
    project at most.  Its requests for issues are each alone in a semaphore
    block; its requests for merge requests are sent outside the semaphore.
    When the metadata directory cannot be made, the statement before every
    [try], the run ends there with that error and nothing done. *)
Theorem export_metadata_trace env fuel export_dir projects w r w' :
  let metadata_dir := export_dir +:+ "/metadata" in
  export_metadata env fuel export_dir projects w = (r, w') ->
  (exists lines segments files,
     pass_effect w w' 0 0 lines (concat segments) files
     /\ Forall metadata_segment segments
     /\ Forall (fun line => fst line = ERROR) lines
     /\ (length lines <= length projects)%nat
     /\ (length files <= 2 * length projects)%nat)
  /\ (mkdir_ok env metadata_dir = false ->
      r = Threw (OSError metadata_dir) /\ w' = w).
Proof.
  intros metadata_dir Hrun.
  destruct (export_metadata_trace_run env fuel export_dir projects w)
    as [Hfail Hmade]. fold metadata_dir in Hfail, Hmade.
  destruct (mkdir_ok env metadata_dir) eqn:Hmk.
  - destruct (Hmade eq_refl)
      as (b & w1 & lines & segments & files & Hdone & Hrest).
    rewrite Hdone in Hrun. injection Hrun as <- <-.
    split; [|discriminate]. exists lines, segments, files. exact Hrest.
  - rewrite (Hfail eq_refl) in Hrun. injection Hrun as <- <-.
    split; [|intros _; split; reflexivity].
    exists [], [], []. split; [apply pass_effect_refl|].
    repeat split; auto; cbn; lia.
Qed.

Lemma export_metadata_trace_witness :
  let run :=
    export_metadata Passes.issues_throttled 10 Sample.export_dir
      [Passes.tracker] PassWorld_init in
  pass_stats (snd run) = pass_stats PassWorld_init
  /\ (length (pass_log (snd run)) <= 1)%nat
  /\ (length (written (snd run)) <= 2)%nat.
Proof.
  cbv zeta.
  destruct (export_metadata_trace Passes.issues_throttled 10 Sample.export_dir
              [Passes.tracker] PassWorld_init _ _ (surjective_pairing _))
    as [(lines & segments & files & Heff & _ & _ & Hl & Hf) _].
  destruct Heff as (Hw & Hs & Hb & _ & Hlog & _ & Hfiles).
  rewrite Hlog, Hfiles. cbn [app PassWorld_init pass_log written].
  split; [|split; [exact Hl|exact Hf]].
  destruct (pass_stats (snd _)) eqn:Hst. cbn in Hw, Hs, Hb.
  vm_compute. vm_compute in Hw, Hs, Hb. congruence.
Defined.

Lemma issues_page_result env pid page w :
  fst (issues_page env pid page w)
  = round_of (issues_of env (events w ++ [Acquire])%list pid page).
Proof.
  destruct (issues_page_run env pid page w) as (w' & Hrun & _).
  rewrite Hrun. reflexivity.
Qed.

(** The issues loop against a remote that serves pages with items and then
    answers [final]. *)
Lemma issues_loop_served env pid pages final fuel w :
  issues_served env pid pages final ->
  (length pages < fuel)%nat ->
  (forall items, round_of final <> Done (NextPage items)) ->
  exists w',
    paging_loop (issues_page env pid) fuel 1 [] w
    = (paging_end (concat pages) (round_of final), w')
    /\ pass_effect w w' 0 0 []
         (concat (map (issues_round pid)
                    (page_numbers 1 (S (length pages))))) [].
Proof.
  intros [Hpages Hfinal] Hfuel Hstop.
  apply (paging_loop_run (issues_page env pid) (issues_round pid)
           (issues_page_effect env pid) pages (round_of final) fuel 1 [] w
           Hfuel).
  - intros i items w1 Hi. rewrite issues_page_result.
    destruct (Hpages (events w1 ++ [Acquire])%list i items Hi) as [Hne ->].
    cbn. destruct items; [contradiction|reflexivity].
  - intros w1. rewrite issues_page_result, Hfinal. reflexivity.
  - exact Hstop.
Qed.

(** X26. Issues are cut short in silence.  When the remote serves some pages
    of issues and answers the next page with another status than 200 (or
    with no items), [issues.json] holds the issues of the pages before it and
    nothing is logged: a refused page looks like the end of the list.  With
    no page served, no file is written. *)
Theorem export_issues_truncated env fuel metadata_dir project w pages final :
  let pid := id (project_record project) in
  let dir :=
    metadata_dir +:+ "/"
    +:+ replace_char "/" "_" (path_with_namespace (project_record project)) in
  issues_enabled project = true ->
  merge_requests_enabled project = false ->
  mkdir_ok env dir = true ->
  writable env dir (Plain "issues.json") = true ->
  issues_served env pid pages final ->
  round_of final = Done StopPaging ->
  (length pages < fuel)%nat ->
  exists w',
    export_project_metadata env fuel metadata_dir project w = (Done true, w')
    /\ pass_effect w w' 0 0 []
         (concat (map (issues_round pid) (page_numbers 1 (S (length pages)))))
         (match concat pages with
          | [] => []
          | _ :: _ => [(dir, Plain "issues.json", JsonItems (concat pages))]
          end).
Proof.
  intros pid dir Hissues Hmrs Hmk Hwr Hserved Hfinal Hfuel.
  destruct (issues_loop_served env pid pages final fuel w Hserved Hfuel)
    as (w1 & Hrun & Heff).
  { intros items. rewrite Hfinal. discriminate. }
  rewrite Hfinal in Hrun. cbn [paging_end] in Hrun.
  unfold export_project_metadata. cbv zeta. fold pid. fold dir.
  unfold pcatch, pbind at 1, mkdir. rewrite Hmk, Hissues, Hmrs.
  unfold pret at 1. unfold pbind at 1, export_items.
  rewrite (pbind_done _ _ _ _ _ Hrun).
  unfold dump_items.
  destruct (concat pages) as [|item items] eqn:Hitems.
  - exists w1. split; [reflexivity|exact Heff].
  - unfold pbind at 1, write_file. rewrite Hwr. unfold pret.
    eexists. split; [reflexivity|].
    destruct Heff as (E1 & E2 & E3 & E4 & E5 & E6 & E7).
    unfold pass_effect. cbn.
    rewrite E1, E2, E3, E4, E5, E6, E7, !app_nil_r. repeat split.
Qed.

Lemma export_issues_truncated_witness :
  exists w',
    export_project_metadata Passes.issues_throttled 10 Passes.metadata_dir
      Passes.tracker PassWorld_init = (Done true, w')
    /\ pass_log w' = []
    /\ written w'
       = [(Passes.metadata_dir +:+ "/grp_lib", Plain "issues.json",
           JsonItems ["#1"; "#2"; "#3"])].
Proof.
  destruct (export_issues_truncated Passes.issues_throttled 10
              Passes.metadata_dir Passes.tracker PassWorld_init
              [["#1"; "#2"]; ["#3"]] (Return (mkAnswer 429 None)))
    as (w' & Hrun & Heff).
  - reflexivity.
  - reflexivity.
  - reflexivity.
  - reflexivity.
  - split.
    + intros history i items Hi.
      destruct i as [|[|i]]; cbn in Hi; try discriminate;
        injection Hi as <-; (split; [discriminate|reflexivity]).
    + intros history. reflexivity.
  - reflexivity.
  - cbn. lia.
  - destruct Heff as (_ & _ & _ & _ & Hl & _ & Hf).
    exists w'. split; [exact Hrun|]. split; [exact Hl|exact Hf].
Defined.

(** X27. An exception in the issues loop costs the project everything: the
    issues gathered so far are dropped, no file is written, the merge
    requests are not asked for although they are enabled, and one error is
    logged; the pass goes on with the next project. *)
Theorem export_metadata_issue_failure env fuel metadata_dir project w pages
    final e :
  let pid := id (project_record project) in
  let path := path_with_namespace (project_record project) in
  let dir := metadata_dir +:+ "/" +:+ replace_char "/" "_" path in
  issues_enabled project = true ->
  mkdir_ok env dir = true ->
  issues_served env pid pages final ->
  round_of final = Threw e ->
  (length pages < fuel)%nat ->
  exists w',
    export_project_metadata env fuel metadata_dir project w = (Done true, w')
    /\ pass_effect w w' 0 0 [(ERROR, MsgMetadataError path e)]
         (concat (map (issues_round pid) (page_numbers 1 (S (length pages)))))
         [].
Proof.
  intros pid path dir Hissues Hmk Hserved Hfinal Hfuel.
  destruct (issues_loop_served env pid pages final fuel w Hserved Hfuel)
    as (w1 & Hrun & Heff).
  { intros items. rewrite Hfinal. discriminate. }
  rewrite Hfinal in Hrun. cbn [paging_end] in Hrun.
  destruct (pass_log_line_effect ERROR (MsgMetadataError path e) w1)
    as (w2 & Hlog & Hle).
  pose proof (pass_effect_trans _ _ _ _ _ _ _ _ _ _ _ _ _ Heff Hle) as H.
  rewrite !app_nil_r in H.
  exists w2. split; [|exact H].
  unfold export_project_metadata. cbv zeta. fold pid. fold path. fold dir.
  unfold pcatch, pbind at 1, mkdir. rewrite Hmk, Hissues.
  unfold pret at 1. unfold pbind at 1, export_items.
  rewrite (pbind_threw _ _ _ _ _ Hrun).
  rewrite (pbind_done _ _ _ _ _ Hlog). reflexivity.
Qed.

Lemma export_metadata_issue_failure_witness :
  exists w',
    export_project_metadata Passes.issues_broken 10 Passes.metadata_dir
      Passes.handbook PassWorld_init = (Done true, w')
    /\ written w' = []
    /\ events w' = (issues_round 7 1 ++ issues_round 7 2)%list
    /\ pass_log w'
       = [(ERROR,
           MsgMetadataError "grp/app" (SessionError ClientConnectionError))].
Proof.
  destruct (export_metadata_issue_failure Passes.issues_broken 10
              Passes.metadata_dir Passes.handbook PassWorld_init
              [["#1"]] (Raise ClientConnectionError)
              (SessionError ClientConnectionError))
    as (w' & Hrun & Heff).
  - reflexivity.
  - reflexivity.
  - split.
    + intros history i items Hi.
      destruct i as [|i]; cbn in Hi; try discriminate;
        injection Hi as <-; (split; [discriminate|reflexivity]).
    + intros history. reflexivity.
  - reflexivity.
  - cbn. lia.
  - destruct Heff as (_ & _ & _ & _ & Hl & He & Hf).
    exists w'. split; [exact Hrun|]. split; [exact Hf|].
    split; [exact He|exact Hl].
Defined.

(** * Properties of [load_instances] *)

Lemma read_line_idle line st :
  idle_line line -> current_instance st = None -> read_line line st = inr st.
Proof.
  intros Hidle Hcur. unfold read_line. rewrite Hcur.
  destruct (blank line) eqn:Hbl; [reflexivity|].
  destruct Hidle as [Hb|[[Hh Hp]|[Hh Hm]]]; [congruence| |].
  - rewrite Hh. destruct (parts line) as [|a [|b l]]; try reflexivity.
    cbn in Hp. lia.
  - rewrite Hh, Hm. reflexivity.
Qed.

Lemma read_lines_idle lines : forall st,
  Forall idle_line lines ->
  current_instance st = None ->
  read_lines lines st = inr st.
Proof.
  induction lines as [|line rest IH]; intros st Hidle Hcur; [reflexivity|].
  inversion Hidle as [|? ? Hline Hrest]; subst.
  cbn [read_lines]. rewrite (read_line_idle line st Hline Hcur).
  apply IH; assumption.
Qed.

Lemma read_lines_app before after : forall st,
  read_lines (before ++ after) st
  = match read_lines before st with
    | inl e => inl e
    | inr st' => read_lines after st'
    end.
Proof.
  induction before as [|line rest IH]; intros st; [reflexivity|].
  cbn [app read_lines]. destruct (read_line line st); [reflexivity|apply IH].
Qed.

(** A token line with the marker [TOKEN:] and no instance before it. *)
Lemma read_line_no_instance line t st :
  token_line line t ->
  has_marker line = true ->
  current_instance st = None ->
  read_line line st = inl AttributeError.
Proof.
  intros (Hb & Hh & _ & Ht) Hm Hcur. unfold read_line.
  rewrite Hb, Hh, Hm, Ht, Hcur, orb_true_r. reflexivity.
Qed.

(** A token line when an instance is current. *)
Lemma read_line_token line t st i :
  token_line line t ->
  current_instance st = Some i ->
  read_line line st
  = inr (mkLoader (alter (set_token t) i (loaded st)) (Some i)).
Proof.
  intros (Hb & Hh & Hm & Ht) Hcur. unfold read_line.
  rewrite Hb, Hh, Ht, Hcur.
  rewrite bool_decide_true by eauto.
  destruct Hm as [-> | ->]; rewrite ?orb_true_r; reflexivity.
Qed.

(** X28. A token line with the marker [TOKEN:] that comes before the first
    instance makes [load_instances] raise: the test of the [elif] is read as
    [(current_instance and ...) or 'TOKEN:' in line], so the line gets
    through without a current instance and the token is stored in [None].
    The same line with the marker spelt with a Xi is passed over in
    silence. *)
Theorem load_instances_token_before_url idle line t rest :
  Forall idle_line idle ->
  token_line line t ->
  has_marker line = true ->
  load_instances (mkConfigFiles None (Some (idle ++ line :: rest)%list))
  = inl AttributeError.
Proof.
  intros Hidle Hline Hm. unfold load_instances. cbn [config_json instances_txt].
  rewrite read_lines_app, (read_lines_idle idle (mkLoader [] None) Hidle eq_refl).
  cbn [read_lines].
  rewrite (read_line_no_instance line t (mkLoader [] None) Hline Hm eq_refl).
  reflexivity.
Qed.

Lemma load_instances_token_before_url_witness :
  load_instances
    (mkConfigFiles None
       (Some [Config.remark; Config.beta; Config.beta_token; Config.alpha]))
  = inl AttributeError.
Proof.
  apply (load_instances_token_before_url [Config.remark; Config.beta]
           Config.beta_token "glpat-beta" [Config.alpha]).
  - constructor; [|constructor; [|constructor]].
    + right. right. split; reflexivity.
    + right. left. split; [reflexivity|cbn; lia].
  - repeat split. right. reflexivity.
  - reflexivity.
Defined.

Lemma read_line_passed_over line st :
  passed_over line -> read_line line st = inr st.
Proof.
  intros H. unfold read_line.
  destruct (blank line) eqn:Hbl; [reflexivity|].
  destruct H as [Hb|[[Hh Hp]|[Hh Hm]]]; [congruence| |].
  - rewrite Hh. destruct (parts line) as [|a [|b l]]; try reflexivity.
    cbn in Hp. lia.
  - rewrite Hh. destruct Hm as [->|[-> ->]].
    + destruct (_ || _); reflexivity.
    + rewrite andb_false_r. reflexivity.
Qed.

Lemma read_lines_passed_over lines : forall st,
  Forall passed_over lines -> read_lines lines st = inr st.
Proof.
  induction lines as [|line rest IH]; intros st H; [reflexivity|].
  inversion H as [|? ? Hline Hrest]; subst.
  cbn [read_lines]. rewrite (read_line_passed_over line st Hline).
  apply IH; assumption.
Qed.

Lemma read_line_makes line st :
  makes_instance line = true ->
  read_line line st
  = match host_label line with
    | Some label =>
        inr (mkLoader
               (loaded st
                ++ [new_instance label (default "" (head (parts line))) ""])
               (Some (length (loaded st))))
    | None => inl UrlParseError
    end.
Proof.
  unfold makes_instance, read_line. intros H.
  apply andb_prop in H as [H Hp]. apply andb_prop in H as [Hb Hh].
  apply negb_true_iff in Hb. apply bool_decide_eq_true in Hp.
  rewrite Hb, Hh.
  destruct (parts line) as [|a [|b l]]; cbn in Hp; try lia. reflexivity.
Qed.

(** An URL line of two fields whose address [urlparse] refuses ends the
    loading with that exception, whatever follows. *)
Lemma load_instances_url_refused before st maker rest :
  read_lines before (mkLoader [] None) = inr st ->
  makes_instance maker = true ->
  host_label maker = None ->
  load_instances (mkConfigFiles None (Some (before ++ maker :: rest)%list))
  = inl UrlParseError.
Proof.
  intros Hbefore Hmaker Hlabel.
  unfold load_instances. cbn [config_json instances_txt].
  rewrite read_lines_app, Hbefore. cbn [read_lines].
  rewrite (read_line_makes maker st Hmaker), Hlabel. reflexivity.
Qed.

(** X29. A token is stored in the instance made last, whatever stands
    between.  Take an URL line of two fields or more whose address
    [urlparse] accepts, with the label of its host, then lines the loop
    passes over, then a token line: the token goes to the instance of that
    URL line.  An URL line of a single field is such a line passed over, it
    makes no instance and does not change the current one, so the token on
    the line after it goes to the instance of the URL line before, the token
    of one host to another. *)
Theorem load_instances_token_owner before st maker label between line t :
  read_lines before (mkLoader [] None) = inr st ->
  makes_instance maker = true ->
  host_label maker = Some label ->
  Forall passed_over between ->
  token_line line t ->
  load_instances
    (mkConfigFiles None
       (Some (before ++ maker :: between ++ [line])%list))
  = inr ((loaded st
          ++ [new_instance label (default "" (head (parts maker))) t])%list,
         true).
Proof.
  intros Hbefore Hmaker Hlabel Hbetween Hline.
  unfold load_instances. cbn [config_json instances_txt].
  rewrite read_lines_app, Hbefore. cbn [read_lines].
  rewrite (read_line_makes maker st Hmaker), Hlabel.
  rewrite read_lines_app, (read_lines_passed_over between _ Hbetween).
  cbn [read_lines].
  erewrite read_line_token; [|exact Hline|reflexivity].
  cbn [loaded].
  rewrite length_alter, length_app. cbn [length].
  replace (0 <? length (loaded st) + 1)%nat with true
    by (symmetry; apply Nat.ltb_lt; lia).
  replace (length (loaded st)) with (length (loaded st) + 0)%nat by lia.
  rewrite alter_app_r. reflexivity.
Qed.

Lemma load_instances_token_owner_witness :
  load_instances
    (mkConfigFiles None
       (Some [Config.remark; Config.alpha; Config.beta; Config.beta_token]))
  = inr ([new_instance "alpha" "https://alpha.example.com" "glpat-beta"], true).
Proof.
  apply (load_instances_token_owner [Config.remark] (mkLoader [] None)
           Config.alpha "alpha" [Config.beta] Config.beta_token "glpat-beta").
  - reflexivity.
  - reflexivity.
  - reflexivity.
  - constructor; [|constructor].
    right. left. split; [reflexivity|cbn; lia].
  - repeat split. right. reflexivity.
Defined.

Lemma read_line_cases line st st' :
  read_line line st = inr st' ->
  (makes_instance line = false /\ st' = st)
  \/ (makes_instance line = true
      /\ st' = mkLoader
                 (loaded st
                  ++ [new_instance (default "" (host_label line))
                        (default "" (head (parts line))) ""])
                 (Some (length (loaded st))))
  \/ (makes_instance line = false
      /\ exists i t,
           token_match line = Some t
           /\ st' = mkLoader (alter (set_token t) i (loaded st)) (Some i)).
Proof.
  destruct (makes_instance line) eqn:Hmk.
  - rewrite (read_line_makes line st Hmk).
    destruct (host_label line) as [label|]; [|discriminate].
    intros [= <-]. right. left. auto.
  - unfold read_line. unfold makes_instance in Hmk.
    destruct (blank line); [intros [= <-]; auto|].
    destruct (starts_with_http line).
    + cbn in Hmk. apply bool_decide_eq_false in Hmk.
      destruct (parts line) as [|a [|b l]]; cbn in Hmk; try lia;
        intros [= <-]; auto.
    + destruct (_ || _); [|intros [= <-]; auto].
      destruct (token_match line) as [t|]; [|intros [= <-]; auto].
      destruct (current_instance st) as [i|]; [|discriminate].
      intros [= <-]. right. right. split; [reflexivity|]. eauto.
Qed.

Lemma address_alter t i (l : list GitLabInstance) :
  map address (alter (set_token t) i l) = map address l.
Proof.
  revert i. induction l as [|x l IH]; intros [|i]; cbn; try reflexivity.
  f_equal. apply IH.
Qed.

Lemma listed_cons line lines :
  listed (line :: lines)
  = ((if makes_instance line
      then [(default "" (host_label line), default "" (head (parts line)))]
      else []) ++ listed lines)%list.
Proof. reflexivity. Qed.

(** The loop over the lines adds the instances of the URL lines, in order,
    and changes nothing of an instance but its token, which it takes from a
    line. *)
Lemma read_lines_found (from_line : string -> Prop) lines : forall st st',
  (forall line t, In line lines -> token_match line = Some t -> from_line t) ->
  read_lines lines st = inr st' ->
  Forall (fun i => unvisited i /\ (token i = "" \/ from_line (token i)))
    (loaded st) ->
  map address (loaded st') = (map address (loaded st) ++ listed lines)%list
  /\ Forall (fun i => unvisited i /\ (token i = "" \/ from_line (token i)))
       (loaded st').
Proof.
  induction lines as [|line rest IH]; intros st st' Hfrom Hrun Hinv.
  - injection Hrun as <-. rewrite app_nil_r. auto.
  - cbn [read_lines] in Hrun.
    destruct (read_line line st) as [e|st1] eqn:Hline; [discriminate|].
    assert (Hrest : forall l t, In l rest -> token_match l = Some t ->
                                from_line t).
    { intros l t Hin. apply Hfrom. right. exact Hin. }
    rewrite listed_cons.
    destruct (read_line_cases line st st1 Hline)
      as [[Hmk ->]|[[Hmk ->]|(Hmk & i & t & Ht & ->)]]; rewrite Hmk.
    + apply (IH st st' Hrest Hrun Hinv).
    + destruct (IH _ st' Hrest Hrun) as [Haddr Hall].
      * cbn [loaded]. apply Forall_app. split; [exact Hinv|].
        constructor; [|constructor]. split; [reflexivity|left; reflexivity].
      * split; [|exact Hall].
        rewrite Haddr. cbn [loaded]. rewrite map_app, <- app_assoc.
        reflexivity.
    + destruct (IH _ st' Hrest Hrun) as [Haddr Hall].
      * cbn [loaded]. apply Forall_alter; [exact Hinv|].
        intros x _ [Hx _]. split.
        -- unfold unvisited in *. rewrite Hx. reflexivity.
        -- right. cbn. apply (Hfrom line t); [left; reflexivity|exact Ht].
      * split; [|exact Hall].
        rewrite Haddr. cbn [loaded]. rewrite address_alter. reflexivity.
Qed.

(** X30. What [load_instances] finds in [gitlab_instances.txt], when it
    returns: one instance for each URL line of two fields or more, in the
    order of the lines, named after the first label of the host; nothing is
    known of an instance but name, URL and token, and a token is empty or
    stands on a line of the file.  The result is [True] exactly when there is
    such an instance. *)
Theorem load_instances_found lines found result :
  load_instances (mkConfigFiles None (Some lines)) = inr (found, result) ->
  map address found = listed lines
  /\ Forall
       (fun i =>
          unvisited i
          /\ (token i = ""
              \/ exists line,
                   In line lines /\ token_match line = Some (token i)))
       found
  /\ (result = true <-> found <> []).
Proof.
  unfold load_instances. cbn [config_json instances_txt].
  destruct (read_lines lines (mkLoader [] None)) as [e|st] eqn:Hrun;
    [discriminate|].
  intros [= <- <-].
  destruct (read_lines_found
              (fun t => exists line, In line lines /\ token_match line = Some t)
              lines (mkLoader [] None) st) as [Haddr Hall].
  - intros line t Hin Ht. exists line. auto.
  - exact Hrun.
  - constructor.
  - split; [exact Haddr|]. split; [exact Hall|].
    destruct (loaded st) as [|i l]; cbn.
    + split; [discriminate|]. intros H. contradiction.
    + split; [discriminate|reflexivity].
Qed.

Lemma load_instances_found_witness :
  map address [new_instance "alpha" "https://alpha.example.com" "glpat-beta"]
  = listed [Config.remark; Config.alpha; Config.beta; Config.beta_token].
Proof.
  apply (load_instances_found
           [Config.remark; Config.alpha; Config.beta; Config.beta_token]
           [new_instance "alpha" "https://alpha.example.com" "glpat-beta"]
           true).
  reflexivity.
Defined.
